(** * TruthSeeker Plus: the scanning engine of [server.py]

    A shallow embedding of the pattern extractor ([parse]) and of the
    streaming scan generator ([scan] / [generate] / [run_playwright_logic]),
    followed by the properties of the specification settled against it.

    Conventions of the embedding.
    - The URL given to [parse] is any Python [str]: a [text], the list of
      its code points.  The classes of the regular expression and of the
      string methods are those of CPython 3.11 (Unicode 14): [\d] is the
      category Nd, [[^0-9]] is ASCII, [.] is anything but a line feed.
    - The strings of a scan (query parameters, header values, messages) are
      [string]s; a character is a code point below U+0100, and
      [str.isspace], [str.lower] are the tables given below.
    - A Python [int] is a [Z].  Loop indices and counters that start at 0
      and only grow ([i], [found], [consecutive]) are [nat].
    - The conversions between [int] and [str] raise [ValueError] beyond
      4300 digits, as the interpreter does by default.
    - Everything the generator asks of the outside (browser, network, disk,
      clock, libraries) is answered by a [World] record of oracles.
      Exhaustion of memory is not part of the model. *)

From Stdlib Require Import ZArith NArith List Bool Lia Ascii String.
From Stdlib Require Import DecimalString DecimalZ DecimalFacts.
Import ListNotations.

#[local] Open Scope string_scope.
#[local] Open Scope Z_scope.

(* ------------------------------------------------------------------ *)
(** ** Characters and the string methods used by the source            *)
(* ------------------------------------------------------------------ *)

Definition LF : ascii := ascii_of_nat 10.

Definition code (c : ascii) : nat := nat_of_ascii c.

(** ASCII decimal digits: the class [[0-9]]. *)
Definition is_digit (c : ascii) : bool :=
  (48 <=? code c)%nat && (code c <=? 57)%nat.

(** [str.isspace] for a single code point below U+0100. *)
Definition is_space (c : ascii) : bool :=
  let n := code c in
  ((9 <=? n) && (n <=? 13) || (28 <=? n) && (n <=? 32)
   || (n =? 133) || (n =? 160))%nat.

(** [str.lower] for a single code point below U+0100. *)
Definition lower_char (c : ascii) : ascii :=
  let n := code c in
  if ((65 <=? n) && (n <=? 90)
      || (192 <=? n) && (n <=? 222) && negb (n =? 215))%nat
  then ascii_of_nat (n + 32) else c.

Fixpoint lower (s : string) : string :=
  match s with
  | EmptyString => EmptyString
  | String c s' => String (lower_char c) (lower s')
  end.

Fixpoint forall_chars (p : ascii -> bool) (s : string) : bool :=
  match s with
  | EmptyString => true
  | String c s' => p c && forall_chars p s'
  end.

Fixpoint exists_char (p : ascii -> bool) (s : string) : bool :=
  match s with
  | EmptyString => false
  | String c s' => p c || exists_char p s'
  end.

Fixpoint rev_string (s : string) : string :=
  match s with
  | EmptyString => EmptyString
  | String c s' => rev_string s' ++ String c EmptyString
  end.

(** [s.lstrip()], [s.rstrip()], [s.strip()] with no argument. *)
Fixpoint lstrip (s : string) : string :=
  match s with
  | EmptyString => EmptyString
  | String c s' => if is_space c then lstrip s' else s
  end.

Definition rstrip (s : string) : string := rev_string (lstrip (rev_string s)).

Definition strip (s : string) : string := rstrip (lstrip s).

(** [needle in s] for strings. *)
Fixpoint contains (needle s : string) : bool :=
  String.prefix needle s ||
  match s with
  | EmptyString => false
  | String _ s' => contains needle s'
  end.

(** [s.split(sep)] for a one-character separator. *)
Fixpoint split_char (sep : ascii) (s : string) : list string :=
  match s with
  | EmptyString => [EmptyString]
  | String c s' =>
      if Ascii.eqb c sep then EmptyString :: split_char sep s'
      else match split_char sep s' with
           | [] => [String c EmptyString]
           | h :: t => String c h :: t
           end
  end.

Fixpoint zeros (n : nat) : string :=
  match n with
  | O => EmptyString
  | S n' => String "0" (zeros n')
  end.

(** The text of [s.zfill(width)]: left padding with zeros, after a
    leading sign. *)
Definition zfill (s : string) (width : Z) : string :=
  let n := Z.of_nat (String.length s) in
  if width <=? n then s
  else
    let pad := zeros (Z.to_nat (width - n)) in
    match s with
    | String c s' =>
        if Ascii.eqb c "+" || Ascii.eqb c "-" then String c (pad ++ s')
        else pad ++ s
    | EmptyString => pad
    end.

(** The decimal numeral of an integer, with a minus sign when negative. *)
Definition decimal (n : Z) : string := NilZero.string_of_int (Z.to_int n).

(** [sys.get_int_max_str_digits()], by default. *)
Definition MAX_STR_DIGITS : nat := 4300.

(** The least magnitude whose numeral has more digits than that. *)
Definition STR_LIMIT : Z := 10 ^ Z.of_nat MAX_STR_DIGITS.

Definition fits (n : Z) : bool := Z.abs n <? STR_LIMIT.

(** [str(n)] for an integer, and [f"{n}"]; [None] is the [ValueError]
    raised for an integer of more than 4300 digits. *)
Definition str (n : Z) : option string :=
  if fits n then Some (decimal n) else None.

(* ------------------------------------------------------------------ *)
(** ** Unicode text                                                    *)
(* ------------------------------------------------------------------ *)

(** A Python [str] as the list of its code points. *)
Definition text : Type := list N.

(** The text of a string of this file, a code point per character. *)
Definition text_of (s : string) : text := map N_of_ascii (list_ascii_of_string s).

(** The code points of the digits zero of the category Nd; each is
    followed by its digits one to nine. *)
Definition DECIMAL_ZEROS : list N := [
  48; 1632; 1776; 1984; 2406; 2534; 2662; 2790;
  2918; 3046; 3174; 3302; 3430; 3558; 3664; 3792;
  3872; 4160; 4240; 6112; 6160; 6470; 6608; 6784;
  6800; 6992; 7088; 7232; 7248; 42528; 43216; 43264;
  43472; 43504; 43600; 44016; 65296; 66720; 68912; 69734;
  69872; 69942; 70096; 70384; 70736; 70864; 71248; 71360;
  71472; 71904; 72016; 72784; 73040; 73120; 92768; 92864;
  93008; 120782; 120792; 120802; 120812; 120822; 123200; 123632;
  125264; 130032
]%N.

Definition in_block (c zero : N) : bool := ((zero <=? c) && (c <? zero + 10))%N.

(** The class [\d] of a pattern on [str]: the decimal digits of every
    script. *)
Definition is_decimal (c : N) : bool := existsb (in_block c) DECIMAL_ZEROS.

(** The class [[0-9]]. *)
Definition ascii_digit (c : N) : bool := in_block c 48%N.

(** The class [[^0-9]]. *)
Definition non_digit (c : N) : bool := negb (ascii_digit c).

(** The class [.] without DOTALL: anything but a line feed. *)
Definition dot (c : N) : bool := negb (c =? 10)%N.

(** The value of a decimal digit, from 0 to 9. *)
Definition decimal_value (c : N) : N :=
  match find (in_block c) DECIMAL_ZEROS with
  | Some zero => c - zero
  | None => 0
  end.

(** The code points for which [str.isspace] holds. *)
Definition WHITESPACE : list N := [
  9; 10; 11; 12; 13; 28; 29; 30; 31; 32; 133; 160; 5760;
  8192; 8193; 8194; 8195; 8196; 8197; 8198; 8199; 8200; 8201; 8202;
  8232; 8233; 8239; 8287; 12288
]%N.

Definition is_whitespace (c : N) : bool := existsb (N.eqb c) WHITESPACE.

Fixpoint lstrip_text (t : text) : text :=
  match t with
  | [] => []
  | c :: t' => if is_whitespace c then lstrip_text t' else t
  end.

Definition rstrip_text (t : text) : text := rev (lstrip_text (rev t)).

(** [t.strip()] with no argument. *)
Definition strip_text (t : text) : text := rstrip_text (lstrip_text t).

(* ------------------------------------------------------------------ *)
(** ** [int(s)] in base 10                                             *)
(* ------------------------------------------------------------------ *)

(** The white space that [int] skips around a literal: the ASCII white
    space of C, and the white space beyond ASCII, which the conversion
    first turns into blanks. *)
Definition int_space (c : N) : bool :=
  ((9 <=? c) && (c <=? 13) || (c =? 32) || (127 <=? c) && is_whitespace c)%N.

Fixpoint skip_spaces (t : text) : text :=
  match t with
  | [] => []
  | c :: t' => if int_space c then skip_spaces t' else t
  end.

Definition UNDERSCORE : N := 95%N.

(** The scan of the digits of a literal: the digits met, without the
    underscores between them, and the text left after them; [None] when
    an underscore is doubled or is not followed by a digit. *)
Fixpoint scan_digits (after_underscore : bool) (t : text) : option (text * text) :=
  match t with
  | [] => if after_underscore then None else Some ([], [])
  | c :: t' =>
      if is_decimal c then
        match scan_digits false t' with
        | Some (ds, rest) => Some (c :: ds, rest)
        | None => None
        end
      else if (c =? UNDERSCORE)%N then
        (if after_underscore then None else scan_digits true t')
      else if after_underscore then None else Some ([], t)
  end.

Definition digit_of_value (v : N) : Decimal.uint -> Decimal.uint :=
  match v with
  | 0 => Decimal.D0 | 1 => Decimal.D1 | 2 => Decimal.D2 | 3 => Decimal.D3
  | 4 => Decimal.D4 | 5 => Decimal.D5 | 6 => Decimal.D6 | 7 => Decimal.D7
  | 8 => Decimal.D8 | _ => Decimal.D9
  end%N.

Fixpoint uint_of_digits (d : text) : Decimal.uint :=
  match d with
  | [] => Decimal.Nil
  | c :: d' => digit_of_value (decimal_value c) (uint_of_digits d')
  end.

(** The integer value of a run of decimal digits. *)
Definition digits_value (d : text) : Z := Z.of_uint (uint_of_digits d).

Inductive IntResult :=
| IntValue (n : Z)
| InvalidLiteral                 (* ValueError: invalid literal for int() *)
| TooManyDigits (digits : nat).  (* ValueError: exceeds the limit *)

(** [int(t)]: white space, an optional sign, digits with single
    underscores between them, white space.  The digits are counted,
    leading zeros included, before the end of the literal is looked at. *)
Definition int (t : text) : IntResult :=
  let t1 := skip_spaces t in
  let '(negative, body) :=
    match t1 with
    | c :: b =>
        if (c =? 45)%N then (true, b)
        else if (c =? 43)%N then (false, b)
        else (false, t1)
    | [] => (false, t1)
    end in
  match body with
  | c :: _ =>
      if (c =? UNDERSCORE)%N then InvalidLiteral
      else
        match scan_digits false body with
        | None => InvalidLiteral
        | Some (ds, rest) =>
            if (MAX_STR_DIGITS <? List.length ds)%nat then TooManyDigits (List.length ds)
            else
              match ds with
              | [] => InvalidLiteral
              | _ =>
                  if forallb int_space rest
                  then IntValue (if negative then - digits_value ds else digits_value ds)
                  else InvalidLiteral
              end
        end
  | [] => InvalidLiteral
  end.

(** [int(s)] on a string of a scan; [None] is [ValueError]. *)
Definition py_int (s : string) : option Z :=
  match int (text_of s) with
  | IntValue n => Some n
  | _ => None
  end.

Definition QUOTE : string := String (ascii_of_nat 34) EmptyString.
Definition APOSTROPHE : string := String (ascii_of_nat 39) EmptyString.
Definition BACKSLASH : string := String (ascii_of_nat 92) EmptyString.

(** A hexadecimal digit in lower case. *)
Definition hex_digit (n : nat) : ascii :=
  if (n <? 10)%nat then ascii_of_nat (48 + n) else ascii_of_nat (87 + n).

(** [str.isprintable] for a single code point below U+0100. *)
Definition is_printable (c : ascii) : bool :=
  let n := code c in
  ((32 <=? n) && (n <=? 126) || (161 <=? n) && negb (n =? 173))%nat.

(** One character inside [repr(s)], between quotes [quote]. *)
Definition repr_char (quote : ascii) (c : ascii) : string :=
  let n := code c in
  if Ascii.eqb c quote || (n =? 92)%nat then BACKSLASH ++ String c EmptyString
  else if (n =? 9)%nat then BACKSLASH ++ "t"
  else if (n =? 10)%nat then BACKSLASH ++ "n"
  else if (n =? 13)%nat then BACKSLASH ++ "r"
  else if is_printable c then String c EmptyString
  else BACKSLASH ++ "x"
       ++ String (hex_digit (n / 16)) (String (hex_digit (n mod 16)) EmptyString).

Fixpoint repr_chars (quote : ascii) (s : string) : string :=
  match s with
  | EmptyString => EmptyString
  | String c s' => repr_char quote c ++ repr_chars quote s'
  end.

(** [repr(s)]: between apostrophes, or between quotes when the string
    holds an apostrophe and no quote. *)
Definition repr (s : string) : string :=
  let quote :=
    if exists_char (Ascii.eqb (ascii_of_nat 39)) s
       && negb (exists_char (Ascii.eqb (ascii_of_nat 34)) s)
    then ascii_of_nat 34 else ascii_of_nat 39 in
  String quote (repr_chars quote s) ++ String quote EmptyString.

Definition str_nat (n : nat) : string := decimal (Z.of_nat n).

(** The message of the [ValueError] of [int(s)]; the [repr] of the
    literal is cut after 200 characters. *)
Definition int_error (s : string) : string :=
  match int (text_of s) with
  | TooManyDigits digits =>
      "Exceeds the limit (4300 digits) for integer string conversion: value has "
      ++ str_nat digits ++ " digits; use sys.set_int_max_str_digits() to increase the limit"
  | _ =>
      "invalid literal for int() with base 10: " ++ String.substring 0 200 (repr s)
  end.

(** The message of the [ValueError] of [str(n)]. *)
Definition STR_ERROR : string :=
  "Exceeds the limit (4300 digits) for integer string conversion; use sys.set_int_max_str_digits() to increase the limit".

(* ------------------------------------------------------------------ *)
(** ** The regular expression of [parse]                               *)
(* ------------------------------------------------------------------ *)

(** Backtracking quantifiers over a character class, in continuation
    style: the continuation receives the text matched by the quantifier
    and the rest of the subject, and the alternatives are tried in the
    order of the backtracking matcher. *)
Section Quantifiers.
Context {R : Type}.

(** [cls*?]: the shortest match first. *)
Fixpoint lazy_star (cls : N -> bool) (s : text)
    (k : text -> text -> option R) : option R :=
  match k [] s with
  | Some r => Some r
  | None =>
      match s with
      | c :: s' =>
          if cls c then lazy_star cls s' (fun m rest => k (c :: m) rest)
          else None
      | [] => None
      end
  end.

(** [cls*]: the longest match first. *)
Fixpoint greedy_star (cls : N -> bool) (s : text)
    (k : text -> text -> option R) : option R :=
  match s with
  | c :: s' =>
      if cls c then
        match greedy_star cls s' (fun m rest => k (c :: m) rest) with
        | Some r => Some r
        | None => k [] s
        end
      else k [] s
  | [] => k [] s
  end.

(** [cls+]: at least one character, the longest match first. *)
Definition greedy_plus (cls : N -> bool) (s : text)
    (k : text -> text -> option R) : option R :=
  match s with
  | c :: s' =>
      if cls c then greedy_star cls s' (fun m rest => k (c :: m) rest)
      else None
  | [] => None
  end.
End Quantifiers.

(** [$] without MULTILINE: the end of the subject, or just before a line
    feed that ends it. *)
Definition at_end (s : text) : bool :=
  match s with
  | [] => true
  | [c] => (c =? 10)%N
  | _ => false
  end.

(** The search of [parse]: the pattern is anchored at both ends and has
    three groups, a lazy run of [.], a greedy non-empty run of [\d] and a
    greedy run of [[^0-9]].  Without MULTILINE the start anchor holds at
    offset 0 only, so the search has a single starting offset. *)
Definition re_search_pattern (url : text) : option (text * text * text) :=
  lazy_star dot url (fun g1 r1 =>
    greedy_plus is_decimal r1 (fun g2 r2 =>
      greedy_star non_digit r2 (fun g3 r3 =>
        if at_end r3 then Some (g1, g2, g3) else None))).

(* ------------------------------------------------------------------ *)
(** ** [parse]: the pattern extractor                                  *)
(* ------------------------------------------------------------------ *)

Record URLPattern := mkPattern {
  prefix    : text;
  num_width : Z;
  base_num  : Z;
  next_num  : Z;
  base_url  : text;
  suffix    : text
}.

Inductive ParseResult :=
| ParseOk (p : URLPattern)           (* 200, the JSON object *)
| ParseError (msg : string)          (* 400, {"error": msg} *)
| ParseRaised.                       (* an uncaught ValueError: 500 *)

(** [jsonify] writes the integers of the object as [str] does, and
    raises when one of them has more than 4300 digits. *)
Definition jsonify (p : URLPattern) : ParseResult :=
  if fits (num_width p) && fits (base_num p) && fits (next_num p)
  then ParseOk p else ParseRaised.

Definition parse (raw : text) : ParseResult :=
  let url := strip_text raw in
  match url with
  | [] => ParseError "No URL provided"
  | _ =>
      match re_search_pattern url with
      | None => ParseError "No numeric sequence found in the URL"
      | Some (g1, num_str, g3) =>
          match int num_str with
          | IntValue n =>
              jsonify {| prefix    := g1;
                         num_width := Z.of_nat (List.length num_str);
                         base_num  := n;
                         next_num  := n + 1;
                         base_url  := [];
                         suffix    := g3 |}
          | _ => ParseRaised
          end
      end
  end.

(** The URL rebuilt from a pattern: [prefix + zeroPad(baseNum, numWidth) + suffix]. *)
Definition rebuild (p : URLPattern) : text :=
  (prefix p ++ text_of (zfill (decimal (base_num p)) (num_width p)) ++ suffix p)%list.

(** The last contiguous run of ASCII decimal digits of a text, read off
    the text itself (independently of the regular expression): the text
    before the run, the run, and the text after it. *)
Fixpoint last_digit_run (u : text) : option (text * text * text) :=
  match u with
  | [] => None
  | c :: u' =>
      match last_digit_run u' with
      | Some ([], d, s) =>
          if ascii_digit c then Some ([], c :: d, s)
          else Some ([c], d, s)
      | Some (p, d, s) => Some (c :: p, d, s)
      | None => if ascii_digit c then Some ([], [c], u') else None
      end
  end.

(** [p] is empty or ends in a character that is not an ASCII digit. *)
Fixpoint no_trailing_digit (p : text) : bool :=
  match p with
  | [] => true
  | [c] => non_digit c
  | _ :: p' => no_trailing_digit p'
  end.

(** Every decimal digit of the text is an ASCII digit. *)
Definition ascii_digits_only (u : text) : bool :=
  forallb (fun c => implb (is_decimal c) (ascii_digit c)) u.

(** A line feed occurs before the last digit run of [u]. *)
Definition line_feed_before_last_run (u : text) : bool :=
  match last_digit_run u with
  | Some (p, _, _) => existsb (N.eqb 10) p
  | None => false
  end.

(** The pattern that the specification assigns to a URL whose last digit
    run is [d], between [p] and [s]. *)
Definition pattern_of (p d s : text) : URLPattern :=
  {| prefix    := p;
     num_width := Z.of_nat (List.length d);
     base_num  := digits_value d;
     next_num  := digits_value d + 1;
     base_url  := [];
     suffix    := s |}.

(** The round trip of the specification at one URL: extraction succeeds,
    the pattern rebuilds the URL, and extracting again from the rebuilt
    URL gives the same pattern. *)
Definition round_trips (url : text) : Prop :=
  exists pat, parse url = ParseOk pat /\ rebuild pat = url
              /\ parse (rebuild pat) = ParseOk pat.

(** The continuation of the search after its first group, and after its
    second group: [re_search_pattern] is [lazy_star dot url after_prefix]. *)
Definition tail_k (g1 g2 : text) : text -> text -> option (text * text * text) :=
  fun g3 r3 => if at_end r3 then Some (g1, g2, g3) else None.

Definition after_prefix (g1 r1 : text) : option (text * text * text) :=
  greedy_plus is_decimal r1 (fun g2 r2 => greedy_star non_digit r2 (tail_k g1 g2)).

(** The string of a text of code points below U+0100. *)
Definition string_of_text (t : text) : string :=
  string_of_list_ascii (map ascii_of_N t).

(** The limits of the run that [parse] accepts: at most 4300 digits, and
    a successor of at most 4300 digits. *)
Definition run_fits (u : text) : bool :=
  match last_digit_run u with
  | Some (_, d, _) => (List.length d <=? MAX_STR_DIGITS)%nat && fits (digits_value d + 1)
  | None => true
  end.

(* ------------------------------------------------------------------ *)
(** ** Scan events, exceptions and the generator monad                 *)
(* ------------------------------------------------------------------ *)

(** The objects serialised by [_sse]; [_log(msg)] is [Log msg]. *)
Inductive ScanEvent :=
| Log (msg : string)
| Range (first last : string)
| Checking (url : string) (found : nat) (i : nat) (total : Z)
| Hit (url : string) (found : nat)
| Stopped (reason : string)
| Done (found : nat).

(** The exceptions told apart by the handlers of the source; all three
    are instances of [Exception]. *)
Inductive Exn :=
| ImportError (msg : string)
| PWTimeout (msg : string)
| OtherError (msg : string).

(** [str(e)] *)
Definition exn_msg (e : Exn) : string :=
  match e with ImportError m | PWTimeout m | OtherError m => m end.

(** One GET issued through [page.request]: the URL and the identity
    (user agent) it presents, which is that of the browser context. *)
Record Request := mkRequest { req_url : string; req_user_agent : string }.

(** What a scan holds besides its local variables. *)
Record Resources := mkResources {
  pw_running   : bool;          (* inside [with sync_playwright()] *)
  browser_open : bool;          (* launched and not closed *)
  context_user_agent : string;  (* [user_agent] of [browser.new_context] *)
  agent_cycle  : nat;           (* identities drawn from [agent_cycle] so far *)
  requests     : list Request   (* GETs issued, oldest first *)
}.

(** The browser session of a scan is active while its browser is open inside
    a running Playwright driver. *)
Definition session_active (r : Resources) : bool :=
  pw_running r && browser_open r.

Inductive Outcome (A : Type) :=
| Returned (a : A)
| Raised (e : Exn).
Arguments Returned {A} a.
Arguments Raised {A} e.

(** A piece of generator code: from the resources it starts with, the
    events it yields in order, the resources it leaves, and how it ends. *)
Definition Gen (A : Type) : Type :=
  Resources -> list ScanEvent * Resources * Outcome A.

Definition ret {A} (a : A) : Gen A := fun r => ([], r, Returned a).

Definition bind {A B} (m : Gen A) (f : A -> Gen B) : Gen B :=
  fun r =>
    match m r with
    | (e1, r1, Raised x) => (e1, r1, Raised x)
    | (e1, r1, Returned a) =>
        match f a r1 with
        | (e2, r2, o) => ((e1 ++ e2)%list, r2, o)
        end
    end.

Notation "x <- m ;; k" := (bind m (fun x => k))
  (at level 61, m at next level, right associativity).
Notation "m ;; k" := (bind m (fun _ => k))
  (at level 61, right associativity).

Definition yield (e : ScanEvent) : Gen unit := fun r => ([e], r, Returned tt).

Definition raise {A} (x : Exn) : Gen A := fun r => ([], r, Raised x).

(** [try: m  except Exception as e: h e] *)
Definition try_except {A} (m : Gen A) (h : Exn -> Gen A) : Gen A :=
  fun r =>
    match m r with
    | (e1, r1, Returned a) => (e1, r1, Returned a)
    | (e1, r1, Raised x) =>
        match h x r1 with
        | (e2, r2, o) => ((e1 ++ e2)%list, r2, o)
        end
    end.

Definition modify (f : Resources -> Resources) : Gen unit :=
  fun r => ([], f r, Returned tt).

(** [if c: yield _log(msg)] *)
Definition log_if (c : bool) (msg : string) : Gen unit :=
  if c then yield (Log msg) else ret tt.

(** An external call that either succeeds or raises. *)
Definition call (reply : option Exn) : Gen unit :=
  match reply with
  | None => ret tt
  | Some e => raise e
  end.

(** An expression that yields nothing and either has a value or raises. *)
Definition lift {A} (o : Outcome A) : Gen A := fun r => ([], r, o).

Definition events {A} (x : list ScanEvent * Resources * Outcome A) : list ScanEvent :=
  fst (fst x).
Definition final {A} (x : list ScanEvent * Resources * Outcome A) : Resources :=
  snd (fst x).
Definition outcome {A} (x : list ScanEvent * Resources * Outcome A) : Outcome A :=
  snd x.

(* ------------------------------------------------------------------ *)
(** ** Constants, request parameters and the outside world             *)
(* ------------------------------------------------------------------ *)

Definition USER_AGENTS : list string := [
  "Mozilla/5.0 (Windows NT 10.0; Win64; x64) AppleWebKit/537.36 (KHTML, like Gecko) Chrome/122.0.0.0 Safari/537.36";
  "Mozilla/5.0 (Windows NT 10.0; Win64; x64; rv:124.0) Gecko/20100101 Firefox/124.0";
  "Mozilla/5.0 (Macintosh; Intel Mac OS X 14_3) AppleWebKit/605.1.15 (KHTML, like Gecko) Version/17.3 Safari/605.1.15";
  "Mozilla/5.0 (Windows NT 10.0; Win64; x64) AppleWebKit/537.36 (KHTML, like Gecko) Chrome/120.0.0.0 Safari/537.36 Edg/120.0.0.0";
  "Mozilla/5.0 (X11; Linux x86_64) AppleWebKit/537.36 (KHTML, like Gecko) Chrome/121.0.0.0 Safari/537.36";
  "Mozilla/5.0 (iPhone; CPU iPhone OS 17_3 like Mac OS X) AppleWebKit/605.1.15 Mobile/15E148 Safari/604.1";
  "Mozilla/5.0 (Windows NT 10.0) AppleWebKit/537.36 Chrome/119.0.0.0 Safari/537.36 OPR/105.0.0.0";
  "Mozilla/5.0 (Macintosh; Intel Mac OS X 13_6) AppleWebKit/537.36 Chrome/118.0.0.0 Safari/537.36"
].

Definition HTML_CTYPES : list string :=
  ["text/html"; "text/plain"; "text/xml"; "application/xhtml+xml"].

(** [x in xs] for a tuple or list of strings. *)
Definition in_strings (x : string) (xs : list string) : bool :=
  existsb (String.eqb x) xs.

(** [d.get(key)] on a dict of strings, [None] when the key is absent. *)
Fixpoint dict_get (d : list (string * string)) (key : string) : option string :=
  match d with
  | [] => None
  | (k, v) :: d' => if String.eqb k key then Some v else dict_get d' key
  end.

(** The query parameters of [/scan], after their conversions.  The two
    delay bounds are floating-point numbers used only in the argument
    of [time.sleep]; that call is answered by the world.  Each integer is
    the value of an [int(...)] conversion of the handler, so its numeral
    has at most 4300 digits and formatting it never raises. *)
Record ScanConfig := mkConfig {
  scan_base_url  : string;       (* base_url *)
  scan_prefix    : string;       (* prefix *)
  scan_num_width : Z;            (* num_width *)
  scan_base_num  : Z;            (* base_num *)
  start_num      : Z;
  max_n          : Z;
  max_mis        : Z;
  click_mode     : bool;
  auto_download  : bool;
  exts_arg       : list string;  (* request.args.getlist("exts") *)
  cookie_arg     : string        (* request.args.get("cookie", "") *)
}.

(** [exts], replaced by [[""]] when empty. *)
Definition exts (cfg : ScanConfig) : list string :=
  match exts_arg cfg with
  | [] => [EmptyString]
  | l => l
  end.

Definition cookie_str (cfg : ScanConfig) : string := strip (cookie_arg cfg).

(** The reply to [page.request.get]. *)
Inductive FetchReply :=
| Response (status : Z) (headers : list (string * string))
| FetchFailed (e : Exn).

(** What one selector of click mode meets on the page. *)
Inductive SelectorReply :=
| NotVisible                    (* no such element, or not visible *)
| QueryFailed (e : Exn)         (* [query_selector] or [is_visible] raised *)
| ClickFailed (e : Exn)         (* the click, the download or its saving raised *)
| Activated (suggested_filename : string).

(** The reply to the navigation of click mode. *)
Inductive ClickReply :=
| GotoFailed (e : Exn)
| PageLoaded (buttons : string -> SelectorReply).

(** The run of the age-gate block, lines 189 to 281: every event it
    yields is a log and every exception raised in it is handled at its
    end, so its run is the messages logged inside the [try] body and the
    exception, if any, that ended that body. *)
Record GateRun := mkGateRun {
  gate_messages : list string;
  gate_raised   : option Exn
}.

(** The answers of everything outside the generator.  Probes are named by
    the index [i] of the identifier and the position [j] of the extension
    in the list scanned. *)
Record World := mkWorld {
  BROWSER_DIR          : string;
  playwright_installed : bool;                  (* the import succeeds *)
  first_launch         : option Exn;            (* [pw.chromium.launch] *)
  install              : option Exn;            (* [subprocess.run(..., check=True)] *)
  second_launch        : option Exn;            (* the launch after the install *)
  new_page             : option Exn;            (* [new_context], [new_page], [add_init_script] *)
  gate                 : GateRun;
  fetch                : nat -> nat -> FetchReply;
  save_body            : nat -> nat -> option Exn;   (* [resp.body()], [open], [write] *)
  click                : nat -> ClickReply;
  sleep                : nat -> nat -> option Exn;   (* [time.sleep(random.uniform(...))] *)
  close                : option Exn;            (* [browser.close()] *)
  urlparse             : string -> option Exn   (* [urlparse(url)] raises [ValueError] *)
}.

(* ------------------------------------------------------------------ *)
(** ** The scan generator                                              *)
(* ------------------------------------------------------------------ *)

(** [str(n)] where it may raise. *)
Definition py_str (n : Z) : Outcome string :=
  match str n with
  | Some s => Returned s
  | None => Raised (OtherError STR_ERROR)
  end.

(** [s.zfill(width)] converts its argument to a C [ssize_t] of 64 bits. *)
Definition fits_ssize (width : Z) : bool :=
  (- 2 ^ 63 <=? width) && (width <? 2 ^ 63).

Definition SSIZE_ERROR : string := "Python int too large to convert to C ssize_t".

(** [s.replace(a, b)] for one-character [a] and [b]. *)
Fixpoint replace_char (a b : ascii) (s : string) : string :=
  match s with
  | EmptyString => EmptyString
  | String c s' => String (if Ascii.eqb c a then b else c) (replace_char a b s')
  end.

Definition set_pw_running (b : bool) (r : Resources) : Resources :=
  mkResources b (browser_open r) (context_user_agent r) (agent_cycle r) (requests r).

Definition set_browser_open (b : bool) (r : Resources) : Resources :=
  mkResources (pw_running r) b (context_user_agent r) (agent_cycle r) (requests r).

Definition set_context_user_agent (ua : string) (r : Resources) : Resources :=
  mkResources (pw_running r) (browser_open r) ua (agent_cycle r) (requests r).

Definition add_request (url : string) (r : Resources) : Resources :=
  mkResources (pw_running r) (browser_open r) (context_user_agent r) (agent_cycle r)
    (requests r ++ [mkRequest url (context_user_agent r)])%list.

(** Leaving [with sync_playwright() as pw] stops the Playwright driver,
    and the browsers it launched end with it. *)
Definition stop_driver (r : Resources) : Resources :=
  set_browser_open false (set_pw_running false r).

(** [with sync_playwright() as pw: body]: the exit runs when the body
    returns and when it raises. *)
Definition with_sync_playwright {A} (body : Gen A) : Gen A :=
  fun r =>
    match body (set_pw_running true r) with
    | (e, r', o) => (e, stop_driver r', o)
    end.

(** Lines 145 to 177: the launch, and the managed install when the
    browser binary is missing. *)
Definition launch_browser (w : World) : Gen unit :=
  match first_launch w with
  | None => modify (set_browser_open true)
  | Some e =>
      let err_msg := lower (exn_msg e) in
      if contains "executable doesn't exist" err_msg
         || contains "playwright install" err_msg
         || contains "not found" err_msg
      then
        yield (Log ("🌐 Chromium missing at " ++ BROWSER_DIR w ++ ". Attempting install...")) ;;
        try_except
          (call (install w) ;;
           yield (Log "✔ Chromium installed. Launching...") ;;
           call (second_launch w) ;;
           modify (set_browser_open true))
          (fun install_err =>
             yield (Log ("⚠ Browser auto-install failed: " ++ exn_msg install_err)) ;;
             raise install_err)
      else raise e
  end.

(** Lines 179 to 181. *)
Definition open_page (w : World) : Gen unit :=
  call (new_page w) ;;
  modify (set_context_user_agent (hd EmptyString USER_AGENTS)).

Fixpoint yield_logs (msgs : list string) : Gen unit :=
  match msgs with
  | [] => ret tt
  | m :: msgs' => yield (Log m) ;; yield_logs msgs'
  end.

(** Lines 184 to 284. *)
Definition gate_check (cfg : ScanConfig) (w : World) : Gen unit :=
  if String.eqb (cookie_str cfg) EmptyString && negb (click_mode cfg) then
    yield (Log "🌐 Opening browser to handle age gate…") ;;
    yield_logs (gate_messages (gate w)) ;;
    match gate_raised (gate w) with
    | None => ret tt
    | Some (PWTimeout _) => yield (Log "⚠ Age gate check timed out—skipping.")
    | Some e => yield (Log ("⚠ Browser error during gate check: " ++ exn_msg e))
    end
  else
    log_if (click_mode cfg) "✔ Click Mode active: Skipping separate age gate check.".

(** The text of [str(n).zfill(num_width)]. *)
Definition padded (n width : Z) : string := zfill (decimal n) width.

(** [str(n).zfill(num_width)] *)
Definition zero_pad (n width : Z) : Outcome string :=
  match str n with
  | None => Raised (OtherError STR_ERROR)
  | Some s =>
      if fits_ssize width then Returned (zfill s width)
      else Raised (OtherError SSIZE_ERROR)
  end.

(** [headers.get("content-type", "").lower().split(";")[0].strip()] *)
Definition content_type_of (headers : list (string * string)) : string :=
  let raw := match dict_get headers "content-type" with
             | Some v => v
             | None => EmptyString
             end in
  strip (hd EmptyString (split_char ";" (lower raw))).

(** [f"{cl}"] for an optional string. *)
Definition show_optional (cl : option string) : string :=
  match cl with
  | Some v => v
  | None => "None"
  end.

(** The branches of lines 393 to 413. *)
Inductive Verdict :=
| IsHit          (* the [else] of line 398 *)
| SkipHtml       (* line 394 *)
| SkipSmall      (* line 396 *)
| LengthError    (* [int(cl)] raised *)
| Blocked        (* 403 *)
| RateLimited    (* 429 *)
| OtherStatus.

Definition classify (status : Z) (ct : string) (cl : option string) : Verdict :=
  if (status =? 200) || (status =? 206) then
    if in_strings ct HTML_CTYPES then SkipHtml
    else
      match cl with
      | None => IsHit
      | Some v =>
          match py_int v with
          | None => LengthError
          | Some n => if n <? 10000 then SkipSmall else IsHit
          end
      end
  else if status =? 403 then Blocked
  else if status =? 429 then RateLimited
  else OtherStatus.

(** Lines 400 and 401: the file name of a saved body. *)
Definition save_name (cfg : ScanConfig) (num_str_pad ext : string) : string :=
  let fname := replace_char "/" "_"
                 (replace_char ":" "_" (scan_prefix cfg ++ num_str_pad ++ ext)) in
  if contains "." fname then fname else fname ++ ".bin".

(** Lines 384 to 413: the body of the [try] in API mode.  It returns the
    new values of [found] and [hit_this]. *)
Definition direct_fetch (cfg : ScanConfig) (w : World) (i j : nat)
    (num_str_pad ext url : string) (found : nat) (hit_this : bool) : Gen (nat * bool) :=
  modify (add_request url) ;;
  match fetch w i j with
  | FetchFailed e => raise e
  | Response status headers =>
      let ct := content_type_of headers in
      let cl := dict_get headers "content-length" in
      (if (i <? 3)%nat then
         status_text <- lift (py_str status) ;;
         yield (Log ("🔬 " ++ num_str_pad ++ ext ++ " -> Status " ++ status_text
                     ++ " | Type '" ++ ct ++ "' | Size " ++ show_optional cl))
       else ret tt) ;;
      match classify status ct cl with
      | SkipHtml =>
          log_if (i <? 3)%nat "   ↳ Skipped: HTML content (Gate re-triggered?)" ;;
          ret (found, hit_this)
      | SkipSmall =>
          log_if (i <? 3)%nat
            ("   ↳ Skipped: File too small (" ++ show_optional cl ++ " bytes)") ;;
          ret (found, hit_this)
      | LengthError =>
          raise (OtherError (match cl with
                             | Some v => int_error v
                             | None => EmptyString
                             end))
      | IsHit =>
          (if auto_download cfg then
             call (save_body w i j) ;;
             yield (Log ("💾 File saved: " ++ save_name cfg num_str_pad ext))
           else ret tt) ;;
          yield (Hit url (S found)) ;;
          ret (S found, true)
      | Blocked =>
          yield (Log ("⛔ Blocked (403) on " ++ num_str_pad ++ ext ++ ".")) ;;
          ret (found, hit_this)
      | RateLimited =>
          yield (Log "⏳ Rate limited (429).") ;;
          ret (found, hit_this)
      | OtherStatus => ret (found, hit_this)
      end
  end.

Definition CLICK_SELECTORS : list string := [
  "button:has-text(" ++ QUOTE ++ "Download all files" ++ QUOTE ++ ")";
  "a:has-text(" ++ QUOTE ++ "Download all files" ++ QUOTE ++ ")";
  "button[class*=" ++ QUOTE ++ "DownloadAll" ++ QUOTE ++ "]";
  "div[class*=" ++ QUOTE ++ "DownloadAll" ++ QUOTE ++ "] button";
  "[data-testid=" ++ QUOTE ++ "download-all-files" ++ QUOTE ++ "]";
  "button:has-text(" ++ QUOTE ++ "Download" ++ QUOTE ++ ")";
  "a:has-text(" ++ QUOTE ++ "Download" ++ QUOTE ++ ")";
  "button[aria-label*=" ++ QUOTE ++ "Download" ++ QUOTE ++ " i]";
  "a[aria-label*=" ++ QUOTE ++ "Download" ++ QUOTE ++ " i]"
].

(** Lines 351 to 373: the selectors in order; the result is [found_btn]. *)
Fixpoint try_selectors (cfg : ScanConfig) (i : nat)
    (buttons : string -> SelectorReply) (selectors : list string) : Gen bool :=
  match selectors with
  | [] => ret false
  | sel :: selectors' =>
      match buttons sel with
      | NotVisible => try_selectors cfg i buttons selectors'
      | QueryFailed e =>
          log_if (i <? 3)%nat ("   ↳ Skip selector " ++ sel ++ ": " ++ exn_msg e) ;;
          try_selectors cfg i buttons selectors'
      | ClickFailed e =>
          log_if (i <? 3)%nat ("🖱 Clicking button: " ++ sel) ;;
          log_if (i <? 3)%nat ("   ↳ Skip selector " ++ sel ++ ": " ++ exn_msg e) ;;
          try_selectors cfg i buttons selectors'
      | Activated suggested_filename =>
          log_if (i <? 3)%nat ("🖱 Clicking button: " ++ sel) ;;
          log_if (auto_download cfg) ("💾 File saved: " ++ suggested_filename) ;;
          ret true
      end
  end.

(** Lines 324 to 380: the body of the [try] in click mode. *)
Definition click_probe (cfg : ScanConfig) (w : World) (i : nat)
    (url : string) (found : nat) (hit_this : bool) : Gen (nat * bool) :=
  match click w i with
  | GotoFailed e => raise e
  | PageLoaded buttons =>
      found_btn <- try_selectors cfg i buttons CLICK_SELECTORS ;;
      if found_btn : bool then
        yield (Hit url (S found)) ;;
        ret (S found, true)
      else
        log_if (i <? 3)%nat
          ("   ↳ Skipped: No download button found on '" ++ url ++ "'") ;;
        ret (found, hit_this)
  end.

(** The [try] statement of one probe: lines 323 to 416. *)
Definition probe_attempt (cfg : ScanConfig) (w : World) (i j : nat)
    (num_str_pad ext url : string) (found : nat) (hit_this : bool) : Gen (nat * bool) :=
  try_except
    (if click_mode cfg then click_probe cfg w i url found hit_this
     else direct_fetch cfg w i j num_str_pad ext url found hit_this)
    (fun e =>
       log_if (i <? 3)%nat ("   ↳ Request failure: " ++ exn_msg e) ;;
       ret (found, hit_this)).

(** Lines 307 to 418: one round of the loop over the extensions. *)
Definition probe (cfg : ScanConfig) (w : World) (i j : nat)
    (num_str_pad ext : string) (found : nat) (hit_this : bool) : Gen (nat * bool) :=
  let url := if click_mode cfg then scan_prefix cfg ++ num_str_pad
             else scan_base_url cfg ++ scan_prefix cfg ++ num_str_pad ++ ext in
  yield (Checking url found i (max_n cfg)) ;;
  res <- probe_attempt cfg w i j num_str_pad ext url found hit_this ;;
  call (sleep w i j) ;;
  ret res.

(** Line 306: [for ext in ext_list_to_scan]. *)
Fixpoint scan_exts (cfg : ScanConfig) (w : World) (i : nat) (num_str_pad : string)
    (j : nat) (ext_list : list string) (found : nat) (hit_this : bool)
    : Gen (nat * bool) :=
  match ext_list with
  | [] => ret (found, hit_this)
  | ext :: ext_list' =>
      res <- probe cfg w i j num_str_pad ext found hit_this ;;
      scan_exts cfg w i num_str_pad (S j) ext_list' (fst res) (snd res)
  end.

(** Lines 420 to 426: the new value of [consecutive], and whether the
    loop stops. *)
Definition after_candidate (max_mis : Z) (hit_this : bool) (consecutive : nat)
    : nat * bool :=
  if hit_this then (0%nat, false)
  else
    let consecutive := S consecutive in
    if max_mis <=? Z.of_nat consecutive then (consecutive, true)
    else (consecutive, false).

Definition stop_reason (max_mis : Z) : string := decimal max_mis ++ " consecutive misses".

(** Line 304: in click mode the page is visited once per identifier. *)
Definition ext_list_to_scan (cfg : ScanConfig) : list string :=
  if click_mode cfg then [EmptyString] else exts cfg.

(** Lines 298 to 426: [for i in range(max_n)], with [remaining] rounds to
    go from index [i].  It returns the final value of [found]. *)
Fixpoint scan_loop (cfg : ScanConfig) (w : World) (remaining i found consecutive : nat)
    : Gen nat :=
  match remaining with
  | O => ret found
  | S remaining' =>
      let cur_num := start_num cfg + Z.of_nat i in
      num_str_pad <- lift (zero_pad cur_num (scan_num_width cfg)) ;;
      res <- scan_exts cfg w i num_str_pad 0 (ext_list_to_scan cfg) found false ;;
      match after_candidate (max_mis cfg) (snd res) consecutive with
      | (_, true) =>
          yield (Stopped (stop_reason (max_mis cfg))) ;;
          ret (fst res)
      | (consecutive', false) =>
          scan_loop cfg w remaining' (S i) (fst res) consecutive'
      end
  end.

(** The object of line 291, from its two identifiers. *)
Definition range_event (cfg : ScanConfig) (first_pad last_pad : string) : ScanEvent :=
  Range
    (scan_base_url cfg ++ scan_prefix cfg ++ first_pad ++ hd EmptyString (exts cfg))
    (scan_base_url cfg ++ scan_prefix cfg ++ last_pad ++ last (exts cfg) EmptyString).

(** Lines 287 to 291. *)
Definition range_preview (cfg : ScanConfig) : Outcome ScanEvent :=
  match zero_pad (start_num cfg) (scan_num_width cfg) with
  | Raised e => Raised e
  | Returned first_pad =>
      match zero_pad (start_num cfg + max_n cfg - 1) (scan_num_width cfg) with
      | Raised e => Raised e
      | Returned last_pad => Returned (range_event cfg first_pad last_pad)
      end
  end.

(** Line 428. *)
Definition browser_close (w : World) : Gen unit :=
  call (close w) ;;
  modify (set_browser_open false).

(** Lines 183 to 430: what runs once the page is open. *)
Definition scan_session (cfg : ScanConfig) (w : World) : Gen unit :=
  gate_check cfg w ;;
  preview <- lift (range_preview cfg) ;;
  yield preview ;;
  yield (Log ("🚀 Starting scan of " ++ decimal (max_n cfg)
              ++ " batches (using Browser Network Context)")) ;;
  found <- scan_loop cfg w (Z.to_nat (max_n cfg)) 0 0 0 ;;
  browser_close w ;;
  yield (Log ("✔ Scan complete. " ++ str_nat found
              ++ " URLs validated. Browser closed.")) ;;
  yield (Done found).

(** Lines 142 to 430. *)
Definition run_playwright_logic (cfg : ScanConfig) (w : World) : Gen unit :=
  if playwright_installed w then
    with_sync_playwright
      (launch_browser w ;;
       open_page w ;;
       scan_session cfg w)
  else raise (ImportError "No module named 'playwright'").

(** Lines 130 to 139: the number of cookies injected. *)
Definition cookie_count (cookie_str : string) : nat :=
  List.length
    (filter (fun pair => contains "=" (strip pair)) (split_char ";" cookie_str)).

(** Lines 117 to 437.  The generator starts with a fresh [agent_cycle]
    and no browser. *)
Definition generate (cfg : ScanConfig) (w : World) : Gen unit :=
  (if String.eqb (cookie_str cfg) EmptyString then ret tt
   else
     call (urlparse w (scan_base_url cfg)) ;;
     yield (Log ("✔ " ++ str_nat (cookie_count (cookie_str cfg))
                 ++ " browser cookie(s) injected."))) ;;
  try_except (run_playwright_logic cfg w)
    (fun ex =>
       match ex with
       | ImportError _ =>
           yield (Log "⚠ Playwright not installed — scanning without gate bypass.")
       | _ =>
           yield (Log ("⚠ Browser error: " ++ exn_msg ex ++ " — continuing anyway."))
       end).

Definition initial : Resources :=
  mkResources false false EmptyString 0 [].

(** The whole stream of one [/scan] request. *)
Definition scan (cfg : ScanConfig) (w : World)
    : list ScanEvent * Resources * Outcome unit :=
  generate cfg w initial.

(* ------------------------------------------------------------------ *)
(** ** Vocabulary of the statements                                    *)
(* ------------------------------------------------------------------ *)

Definition is_log (e : ScanEvent) : bool :=
  match e with Log _ => true | _ => false end.

Definition is_hit (e : ScanEvent) : bool :=
  match e with Hit _ _ => true | _ => false end.

Definition is_checking (e : ScanEvent) : bool :=
  match e with Checking _ _ _ _ => true | _ => false end.

Definition is_stopped (e : ScanEvent) : bool :=
  match e with Stopped _ => true | _ => false end.

Definition is_done (e : ScanEvent) : bool :=
  match e with Done _ => true | _ => false end.

(** The terminal events of the protocol. *)
Definition is_terminal (e : ScanEvent) : bool := is_stopped e || is_done e.

Definition count (p : ScanEvent -> bool) (evs : list ScanEvent) : nat :=
  List.length (filter p evs).

(** The events of a stream that are not diagnostics. *)
Definition visible (evs : list ScanEvent) : list ScanEvent :=
  filter (fun e => negb (is_log e)) evs.

(** The URL probed for an identifier and an extension (lines 308 to 313). *)
Definition probe_url (cfg : ScanConfig) (num_str_pad ext : string) : string :=
  if click_mode cfg then scan_prefix cfg ++ num_str_pad
  else scan_base_url cfg ++ scan_prefix cfg ++ num_str_pad ++ ext.

Definition is_activated (s : SelectorReply) : bool :=
  match s with Activated _ => true | _ => false end.

(** Whether the probe of identifier [i] at extension [j] is a hit: in
    click mode some download button is activated; in direct mode the
    response is classified as a hit and, when bodies are saved, saving
    succeeds. *)
Definition probe_hits (cfg : ScanConfig) (w : World) (i j : nat) : bool :=
  if click_mode cfg then
    match click w i with
    | GotoFailed _ => false
    | PageLoaded buttons => existsb (fun sel => is_activated (buttons sel)) CLICK_SELECTORS
    end
  else
    match fetch w i j with
    | FetchFailed _ => false
    | Response status headers =>
        match classify status (content_type_of headers)
                (dict_get headers "content-length") with
        | IsHit =>
            if auto_download cfg then
              match save_body w i j with None => true | Some _ => false end
            else true
        | _ => false
        end
    end.

(** The events other than logs of the loop over the extensions, and how
    the loop ends, from which probes hit and which sleeps raise. *)
Fixpoint exts_outline (cfg : ScanConfig) (hits : nat -> bool) (naps : nat -> option Exn)
    (i : nat) (num_str_pad : string) (j : nat) (ext_list : list string)
    (found : nat) (hit_this : bool) : list ScanEvent * Outcome (nat * bool) :=
  match ext_list with
  | [] => ([], Returned (found, hit_this))
  | ext :: ext_list' =>
      let url := probe_url cfg num_str_pad ext in
      let evs := if hits j
                 then [Checking url found i (max_n cfg); Hit url (S found)]
                 else [Checking url found i (max_n cfg)] in
      match naps j with
      | Some e => (evs, Raised e)
      | None =>
          let rest := exts_outline cfg hits naps i num_str_pad (S j) ext_list'
                        (if hits j then S found else found) (hit_this || hits j) in
          ((evs ++ fst rest)%list, snd rest)
      end
  end.

(** The same for the loop over the identifiers. *)
Fixpoint loop_outline (cfg : ScanConfig) (hits : nat -> nat -> bool)
    (naps : nat -> nat -> option Exn) (remaining i found consecutive : nat)
    : list ScanEvent * Outcome nat :=
  match remaining with
  | O => ([], Returned found)
  | S remaining' =>
      match zero_pad (start_num cfg + Z.of_nat i) (scan_num_width cfg) with
      | Raised e => ([], Raised e)
      | Returned num_str_pad =>
          match exts_outline cfg (hits i) (naps i) i num_str_pad 0 (ext_list_to_scan cfg)
                  found false with
          | (evs, Raised e) => (evs, Raised e)
          | (evs, Returned (found', hit_this)) =>
              match after_candidate (max_mis cfg) hit_this consecutive with
              | (_, true) =>
                  ((evs ++ [Stopped (stop_reason (max_mis cfg))])%list, Returned found')
              | (consecutive', false) =>
                  let rest :=
                    loop_outline cfg hits naps remaining' (S i) found' consecutive' in
                  ((evs ++ fst rest)%list, snd rest)
              end
          end
      end
  end.

(** Resources that differ only by the state of the browser and by GETs
    issued with the identity of the browser context. *)
Definition same_identity (r r' : Resources) : Prop :=
  context_user_agent r' = context_user_agent r
  /\ agent_cycle r' = agent_cycle r
  /\ exists extra,
       requests r' = (requests r ++ extra)%list
       /\ Forall (fun q => req_user_agent q = context_user_agent r) extra.

(** A step that changes the browser or the context but neither issues a
    GET nor draws from [agent_cycle]. *)
Definition same_requests (r r' : Resources) : Prop :=
  agent_cycle r' = agent_cycle r /\ requests r' = requests r.

(** The identity that the k-th probe would present under a round robin
    over the pool. *)
Definition round_robin_identity (k : nat) : string :=
  nth (k mod List.length USER_AGENTS) USER_AGENTS EmptyString.



(** The guard of line 158 on the message of a failed launch. *)
Definition missing_browser (e : Exn) : bool :=
  let err_msg := lower (exn_msg e) in
  contains "executable doesn't exist" err_msg
  || contains "playwright install" err_msg
  || contains "not found" err_msg.

Definition succeeded (reply : option Exn) : bool :=
  match reply with None => true | Some _ => false end.

(** The browser is launched, at once or after the managed install. *)
Definition launch_succeeds (w : World) : bool :=
  match first_launch w with
  | None => true
  | Some e => missing_browser e && succeeded (install w) && succeeded (second_launch w)
  end.

(** The scan gets as far as an open page: lines 143 to 181 raise nothing. *)
Definition browser_ready (w : World) : bool :=
  playwright_installed w && launch_succeeds w && succeeded (new_page w).

(** The generator reaches its [try] statement: no cookie is given, or
    [urlparse] accepts the base URL (lines 130 and 131). *)
Definition starts (cfg : ScanConfig) (w : World) : bool :=
  String.eqb (cookie_str cfg) EmptyString || succeeded (urlparse w (scan_base_url cfg)).



(** The events other than logs of lines 183 to 430, and how they end. *)
Definition session_outline (cfg : ScanConfig) (w : World)
    : list ScanEvent * Outcome unit :=
  match range_preview cfg with
  | Raised e => ([], Raised e)
  | Returned preview =>
      let o := loop_outline cfg (probe_hits cfg w) (sleep w) (Z.to_nat (max_n cfg)) 0 0 0 in
      match snd o with
      | Raised e => (preview :: fst o, Raised e)
      | Returned found =>
          match close w with
          | Some e => (preview :: fst o, Raised e)
          | None => ((preview :: fst o ++ [Done found])%list, Returned tt)
          end
      end
  end.

(** The hit counter carried by the events of a stream that starts after
    [k] hits: a hit event carries the number of hits up to and including
    itself, a checking event the number of hits before it, and a done
    event the number of hits before it, with no hit after it. *)
Fixpoint counted (k : nat) (evs : list ScanEvent) : Prop :=
  match evs with
  | [] => True
  | Hit _ f :: t => f = S k /\ counted (S k) t
  | Checking _ f _ _ :: t => f = k /\ counted k t
  | Done f :: t => f = k /\ count is_hit t = 0%nat /\ counted k t
  | _ :: t => counted k t
  end.

(* ------------------------------------------------------------------ *)
(** ** Sample requests and worlds                                      *)
(* ------------------------------------------------------------------ *)

(** A direct-fetch request for one extension, without cookie. *)
Definition sample_config (max_n max_mis : Z) : ScanConfig :=
  mkConfig "https://a.example/" "clip" 5 42 42 max_n max_mis false false [".mp4"] "".

(** A world in which nothing fails and the identifiers chosen by [hits]
    answer with a large video, the others with a 404. *)
Definition sample_world (hits : nat -> bool) : World :=
  mkWorld "/opt/app/browsers" true None None None None (mkGateRun [] None)
    (fun i _ =>
       if hits i
       then Response 200 [("content-type", "video/mp4"); ("content-length", "10000")]
       else Response 404 [])
    (fun _ _ => None)
    (fun _ => GotoFailed (OtherError "net::ERR_ABORTED"))
    (fun _ _ => None)
    None
    (fun _ => None).


(** A world whose browser binary is missing and cannot be installed. *)
Definition missing_binary_world : World :=
  mkWorld "/opt/app/browsers" true
    (Some (OtherError "Executable doesn't exist at /opt/app/browsers/chromium"))
    (Some (OtherError "Command returned non-zero exit status 1"))
    None None (mkGateRun [] None)
    (fun _ _ => Response 404 [])
    (fun _ _ => None)
    (fun _ => GotoFailed (OtherError "net::ERR_ABORTED"))
    (fun _ _ => None)
    None
    (fun _ => None).

(** A world without the automation engine. *)
Definition missing_engine_world : World :=
  mkWorld "/opt/app/browsers" false None None None None (mkGateRun [] None)
    (fun _ _ => Response 404 [])
    (fun _ _ => None)
    (fun _ => GotoFailed (OtherError "net::ERR_ABORTED"))
    (fun _ _ => None)
    None
    (fun _ => None).

(** The URL probed for identifier [i] and extension [ext], when the
    identifier has a text. *)
Definition candidate_url (cfg : ScanConfig) (i : nat) (ext : string) : string :=
  probe_url cfg (padded (start_num cfg + Z.of_nat i) (scan_num_width cfg)) ext.


(** The stream ends with the event [Done f]. *)
Definition ends_with_done (f : nat) (evs : list ScanEvent) : Prop :=
  exists front, evs = (front ++ [Done f])%list.

(* ------------------------------------------------------------------ *)
(** ** Vocabulary of the further properties                            *)
(* ------------------------------------------------------------------ *)

(** Each hit event comes right after the checking event of the same URL,
    and carries its counter plus one.  [prev] is the URL and the counter
    of the checking event that is the previous event, if any. *)
Fixpoint hits_follow_checks (prev : option (string * nat)) (evs : list ScanEvent) : Prop :=
  match evs with
  | [] => True
  | Checking url f _ _ :: t => hits_follow_checks (Some (url, f)) t
  | Hit url f :: t =>
      match prev with
      | Some (url0, f0) => url = url0 /\ f = S f0
      | None => False
      end /\ hits_follow_checks None t
  | _ :: t => hits_follow_checks None t
  end.

(** The world whose browser is launched at the first attempt. *)
Definition launched_at_once (w : World) : World :=
  mkWorld (BROWSER_DIR w) (playwright_installed w) None (install w)
    (second_launch w) (new_page w) (gate w) (fetch w) (save_body w)
    (click w) (sleep w) (close w) (urlparse w).

(** What a checking event announces: at most [max_n] identifiers, with
    the total it was given. *)
Definition checking_in_range (cfg : ScanConfig) (e : ScanEvent) : Prop :=
  match e with
  | Checking _ _ i total => (i < Z.to_nat (max_n cfg))%nat /\ total = max_n cfg
  | _ => True
  end.

(** The URLs announced by the checking events of a stream, in order. *)
Fixpoint checked_urls (evs : list ScanEvent) : list string :=
  match evs with
  | [] => []
  | Checking url _ _ _ :: t => url :: checked_urls t
  | _ :: t => checked_urls t
  end.

(** A piece of generator code issues, in direct-fetch mode, one GET for
    each URL it announces as checked, in the same order, and no other;
    in click mode it issues none. *)
Definition traces (cfg : ScanConfig) {A} (m : Gen A) : Prop :=
  forall r,
    map req_url (requests (final (m r)))
    = (map req_url (requests r)
       ++ if click_mode cfg then [] else checked_urls (events (m r)))%list.


(* ------------------------------------------------------------------ *)
(** ** Vocabulary of the stopping rule and of the classification       *)
(* ------------------------------------------------------------------ *)

(** Identifier [i] is a hit: the probe of one of its extensions hits. *)
Definition identifier_hits (cfg : ScanConfig) (w : World) (i : nat) : bool :=
  existsb (probe_hits cfg w i) (seq 0 (List.length (ext_list_to_scan cfg))).

(** The consecutive misses counted once identifier [i] is done: the
    length of the run of missed identifiers that ends at [i], which is 0
    when [i] is a hit. *)
Fixpoint miss_run (hit : nat -> bool) (i : nat) : nat :=
  if hit i then 0%nat
  else match i with
       | O => 1%nat
       | S i' => S (miss_run hit i')
       end.

(** Identifier [i] is missed and the count of consecutive misses has
    then reached maxMisses. *)
Definition stops_after (cfg : ScanConfig) (w : World) (i : nat) : bool :=
  negb (identifier_hits cfg w i)
  && (max_mis cfg <=? Z.of_nat (miss_run (identifier_hits cfg w) i)).

(** The first identifier of the range at which that happens, if any. *)
Definition early_stop (cfg : ScanConfig) (w : World) : option nat :=
  find (stops_after cfg w) (seq 0 (Z.to_nat (max_n cfg))).

(** The number of identifiers that the rule lets the scan probe. *)
Definition scanned (cfg : ScanConfig) (w : World) : nat :=
  match early_stop cfg w with
  | Some i => S i
  | None => Z.to_nat (max_n cfg)
  end.

(** The indices announced by the checking events of a stream, in order. *)
Fixpoint checked_indices (evs : list ScanEvent) : list nat :=
  match evs with
  | [] => []
  | Checking _ _ i _ :: t => i :: checked_indices t
  | _ :: t => checked_indices t
  end.

(** The text of a header value before its first semicolon. *)
Fixpoint before_semicolon (s : string) : string :=
  match s with
  | EmptyString => EmptyString
  | String c s' => if Ascii.eqb c ";" then EmptyString else String c (before_semicolon s')
  end.

(** A content-type header value is HTML-like when its media type, the
    text before the parameters, is one of the four of [HTML_CTYPES]
    whatever its letter case and the blanks around it. *)
Definition html_like (raw : string) : bool :=
  in_strings (strip (lower (before_semicolon raw))) HTML_CTYPES.

(** The response carries no HTML-like content type: it has no
    content-type header, or one that is not HTML-like. *)
Definition not_html (headers : list (string * string)) : Prop :=
  forall raw, In ("content-type", raw) headers -> html_like raw = false.

(** The headers of a response form a dict: no name occurs twice. *)
Definition is_dict (headers : list (string * string)) : Prop :=
  NoDup (map fst headers).



(** A world in which nothing fails and every request is answered with
    the same status and headers. *)
Definition answering (status : Z) (headers : list (string * string)) : World :=
  mkWorld "/opt/app/browsers" true None None None None (mkGateRun [] None)
    (fun _ _ => Response status headers)
    (fun _ _ => None)
    (fun _ => GotoFailed (OtherError "net::ERR_ABORTED"))
    (fun _ _ => None)
    None
    (fun _ => None).

(** The integer written by a numeral with an optional minus sign, leading
    zeros allowed. *)
Definition read_numeral (s : string) : option Z :=
  match s with
  | String c b =>
      if Ascii.eqb c "-"
      then option_map (fun u => - Z.of_uint u) (NilEmpty.uint_of_string b)
      else option_map Z.of_uint (NilEmpty.uint_of_string s)
  | EmptyString => None
  end.

(* ================================================================== *)
(** * Properties                                                       *)
(* ================================================================== *)

(* ------------------------------------------------------------------ *)
(** ** Strings                                                         *)
(* ------------------------------------------------------------------ *)

Lemma app_nil_r_str (s : string) : s ++ "" = s.
Proof. induction s as [|c s IH]; simpl; [reflexivity | now rewrite IH]. Qed.

Lemma app_assoc_str (a b c : string) : (a ++ b) ++ c = a ++ (b ++ c).
Proof. induction a as [|x a IH]; simpl; [reflexivity | now rewrite IH]. Qed.

Lemma length_app_str (a b : string) :
  String.length (a ++ b) = (String.length a + String.length b)%nat.
Proof. induction a as [|x a IH]; simpl; [reflexivity | now rewrite IH]. Qed.

Lemma forall_chars_app p a b :
  forall_chars p (a ++ b) = forall_chars p a && forall_chars p b.
Proof.
  induction a as [|x a IH]; simpl; [reflexivity|].
  now rewrite IH, andb_assoc.
Qed.

Lemma exists_char_app p a b :
  exists_char p (a ++ b) = exists_char p a || exists_char p b.
Proof.
  induction a as [|x a IH]; simpl; [reflexivity|].
  now rewrite IH, orb_assoc.
Qed.

Lemma rev_string_app a b : rev_string (a ++ b) = rev_string b ++ rev_string a.
Proof.
  induction a as [|x a IH]; simpl.
  - now rewrite app_nil_r_str.
  - now rewrite IH, app_assoc_str.
Qed.

Lemma rev_string_involutive s : rev_string (rev_string s) = s.
Proof.
  induction s as [|c s IH]; simpl; [reflexivity|].
  now rewrite rev_string_app, IH.
Qed.

Lemma forall_chars_impl (p q : ascii -> bool) s :
  (forall c, p c = true -> q c = true) ->
  forall_chars p s = true -> forall_chars q s = true.
Proof.
  intros I. induction s as [|c s IH]; simpl; [reflexivity|].
  intros H. apply andb_true_iff in H as [Hc H].
  now rewrite (I c Hc), (IH H).
Qed.

Lemma digit_cases (P : ascii -> Prop) :
  P "0"%char -> P "1"%char -> P "2"%char -> P "3"%char -> P "4"%char ->
  P "5"%char -> P "6"%char -> P "7"%char -> P "8"%char -> P "9"%char ->
  forall c, is_digit c = true -> P c.
Proof.
  intros H0 H1 H2 H3 H4 H5 H6 H7 H8 H9 c.
  destruct c as [[|] [|] [|] [|] [|] [|] [|] [|]];
    vm_compute; intros E; try discriminate E; assumption.
Qed.

Lemma digit_not_sign c :
  is_digit c = true -> Ascii.eqb c "+" || Ascii.eqb c "-" = false.
Proof. revert c. apply digit_cases; reflexivity. Qed.

(** *** Decimal numerals: [decimal] and [zfill] *)

Lemma uint_of_digit_string d :
  forall_chars is_digit d = true ->
  exists u, NilEmpty.uint_of_string d = Some u.
Proof.
  induction d as [|c d IH]; simpl; [now exists Decimal.Nil|].
  intros H. apply andb_true_iff in H as [Hc H].
  destruct (IH H) as [u ->]. revert c Hc.
  apply digit_cases; simpl; eauto.
Qed.

Lemma string_of_iter_D0 k u :
  NilEmpty.string_of_uint (Nat.iter k Decimal.D0 u)
  = zeros k ++ NilEmpty.string_of_uint u.
Proof. induction k as [|k IH]; simpl; [reflexivity | now rewrite IH]. Qed.

Lemma length_string_of_uint u :
  String.length (NilEmpty.string_of_uint u) = Decimal.nb_digits u.
Proof. induction u; simpl; congruence. Qed.

Lemma length_zeros k : String.length (zeros k) = k.
Proof. induction k; simpl; congruence. Qed.

Lemma string_of_uint_head u c s :
  NilEmpty.string_of_uint u = String c s -> is_digit c = true.
Proof. destruct u; simpl; intros E; inversion E; reflexivity. Qed.

(** Padding the numeral of the value of a digit run back to the width of
    the run gives the run itself: leading zeros are restored. *)
Lemma zfill_decimal_digits d u :
  NilEmpty.uint_of_string d = Some u -> d <> "" ->
  zfill (decimal (Z.of_uint u)) (Z.of_nat (String.length d)) = d.
Proof.
  intros E N.
  pose proof (NilEmpty.sus _ _ E) as Eu.
  assert (Hu : u <> Decimal.Nil) by (intros ->; simpl in Eu; congruence).
  unfold decimal. change (Z.of_uint u) with (Z.of_int (Decimal.Pos u)).
  rewrite DecimalZ.to_of. simpl.
  set (v := Decimal.unorm u).
  assert (Hv : v <> Decimal.Nil) by apply unorm_nonnil.
  assert (Sv : NilZero.string_of_uint v = NilEmpty.string_of_uint v)
    by (destruct v; [congruence | reflexivity..]).
  rewrite Sv.
  pose proof (iter_D0_unorm u Hu) as I. fold v in I.
  set (k := (Decimal.nb_digits u - Decimal.nb_digits v)%nat) in I.
  assert (Ed : d = zeros k ++ NilEmpty.string_of_uint v)
    by (rewrite <- Eu, <- I at 1; apply string_of_iter_D0).
  assert (Ld : String.length d = (k + String.length (NilEmpty.string_of_uint v))%nat)
    by (rewrite Ed at 1; now rewrite length_app_str, length_zeros).
  unfold zfill. destruct (Z.leb_spec (Z.of_nat (String.length d))
                            (Z.of_nat (String.length (NilEmpty.string_of_uint v)))) as [L|L].
  - assert (k = 0%nat) by lia. subst k. rewrite H in Ed. now simpl in Ed.
  - replace (Z.to_nat (Z.of_nat (String.length d)
                       - Z.of_nat (String.length (NilEmpty.string_of_uint v)))) with k by lia.
    destruct (NilEmpty.string_of_uint v) as [|c s] eqn:Ev.
    + destruct v; simpl in Ev; congruence.
    + rewrite (digit_not_sign c (string_of_uint_head _ _ _ Ev)). now rewrite Ed.
Qed.

(* ------------------------------------------------------------------ *)
(** ** Unicode text                                                    *)
(* ------------------------------------------------------------------ *)

#[local] Open Scope list_scope.

Lemma ascii_digit_cases (P : N -> Prop) :
  P 48%N -> P 49%N -> P 50%N -> P 51%N -> P 52%N ->
  P 53%N -> P 54%N -> P 55%N -> P 56%N -> P 57%N ->
  forall c, ascii_digit c = true -> P c.
Proof.
  intros H0 H1 H2 H3 H4 H5 H6 H7 H8 H9 c H.
  unfold ascii_digit, in_block in H. apply andb_true_iff in H as [L U].
  apply N.leb_le in L. apply N.ltb_lt in U.
  assert (E : (c = 48 \/ c = 49 \/ c = 50 \/ c = 51 \/ c = 52
               \/ c = 53 \/ c = 54 \/ c = 55 \/ c = 56 \/ c = 57)%N) by lia.
  repeat (destruct E as [-> | E]; [assumption|]). now subst.
Qed.

Lemma ascii_digit_is_decimal c : ascii_digit c = true -> is_decimal c = true.
Proof.
  intros H. unfold is_decimal, DECIMAL_ZEROS. cbn [existsb].
  unfold ascii_digit in H. now rewrite H.
Qed.

(** A decimal digit is an ASCII digit or lies beyond U+0660. *)
Lemma is_decimal_cases c :
  is_decimal c = true -> ascii_digit c = true \/ (1632 <= c)%N.
Proof.
  intros H. apply existsb_exists in H as (z & Hin & Hz).
  assert (T : forallb (fun z => (z =? 48) || (1632 <=? z))%N DECIMAL_ZEROS = true)
    by (vm_compute; reflexivity).
  rewrite forallb_forall in T. specialize (T z Hin).
  apply orb_true_iff in T as [T | T].
  - apply N.eqb_eq in T. subst z. now left.
  - right. apply N.leb_le in T. unfold in_block in Hz.
    apply andb_true_iff in Hz as [L _]. apply N.leb_le in L. lia.
Qed.

Lemma decimal_not_whitespace c : is_decimal c = true -> is_whitespace c = false.
Proof.
  intros H. destruct (is_whitespace c) eqn:W; [|reflexivity].
  apply existsb_exists in W as (w & Hin & E). apply N.eqb_eq in E. subst w.
  assert (T : forallb (fun w => negb (is_decimal w)) WHITESPACE = true)
    by (vm_compute; reflexivity).
  rewrite forallb_forall in T. specialize (T c Hin). now rewrite H in T.
Qed.

Lemma decimal_not_int_space c : is_decimal c = true -> int_space c = false.
Proof.
  intros H. unfold int_space. rewrite (decimal_not_whitespace c H), andb_false_r, orb_false_r.
  destruct (is_decimal_cases c H) as [A | B].
  - clear H. revert c A. apply ascii_digit_cases; reflexivity.
  - apply orb_false_iff. split; [apply andb_false_iff; right|]; apply N.leb_gt || apply N.eqb_neq; lia.
Qed.

Lemma decimal_not_mark c (m : N) :
  (m < 48)%N \/ (57 < m < 1632)%N -> is_decimal c = true -> (c =? m)%N = false.
Proof.
  intros Hm H. apply N.eqb_neq. intros ->.
  destruct (is_decimal_cases m H) as [A | B]; [|lia].
  unfold ascii_digit, in_block in A. apply andb_true_iff in A as [L U].
  apply N.leb_le in L. apply N.ltb_lt in U. lia.
Qed.

Lemma decimal_is_dot c : is_decimal c = true -> dot c = true.
Proof. intros H. unfold dot. rewrite (decimal_not_mark c 10); [reflexivity | lia | exact H]. Qed.

(** *** [strip] *)

Lemma lstrip_text_split t :
  exists w, t = (w ++ lstrip_text t)%list /\ forallb is_whitespace w = true.
Proof.
  induction t as [|c t [w [E W]]]; simpl.
  - now exists [].
  - destruct (is_whitespace c) eqn:Hc.
    + exists (c :: w). simpl. now rewrite Hc, W, <- E.
    + now exists [].
Qed.

Lemma lstrip_text_head t c r : lstrip_text t = c :: r -> is_whitespace c = false.
Proof.
  induction t as [|x t IH]; simpl; [discriminate|].
  destruct (is_whitespace x) eqn:Hx; [exact IH|]. now intros [= <- <-].
Qed.

Lemma lstrip_text_fixed c t : is_whitespace c = false -> lstrip_text (c :: t) = c :: t.
Proof. intros H. simpl. now rewrite H. Qed.

Lemma lstrip_text_idem t : lstrip_text (lstrip_text t) = lstrip_text t.
Proof.
  destruct (lstrip_text t) as [|c r] eqn:E; [reflexivity|].
  apply lstrip_text_fixed. exact (lstrip_text_head _ _ _ E).
Qed.

Lemma rstrip_text_idem t : rstrip_text (rstrip_text t) = rstrip_text t.
Proof. unfold rstrip_text. now rewrite rev_involutive, lstrip_text_idem. Qed.

Lemma rstrip_text_split t :
  exists w, t = (rstrip_text t ++ w)%list /\ forallb is_whitespace w = true.
Proof.
  destruct (lstrip_text_split (rev t)) as [w [E W]].
  exists (rev w). split.
  - unfold rstrip_text. rewrite <- rev_app_distr, <- E. now rewrite rev_involutive.
  - rewrite forallb_forall in *. intros x Hx. apply W. now apply in_rev.
Qed.

Lemma lstrip_rstrip_text t :
  lstrip_text t = t -> lstrip_text (rstrip_text t) = rstrip_text t.
Proof.
  intros H. destruct (rstrip_text_split t) as [w [E _]].
  destruct (rstrip_text t) as [|c r] eqn:R; [reflexivity|].
  apply lstrip_text_fixed. rewrite E in H. exact (lstrip_text_head _ _ _ H).
Qed.

Lemma strip_text_idem t : strip_text (strip_text t) = strip_text t.
Proof.
  unfold strip_text at 1.
  assert (H : lstrip_text (strip_text t) = strip_text t).
  { unfold strip_text. apply lstrip_rstrip_text, lstrip_text_idem. }
  rewrite H. unfold strip_text. apply rstrip_text_idem.
Qed.

Lemma lstrip_text_empty t : lstrip_text t = [] <-> forallb is_whitespace t = true.
Proof.
  induction t as [|c t IH]; cbn [lstrip_text forallb]; [tauto|].
  destruct (is_whitespace c); cbn [andb]; [exact IH|]. split; discriminate.
Qed.

Lemma forallb_rev {A} (p : A -> bool) l : forallb p (rev l) = forallb p l.
Proof.
  induction l as [|x l IH]; [reflexivity|]. cbn [rev forallb].
  rewrite forallb_app, IH. cbn [forallb]. rewrite andb_true_r. apply andb_comm.
Qed.

Lemma strip_text_empty t : strip_text t = [] <-> forallb is_whitespace t = true.
Proof.
  unfold strip_text, rstrip_text. split.
  - intros H. apply (f_equal (@rev N)) in H. rewrite rev_involutive in H. cbn [rev] in H.
    apply lstrip_text_empty in H. rewrite forallb_rev in H.
    apply lstrip_text_empty. rewrite <- lstrip_text_idem.
    apply lstrip_text_empty. exact H.
  - intros H. apply lstrip_text_empty in H. now rewrite H.
Qed.

(** The trimmed text does not end in white space. *)
Lemma strip_text_last t a c : strip_text t = (a ++ [c])%list -> is_whitespace c = false.
Proof.
  unfold strip_text, rstrip_text. intros H.
  apply (f_equal (@rev N)) in H. rewrite rev_involutive, rev_app_distr in H. cbn [rev app] in H.
  exact (lstrip_text_head _ _ _ H).
Qed.

(** *** [int] on a run of digits *)

Lemma scan_digits_run d :
  forallb is_decimal d = true -> scan_digits false d = Some (d, []).
Proof.
  induction d as [|c d IH]; cbn [scan_digits forallb]; [reflexivity|].
  intros H. apply andb_true_iff in H as [Hc H]. now rewrite Hc, (IH H).
Qed.

Lemma int_digits d :
  forallb is_decimal d = true -> d <> [] -> (List.length d <= MAX_STR_DIGITS)%nat ->
  int d = IntValue (digits_value d).
Proof.
  intros H N L. destruct d as [|c d]; [congruence|].
  pose proof H as H'. cbn [forallb] in H'. apply andb_true_iff in H' as [Hc _].
  unfold int. cbn [skip_spaces]. rewrite (decimal_not_int_space c Hc).
  rewrite (decimal_not_mark c 45), (decimal_not_mark c 43) by (assumption || lia).
  unfold UNDERSCORE at 1. rewrite (decimal_not_mark c 95) by (assumption || lia).
  rewrite (scan_digits_run _ H).
  destruct (Nat.ltb_spec MAX_STR_DIGITS (List.length (c :: d))); [lia|].
  reflexivity.
Qed.

(** *** The numeral of a run of ASCII digits *)

Lemma text_of_string_of_text d :
  forallb ascii_digit d = true -> text_of (string_of_text d) = d.
Proof.
  unfold text_of, string_of_text. rewrite list_ascii_of_string_of_list_ascii.
  induction d as [|c d IH]; cbn [map forallb]; [reflexivity|].
  intros H. apply andb_true_iff in H as [Hc H]. rewrite (IH H). f_equal.
  revert c Hc. apply ascii_digit_cases; reflexivity.
Qed.

Lemma length_string_of_text d : String.length (string_of_text d) = List.length d.
Proof.
  unfold string_of_text. induction d as [|c d IH]; cbn; [reflexivity | now rewrite IH].
Qed.

Lemma uint_of_ascii_digits d :
  forallb ascii_digit d = true ->
  NilEmpty.uint_of_string (string_of_text d) = Some (uint_of_digits d).
Proof.
  unfold string_of_text.
  induction d as [|c d IH]; cbn [map forallb string_of_list_ascii]; [reflexivity|].
  intros H. apply andb_true_iff in H as [Hc H].
  cbn [NilEmpty.uint_of_string uint_of_digits]. rewrite (IH H).
  revert c Hc. apply ascii_digit_cases; reflexivity.
Qed.

Lemma zfill_digits_value d :
  forallb ascii_digit d = true -> d <> [] ->
  text_of (zfill (decimal (digits_value d)) (Z.of_nat (List.length d))) = d.
Proof.
  intros H N. unfold digits_value.
  rewrite <- (length_string_of_text d).
  rewrite (zfill_decimal_digits _ _ (uint_of_ascii_digits d H)).
  - now apply text_of_string_of_text.
  - destruct d; [congruence | discriminate].
Qed.

Lemma digits_value_nonneg d : 0 <= digits_value d.
Proof. unfold digits_value, Z.of_uint. apply N2Z.is_nonneg. Qed.

Lemma limit_above_digits : Z.of_nat MAX_STR_DIGITS < STR_LIMIT.
Proof.
  unfold STR_LIMIT. apply Z.pow_gt_lin_r; [lia | apply Nat2Z.is_nonneg].
Qed.

Lemma fits_small n : 0 <= n -> fits (n + 1) = true -> fits n = true.
Proof.
  unfold fits. intros P H. apply Z.ltb_lt in H. apply Z.ltb_lt.
  generalize dependent STR_LIMIT. intros. lia.
Qed.

Lemma fits_width k : (k <= MAX_STR_DIGITS)%nat -> fits (Z.of_nat k) = true.
Proof.
  intros H. unfold fits. apply Z.ltb_lt. pose proof limit_above_digits as L.
  assert (Z.of_nat k <= Z.of_nat MAX_STR_DIGITS) by (apply Nat2Z.inj_le; exact H).
  generalize dependent STR_LIMIT. generalize dependent (Z.of_nat MAX_STR_DIGITS).
  intros. lia.
Qed.

(** *** The backtracking quantifiers *)

Section QuantifierFacts.
Context {R : Type}.
Implicit Types (k : text -> text -> option R).

Lemma lazy_star_ext cls s k1 k2 :
  (forall m r, k1 m r = k2 m r) -> lazy_star cls s k1 = lazy_star cls s k2.
Proof.
  revert k1 k2. induction s as [|c s IH]; intros k1 k2 E; simpl; rewrite E.
  - reflexivity.
  - destruct (k2 [] (c :: s)); [reflexivity|].
    destruct (cls c); [|reflexivity]. apply IH. intros; apply E.
Qed.

(** The longest run is tried first: when the continuation accepts it,
    that is the match. *)
Lemma greedy_star_longest cls d s k r :
  forallb cls d = true ->
  match s with c :: _ => cls c = false | [] => True end ->
  k d s = Some r ->
  greedy_star cls (d ++ s) k = Some r.
Proof.
  revert k. induction d as [|c d IH]; intros k Hd Hs Hk; simpl.
  - destruct s as [|c s]; simpl; [exact Hk|]. now rewrite Hs.
  - simpl in Hd. apply andb_true_iff in Hd as [Hc Hd]. rewrite Hc.
    now rewrite (IH (fun m rest => k (c :: m) rest) Hd Hs Hk).
Qed.

(** No split of the subject is accepted: the quantifier fails. *)
Lemma greedy_star_none cls x k :
  (forall m r, (m ++ r)%list = x -> forallb cls m = true -> k m r = None) ->
  greedy_star cls x k = None.
Proof.
  revert k. induction x as [|c x IH]; intros k H; simpl.
  - now apply (H [] []).
  - assert (H0 : k [] (c :: x) = None) by now apply H.
    destruct (cls c) eqn:Hc; [|exact H0].
    rewrite IH; [exact H0|].
    intros m r E Hm. apply H; simpl; [now rewrite E | now rewrite Hc].
Qed.

Lemma greedy_plus_longest cls c d s k r :
  forallb cls (c :: d) = true ->
  match s with c :: _ => cls c = false | [] => True end ->
  k (c :: d) s = Some r ->
  greedy_plus cls ((c :: d) ++ s) k = Some r.
Proof.
  intros Hd Hs Hk. simpl in *. apply andb_true_iff in Hd as [Hc Hd].
  rewrite Hc. now apply greedy_star_longest.
Qed.

Lemma greedy_plus_none cls x k :
  (forall m r, (m ++ r)%list = x -> m <> [] -> forallb cls m = true -> k m r = None) ->
  greedy_plus cls x k = None.
Proof.
  intros H. destruct x as [|c x]; simpl; [reflexivity|].
  destruct (cls c) eqn:Hc; [|reflexivity].
  apply greedy_star_none. intros m r E Hm.
  apply H; simpl; [now rewrite E | discriminate | now rewrite Hc].
Qed.

Lemma lazy_star_some cls s k r :
  lazy_star cls s k = Some r ->
  exists m rest, s = (m ++ rest)%list /\ forallb cls m = true /\ k m rest = Some r.
Proof.
  revert k. induction s as [|c s IH]; intros k; cbn [lazy_star].
  - destruct (k [] []) eqn:E; [|discriminate]. intros [= <-]. now exists [], [].
  - destruct (k [] (c :: s)) eqn:E.
    + intros [= <-]. now exists [], (c :: s).
    + destruct (cls c) eqn:Hc; [|discriminate]. intros H.
      destruct (IH _ H) as (m & rest & -> & Hm & Hk).
      exists (c :: m), rest. cbn [forallb app]. now rewrite Hc, Hm.
Qed.

Lemma greedy_star_some cls s k r :
  greedy_star cls s k = Some r ->
  exists m rest, s = (m ++ rest)%list /\ forallb cls m = true /\ k m rest = Some r.
Proof.
  revert k. induction s as [|c s IH]; intros k; cbn [greedy_star].
  - intros H. now exists [], [].
  - destruct (cls c) eqn:Hc; [|intros H; now exists [], (c :: s)].
    destruct (greedy_star cls s (fun m rest => k (c :: m) rest)) eqn:E.
    + intros [= <-]. destruct (IH _ E) as (m & rest & -> & Hm & Hk).
      exists (c :: m), rest. cbn [forallb app]. now rewrite Hc, Hm.
    + intros H. now exists [], (c :: s).
Qed.

Lemma greedy_plus_some cls s k r :
  greedy_plus cls s k = Some r ->
  exists m rest, s = (m ++ rest)%list /\ m <> [] /\ forallb cls m = true
                 /\ k m rest = Some r.
Proof.
  destruct s as [|c s]; cbn [greedy_plus]; [discriminate|].
  destruct (cls c) eqn:Hc; [|discriminate]. intros H.
  destruct (greedy_star_some _ _ _ _ H) as (m & rest & -> & Hm & Hk).
  exists (c :: m), rest. cbn [forallb app]. rewrite Hc, Hm.
  repeat split; [discriminate | exact Hk].
Qed.

Lemma lazy_star_none cls s k :
  (forall m r, (m ++ r)%list = s -> k m r = None) -> lazy_star cls s k = None.
Proof.
  revert k. induction s as [|c s IH]; intros k H; cbn [lazy_star].
  - now rewrite (H [] []).
  - rewrite (H [] (c :: s)) by reflexivity.
    destruct (cls c); [|reflexivity]. apply IH. intros m r E. apply H.
    cbn [app]. now rewrite E.
Qed.
End QuantifierFacts.

(** *** The last digit run *)

Lemma forall_non_digit_no_digit s :
  forallb non_digit s = negb (existsb ascii_digit s).
Proof.
  induction s as [|c s IH]; simpl; [reflexivity|].
  rewrite IH. unfold non_digit. now destruct (ascii_digit c).
Qed.

Lemma last_digit_run_none u :
  last_digit_run u = None -> forallb non_digit u = true.
Proof.
  induction u as [|x u IHu]; simpl; [reflexivity|].
  destruct (last_digit_run u) as [[[[|] ?] ?]|]; try discriminate;
    try (destruct (ascii_digit x); discriminate).
  unfold non_digit. destruct (ascii_digit x); [discriminate|]. intros _. now apply IHu.
Qed.

Lemma last_digit_run_spec u p d s :
  last_digit_run u = Some (p, d, s) ->
  u = (p ++ d ++ s)%list /\ d <> [] /\ forallb ascii_digit d = true
  /\ forallb non_digit s = true /\ no_trailing_digit p = true.
Proof.
  revert p d s. induction u as [|c u IH]; intros p d s; simpl; [discriminate|].
  destruct (last_digit_run u) as [[[p' d'] s']|] eqn:E.
  - destruct (IH _ _ _ eq_refl) as (Eu & Nd & Hd & Hs & Hp).
    destruct p' as [|x p'].
    + destruct (ascii_digit c) eqn:Hc; intros [= <- <- <-].
      * simpl. rewrite Hc, Hd, Eu. repeat split; try assumption; discriminate.
      * simpl. unfold non_digit at 2. rewrite Hc, Eu. repeat split; assumption.
    + intros [= <- <- <-]. rewrite Eu. repeat split; assumption.
  - destruct (ascii_digit c) eqn:Hc; [|discriminate].
    intros [= <- <- <-]. simpl. rewrite Hc. repeat split; try discriminate.
    now apply last_digit_run_none.
Qed.

Lemma last_digit_run_exists u :
  existsb ascii_digit u = true -> exists p d s, last_digit_run u = Some (p, d, s).
Proof.
  induction u as [|c u IH]; simpl; [discriminate|].
  destruct (last_digit_run u) as [[[p d] s]|] eqn:E.
  - intros _. destruct p; [destruct (ascii_digit c)|]; eauto.
  - destruct (ascii_digit c); [eauto|]. simpl. intros H.
    destruct (IH H) as (? & ? & ? & ?). discriminate.
Qed.

Lemma non_digits_no_run c :
  forallb non_digit c = true -> last_digit_run c = None.
Proof.
  induction c as [|x c IH]; [reflexivity|]. cbn [forallb last_digit_run].
  intros H. apply andb_true_iff in H as [Hx Hc]. rewrite (IH Hc).
  unfold non_digit in Hx. now destruct (ascii_digit x).
Qed.

Lemma digits_then_rest b c :
  b <> [] -> forallb ascii_digit b = true -> forallb non_digit c = true ->
  last_digit_run (b ++ c) = Some ([], b, c).
Proof.
  intros N Hb Hc. induction b as [|x b IH]; [congruence|].
  cbn [forallb] in Hb. apply andb_true_iff in Hb as [Hx Hb].
  cbn [app last_digit_run]. destruct b as [|y b].
  - cbn [app]. now rewrite (non_digits_no_run c Hc), Hx.
  - rewrite IH by (assumption || discriminate). now rewrite Hx.
Qed.

(** Any way of cutting a text into a text, a run of ASCII digits and a
    text without ASCII digits ends at the last digit run: the run found
    is a suffix of the last run, and the text before the last run is a
    prefix of the text before the run found. *)
Lemma any_run_is_in_last_run a b c :
  b <> [] -> forallb ascii_digit b = true -> forallb non_digit c = true ->
  exists p x,
    last_digit_run (a ++ b ++ c) = Some (p, (x ++ b)%list, c)
    /\ a = (p ++ x)%list /\ forallb ascii_digit x = true.
Proof.
  intros N Hb Hc. induction a as [|ch a (p & x & E & -> & Hx)].
  - exists [], []. cbn [app]. now rewrite (digits_then_rest b c N Hb Hc).
  - cbn [app last_digit_run]. rewrite E. destruct p as [|y p].
    + destruct (ascii_digit ch) eqn:Hch.
      * exists [], (ch :: x). cbn [app forallb]. now rewrite Hch, Hx.
      * exists [ch], x. now rewrite Hx.
    + exists (ch :: y :: p), x. now rewrite Hx.
Qed.

(** *** Texts whose decimal digits are all ASCII *)

Lemma ascii_digits_only_app a b :
  ascii_digits_only (a ++ b) = ascii_digits_only a && ascii_digits_only b.
Proof. apply forallb_app. Qed.

Lemma decimal_run_is_ascii m :
  ascii_digits_only m = true -> forallb is_decimal m = true -> forallb ascii_digit m = true.
Proof.
  unfold ascii_digits_only.
  induction m as [|c m IH]; cbn [forallb]; [reflexivity|].
  intros A D. apply andb_true_iff in A as [Ac A]. apply andb_true_iff in D as [Dc D].
  rewrite Dc in Ac. cbn [implb] in Ac. rewrite Ac. now apply IH.
Qed.

Lemma ascii_run_is_decimal m :
  forallb ascii_digit m = true -> forallb is_decimal m = true.
Proof.
  induction m as [|c m IH]; cbn [forallb]; [reflexivity|].
  intros D. apply andb_true_iff in D as [Dc D].
  now rewrite (ascii_digit_is_decimal c Dc), IH.
Qed.

Lemma ascii_run_only m : forallb ascii_digit m = true -> ascii_digits_only m = true.
Proof.
  unfold ascii_digits_only.
  induction m as [|c m IH]; cbn [forallb]; [reflexivity|].
  intros D. apply andb_true_iff in D as [Dc D]. rewrite Dc.
  rewrite (IH D). now destruct (is_decimal c).
Qed.

(** *** The search of [parse] finds the last digit run *)

Lemma re_search_pattern_eq url : re_search_pattern url = lazy_star dot url after_prefix.
Proof. reflexivity. Qed.

Lemma at_end_no_digit r : at_end r = true -> existsb ascii_digit r = false.
Proof.
  destruct r as [|c [|x r]]; simpl; try discriminate; [reflexivity|].
  intros H. apply N.eqb_eq in H. now subst.
Qed.

Lemma tail_none g1 g2 r :
  existsb ascii_digit r = true -> greedy_star non_digit r (tail_k g1 g2) = None.
Proof.
  intros H. apply greedy_star_none. intros m r' E Hm. unfold tail_k.
  destruct (at_end r') eqn:A; [|reflexivity].
  apply at_end_no_digit in A. rewrite <- E, existsb_app, A in H.
  rewrite forall_non_digit_no_digit in Hm.
  destruct (existsb ascii_digit m); discriminate.
Qed.

Lemma after_prefix_match g1 d s :
  d <> [] -> forallb is_decimal d = true -> forallb non_digit s = true ->
  match s with c :: _ => is_decimal c = false | [] => True end ->
  after_prefix g1 (d ++ s) = Some (g1, d, s).
Proof.
  intros N Hd Hs Hh. destruct d as [|c d]; [congruence|].
  unfold after_prefix. apply greedy_plus_longest; [exact Hd | exact Hh |].
  replace (greedy_star non_digit s (tail_k g1 (c :: d)))
    with (greedy_star non_digit (s ++ []) (tail_k g1 (c :: d)))
    by now rewrite List.app_nil_r.
  now apply greedy_star_longest.
Qed.

Lemma digit_run_inside p t m r :
  (m ++ r)%list = (p ++ t)%list -> forallb ascii_digit m = true ->
  p <> [] -> no_trailing_digit p = true ->
  existsb ascii_digit t = true -> existsb ascii_digit r = true.
Proof.
  revert m. induction p as [|c p IH]; intros m E Hm N Hp Ht; [congruence|].
  destruct m as [|x m]; simpl in E.
  - subst r. simpl. rewrite existsb_app, Ht. now rewrite !orb_true_r.
  - injection E as -> E. simpl in Hm. apply andb_true_iff in Hm as [Hc Hm].
    destruct p as [|y p].
    + simpl in Hp. unfold non_digit in Hp. rewrite Hc in Hp. discriminate.
    + apply (IH m); try assumption; discriminate.
Qed.

Lemma after_prefix_none g1 p t :
  ascii_digits_only (p ++ t) = true ->
  p <> [] -> no_trailing_digit p = true -> existsb ascii_digit t = true ->
  after_prefix g1 (p ++ t) = None.
Proof.
  intros A N Hp Ht. apply greedy_plus_none. intros m r E _ Hm.
  apply tail_none. apply (digit_run_inside p t m r E); try assumption.
  apply decimal_run_is_ascii; [|exact Hm].
  rewrite <- E, ascii_digits_only_app in A. now apply andb_true_iff in A.
Qed.

Lemma no_trailing_digit_tail c p :
  no_trailing_digit (c :: p) = true -> no_trailing_digit p = true.
Proof. destruct p; simpl; [reflexivity | trivial]. Qed.

Lemma head_not_decimal s :
  ascii_digits_only s = true -> forallb non_digit s = true ->
  match s with c :: _ => is_decimal c = false | [] => True end.
Proof.
  unfold ascii_digits_only.
  destruct s as [|c s]; cbn [forallb]; [trivial|].
  intros A H. apply andb_true_iff in A as [A _]. apply andb_true_iff in H as [H _].
  unfold non_digit in H. destruct (is_decimal c); [|reflexivity].
  cbn [implb] in A. now rewrite A in H.
Qed.

Lemma search_finds_last_run p d s :
  ascii_digits_only (p ++ d ++ s) = true ->
  forallb dot p = true -> no_trailing_digit p = true ->
  d <> [] -> forallb ascii_digit d = true -> forallb non_digit s = true ->
  forall acc,
    lazy_star dot (p ++ d ++ s) (fun m r => after_prefix (acc ++ m) r)
    = Some ((acc ++ p)%list, d, s).
Proof.
  intros A Hdot Hp N Hd Hs.
  assert (Ht : existsb ascii_digit (d ++ s) = true).
  { destruct d as [|c d]; [congruence|]. simpl in *.
    apply andb_true_iff in Hd as [-> _]. reflexivity. }
  induction p as [|c p IH]; intros acc.
  - change ([] ++ d ++ s)%list with (d ++ s)%list.
    assert (As : ascii_digits_only s = true).
    { cbn [app] in A. rewrite ascii_digits_only_app in A. now apply andb_true_iff in A. }
    assert (M : after_prefix acc (d ++ s) = Some (acc, d, s)).
    { apply after_prefix_match; try assumption;
        [now apply ascii_run_is_decimal | now apply head_not_decimal]. }
    destruct (d ++ s)%list eqn:E; cbn [lazy_star]; rewrite !List.app_nil_r, M; reflexivity.
  - simpl in Hdot. apply andb_true_iff in Hdot as [Hc Hdot].
    change ((c :: p) ++ d ++ s)%list with (c :: (p ++ d ++ s))%list.
    cbn [lazy_star]. rewrite List.app_nil_r.
    change (c :: (p ++ d ++ s))%list with ((c :: p) ++ d ++ s)%list at 1.
    rewrite after_prefix_none by (assumption || discriminate).
    rewrite Hc.
    rewrite (lazy_star_ext dot _ _ (fun m r => after_prefix ((acc ++ [c]) ++ m) r))
      by (intros; now rewrite <- List.app_assoc).
    assert (A' : ascii_digits_only (p ++ d ++ s) = true).
    { change ((c :: p) ++ d ++ s)%list with ([c] ++ (p ++ d ++ s))%list in A.
      rewrite ascii_digits_only_app in A. now apply andb_true_iff in A. }
    rewrite (IH A' Hdot (no_trailing_digit_tail _ _ Hp)).
    now rewrite <- List.app_assoc.
Qed.

Lemma re_search_last_run p d s :
  ascii_digits_only (p ++ d ++ s) = true ->
  forallb dot p = true -> no_trailing_digit p = true ->
  d <> [] -> forallb ascii_digit d = true -> forallb non_digit s = true ->
  re_search_pattern (p ++ d ++ s) = Some (p, d, s).
Proof.
  intros. rewrite re_search_pattern_eq.
  rewrite (lazy_star_ext dot _ _ (fun m r => after_prefix ([] ++ m) r)) by reflexivity.
  now rewrite search_finds_last_run.
Qed.

Lemma dot_no_line_feed p :
  existsb (N.eqb 10) p = false -> forallb dot p = true.
Proof.
  induction p as [|c p IH]; cbn [existsb forallb]; [reflexivity|].
  intros H. apply orb_false_iff in H as [Hc H]. rewrite (IH H).
  unfold dot. rewrite N.eqb_sym, Hc. reflexivity.
Qed.

Lemma dot_is_no_line_feed p :
  forallb dot p = true -> existsb (N.eqb 10) p = false.
Proof.
  induction p as [|c p IH]; cbn [existsb forallb]; [reflexivity|].
  intros H. apply andb_true_iff in H as [Hc H]. rewrite (IH H).
  unfold dot in Hc. rewrite N.eqb_sym. now destruct (c =? 10)%N.
Qed.

(** What the search returns cuts the subject in three: a text without
    line feed, a non-empty run of decimal digits, and a text without
    ASCII digit that reaches the end of the subject or the line feed that
    ends it. *)
Lemma re_search_pattern_some u g1 g2 g3 :
  re_search_pattern u = Some (g1, g2, g3) ->
  exists r3,
    u = (g1 ++ g2 ++ g3 ++ r3)%list /\ at_end r3 = true
    /\ forallb dot g1 = true /\ g2 <> [] /\ forallb is_decimal g2 = true
    /\ forallb non_digit g3 = true.
Proof.
  intros H. rewrite re_search_pattern_eq in H.
  apply lazy_star_some in H as (m1 & r1 & -> & D1 & H).
  unfold after_prefix in H.
  apply greedy_plus_some in H as (m2 & r2 & -> & N2 & D2 & H).
  apply greedy_star_some in H as (m3 & r3 & -> & D3 & H).
  unfold tail_k in H. destruct (at_end r3) eqn:A; [|discriminate].
  injection H as <- <- <-. exists r3. repeat split; assumption.
Qed.

(** On a trimmed text the three groups of the search are the whole
    subject. *)
Lemma re_search_pattern_stripped raw g1 g2 g3 :
  re_search_pattern (strip_text raw) = Some (g1, g2, g3) ->
  strip_text raw = (g1 ++ g2 ++ g3)%list
  /\ existsb (N.eqb 10) g1 = false /\ g2 <> [] /\ forallb is_decimal g2 = true
  /\ existsb ascii_digit g3 = false.
Proof.
  intros H. destruct (re_search_pattern_some _ _ _ _ H) as (r3 & E & A & D1 & N2 & D2 & D3).
  assert (R : r3 = []).
  { destruct r3 as [|c [|x r3]]; [reflexivity | | discriminate A].
    cbn [at_end] in A. apply N.eqb_eq in A. subst c.
    rewrite !List.app_assoc in E. apply strip_text_last in E. discriminate E. }
  subst r3. rewrite List.app_nil_r in E.
  repeat split; try assumption.
  - now apply dot_is_no_line_feed.
  - rewrite forall_non_digit_no_digit in D3. now destruct (existsb ascii_digit g3).
Qed.

(** On a text whose decimal digits are all ASCII, what the search
    returns is the last digit run. *)
Lemma re_search_pattern_sound u g1 g2 g3 :
  ascii_digits_only u = true ->
  re_search_pattern u = Some (g1, g2, g3) ->
  last_digit_run u = Some (g1, g2, g3)
  /\ existsb (N.eqb 10) g1 = false.
Proof.
  intros Au H. pose proof H as H0.
  destruct (re_search_pattern_some _ _ _ _ H) as (r3 & E & A & D1 & N2 & D2 & D3).
  assert (D2' : forallb ascii_digit g2 = true).
  { apply decimal_run_is_ascii; [|exact D2]. rewrite E, !ascii_digits_only_app in Au.
    apply andb_true_iff in Au as [_ Au]. now apply andb_true_iff in Au. }
  assert (D : forallb non_digit (g3 ++ r3) = true).
  { rewrite forallb_app, D3. rewrite forall_non_digit_no_digit.
    now rewrite (at_end_no_digit _ A). }
  destruct (any_run_is_in_last_run g1 g2 (g3 ++ r3) N2 D2' D) as (p & x & L & Eg & Hx).
  rewrite <- E in L.
  assert (Lp : existsb (N.eqb 10) p = false).
  { apply dot_is_no_line_feed. rewrite Eg, forallb_app in D1. now apply andb_true_iff in D1. }
  destruct (last_digit_run_spec _ _ _ _ L) as (Eu & Nd & Hd & Hs & Hp).
  assert (Au' : ascii_digits_only (p ++ (x ++ g2) ++ g3 ++ r3) = true) by now rewrite <- Eu.
  pose proof (re_search_last_run p (x ++ g2) (g3 ++ r3) Au'
                (dot_no_line_feed _ Lp) Hp Nd Hd Hs) as S.
  rewrite <- Eu, H0 in S. injection S as S1 S2 S3.
  rewrite L, S1, <- S2, <- S3. split; [reflexivity | exact Lp].
Qed.

Lemma no_digit_no_run u :
  existsb is_decimal u = false -> re_search_pattern u = None.
Proof.
  intros H. rewrite re_search_pattern_eq. apply lazy_star_none. intros m r E.
  apply greedy_plus_none. intros m' r' E' N D. exfalso.
  rewrite <- E, <- E', !existsb_app in H.
  destruct m' as [|c m']; [congruence|]. cbn [forallb existsb] in *.
  apply andb_true_iff in D as [Dc _]. rewrite Dc in H. cbn in H.
  now rewrite orb_true_r in H.
Qed.

Lemma no_ascii_digit_no_decimal u :
  ascii_digits_only u = true -> existsb ascii_digit u = false -> existsb is_decimal u = false.
Proof.
  unfold ascii_digits_only.
  induction u as [|c u IH]; cbn [forallb existsb]; [reflexivity|].
  intros A H. apply andb_true_iff in A as [Ac A]. apply orb_false_iff in H as [Hc H].
  rewrite (IH A H), orb_false_r. destruct (is_decimal c); [|reflexivity].
  cbn [implb] in Ac. congruence.
Qed.

(** *** [parse] on a trimmed text *)

Lemma jsonify_pattern p d s :
  (List.length d <= MAX_STR_DIGITS)%nat -> fits (digits_value d + 1) = true ->
  jsonify (pattern_of p d s) = ParseOk (pattern_of p d s).
Proof.
  intros L F. unfold jsonify. cbn [pattern_of num_width base_num next_num].
  now rewrite (fits_width _ L), (fits_small _ (digits_value_nonneg d) F), F.
Qed.

Lemma parse_stripped u p d s :
  strip_text u = u -> ascii_digits_only u = true ->
  last_digit_run u = Some (p, d, s) ->
  existsb (N.eqb 10) p = false ->
  (List.length d <= MAX_STR_DIGITS)%nat -> fits (digits_value d + 1) = true ->
  parse u = ParseOk (pattern_of p d s) /\ rebuild (pattern_of p d s) = u.
Proof.
  intros Su Au E Hlf L F.
  destruct (last_digit_run_spec _ _ _ _ E) as (Eu & N & Hd & Hs & Hp).
  split.
  - unfold parse. rewrite Su.
    destruct u as [|c0 u0] eqn:U; [discriminate E|]. rewrite <- U in *.
    assert (S : re_search_pattern u = Some (p, d, s)).
    { rewrite Eu at 1. rewrite Eu in Au.
      exact (re_search_last_run p d s Au (dot_no_line_feed _ Hlf) Hp N Hd Hs). }
    rewrite S, (int_digits d (ascii_run_is_decimal _ Hd) N L).
    exact (jsonify_pattern p d s L F).
  - unfold rebuild, pattern_of. cbn [prefix suffix num_width base_num].
    now rewrite (zfill_digits_value d Hd N).
Qed.

Lemma parse_strip raw : parse (strip_text raw) = parse raw.
Proof. unfold parse. now rewrite strip_text_idem. Qed.

Lemma parse_blank raw :
  parse raw = ParseError "No URL provided" <-> forallb is_whitespace raw = true.
Proof.
  rewrite <- strip_text_empty. unfold parse.
  destruct (strip_text raw) as [|c u] eqn:E; [tauto|].
  split; [|discriminate].
  destruct (re_search_pattern (c :: u)) as [[[g1 g2] g3]|]; [|discriminate].
  destruct (int g2); try discriminate. unfold jsonify.
  destruct (fits _ && fits _ && fits _); discriminate.
Qed.

(* ------------------------------------------------------------------ *)
(** ** Pattern extraction                                              *)
(* ------------------------------------------------------------------ *)

(** C2, counterexample.  The round trip as stated fails on URL strings
    that contain a digit.  The text made of [a], a line feed and [1] is
    rejected with the no-numeric-sequence error, because the lazy prefix
    group cannot cross a line feed.  A URL surrounded by blanks is rebuilt
    without them.  The text [x] followed by the ARABIC-INDIC digits four
    and two is accepted, since [\d] matches the decimal digits of every
    script, and is rebuilt with ASCII digits.  A URL that ends in a run of
    4301 digits makes [int] raise, and the handler ends in an uncaught
    error. *)
Lemma parse_round_trip_counterexample :
  parse [97; 10; 49]%N = ParseError "No numeric sequence found in the URL"
  /\ ~ round_trips [97; 10; 49]%N
  /\ ~ round_trips (text_of " a1 ")
  /\ parse [120; 1636; 1634]%N = ParseOk (mkPattern [120%N] 2 42 43 [] [])
  /\ rebuild (mkPattern [120%N] 2 42 43 [] []) = text_of "x42"
  /\ ~ round_trips [120; 1636; 1634]%N
  /\ parse (text_of "https://a.example/" ++ repeat 57%N 4301) = ParseRaised
  /\ ~ round_trips (text_of "https://a.example/" ++ repeat 57%N 4301).
Proof.
  assert (P1 : parse [97; 10; 49]%N = ParseError "No numeric sequence found in the URL")
    by (vm_compute; reflexivity).
  assert (P2 : parse [120; 1636; 1634]%N = ParseOk (mkPattern [120%N] 2 42 43 [] []))
    by (vm_compute; reflexivity).
  assert (P3 : parse (text_of "https://a.example/" ++ repeat 57%N 4301) = ParseRaised)
    by (vm_compute; reflexivity).
  split; [exact P1|]. split.
  { intros (pat & E & _). rewrite P1 in E. discriminate E. }
  split.
  { intros (pat & E & B & _). vm_compute in E. injection E as <-.
    vm_compute in B. discriminate B. }
  split; [exact P2|]. split; [vm_compute; reflexivity|]. split.
  { intros (pat & E & B & _). rewrite P2 in E. injection E as <-.
    vm_compute in B. discriminate B. }
  split; [exact P3|].
  intros (pat & E & _). rewrite P3 in E. discriminate E.
Qed.

(** C2, amended.  For every input whose trimmed form [u] holds an ASCII
    decimal digit and no decimal digit of another script, has no line
    feed before its last contiguous run of digits, and whose last run has
    at most 4300 digits and a successor of at most 4300 digits:
    extraction succeeds with the pattern of that last run (prefix = the
    text before the run, numWidth = the length of the run, baseNum = its
    integer value, suffix = the text after it); the pattern rebuilds [u];
    and extracting again from the rebuilt URL gives the same pattern. *)
Theorem parse_round_trip (raw : text) :
  ascii_digits_only (strip_text raw) = true ->
  existsb ascii_digit (strip_text raw) = true ->
  line_feed_before_last_run (strip_text raw) = false ->
  run_fits (strip_text raw) = true ->
  exists p d s,
    last_digit_run (strip_text raw) = Some (p, d, s)
    /\ parse raw = ParseOk (pattern_of p d s)
    /\ rebuild (pattern_of p d s) = strip_text raw
    /\ parse (rebuild (pattern_of p d s)) = ParseOk (pattern_of p d s).
Proof.
  intros Ha Hd Hlf Hf.
  destruct (last_digit_run_exists _ Hd) as (p & d & s & E).
  unfold line_feed_before_last_run in Hlf. rewrite E in Hlf.
  unfold run_fits in Hf. rewrite E in Hf. apply andb_true_iff in Hf as [L F].
  apply Nat.leb_le in L.
  destruct (parse_stripped (strip_text raw) p d s (strip_text_idem raw) Ha E Hlf L F) as [P B].
  exists p, d, s. rewrite B, P, <- (parse_strip raw). auto.
Qed.

Lemma parse_round_trip_witness :
  exists p d s,
    last_digit_run (strip_text (text_of "  https://a.example/v2/clip00042.webm "))
    = Some (p, d, s)
    /\ parse (text_of "  https://a.example/v2/clip00042.webm ") = ParseOk (pattern_of p d s)
    /\ rebuild (pattern_of p d s)
       = strip_text (text_of "  https://a.example/v2/clip00042.webm ")
    /\ parse (rebuild (pattern_of p d s)) = ParseOk (pattern_of p d s).
Proof.
  apply (parse_round_trip (text_of "  https://a.example/v2/clip00042.webm "));
    vm_compute; reflexivity.
Defined.

(* ------------------------------------------------------------------ *)
(** ** Further properties of the pattern extractor                     *)
(* ------------------------------------------------------------------ *)

(** An input that is empty or made of white space only is rejected with
    the no-URL error, and only such an input is. *)
Theorem parse_rejects_blank (raw : text) :
  parse raw = ParseError "No URL provided" <-> forallb is_whitespace raw = true.
Proof. exact (parse_blank raw). Qed.

Lemma parse_digitless raw :
  strip_text raw <> [] ->
  existsb is_decimal (strip_text raw) = false ->
  parse raw = ParseError "No numeric sequence found in the URL".
Proof.
  intros N H. unfold parse.
  destruct (strip_text raw) as [|c u] eqn:E; [contradiction|].
  now rewrite (no_digit_no_run _ H).
Qed.

(** Whenever extraction succeeds, the trimmed input is the prefix, a run
    of decimal digits and the suffix of the pattern; the run is not empty
    and has at most 4300 digits, no line feed occurs in the prefix and no
    ASCII digit in the suffix; the width is the length of the run, the
    base number its value, the next number its successor, and the base
    URL is empty.  When the run is made of ASCII digits the pattern
    rebuilds the trimmed input, and when every decimal digit of the input
    is an ASCII digit the run is its last digit run. *)
Theorem parse_success_sound (raw : text) (pat : URLPattern) :
  parse raw = ParseOk pat ->
  exists d,
    strip_text raw = (prefix pat ++ d ++ suffix pat)%list
    /\ pat = pattern_of (prefix pat) d (suffix pat)
    /\ d <> [] /\ forallb is_decimal d = true
    /\ (List.length d <= MAX_STR_DIGITS)%nat
    /\ existsb (N.eqb 10) (prefix pat) = false
    /\ existsb ascii_digit (suffix pat) = false
    /\ 1 <= num_width pat /\ 0 <= base_num pat
    /\ next_num pat = base_num pat + 1 /\ base_url pat = []
    /\ (forallb ascii_digit d = true -> rebuild pat = strip_text raw)
    /\ (ascii_digits_only (strip_text raw) = true ->
        last_digit_run (strip_text raw) = Some (prefix pat, d, suffix pat)).
Proof.
  unfold parse.
  destruct (strip_text raw) as [|c0 u0] eqn:U; [discriminate|]. rewrite <- U.
  destruct (re_search_pattern (strip_text raw)) as [[[g1 g2] g3]|] eqn:S; [|discriminate].
  destruct (re_search_pattern_stripped _ _ _ _ S) as (E & L1 & N2 & D2 & D3).
  assert (Ln : (List.length g2 <= MAX_STR_DIGITS)%nat \/ (MAX_STR_DIGITS < List.length g2)%nat)
    by lia.
  destruct Ln as [Ln | Ln].
  - rewrite (int_digits g2 D2 N2 Ln). unfold jsonify.
    destruct (fits _ && fits _ && fits _); [|discriminate].
    intros [= <-]. cbn [prefix suffix num_width base_num next_num base_url].
    exists g2. repeat split; try assumption; try reflexivity.
    + destruct g2; [congruence|]. cbn [List.length]. lia.
    + apply digits_value_nonneg.
    + intros A. unfold rebuild. cbn [prefix suffix num_width base_num].
      now rewrite (zfill_digits_value g2 A N2).
    + intros A. now destruct (re_search_pattern_sound _ _ _ _ A S).
  - assert (I : int g2 = TooManyDigits (List.length g2)).
    { destruct g2 as [|c d]; [congruence|].
      pose proof D2 as H'. cbn [forallb] in H'. apply andb_true_iff in H' as [Hc _].
      unfold int. cbn [skip_spaces]. rewrite (decimal_not_int_space c Hc).
      rewrite (decimal_not_mark c 45), (decimal_not_mark c 43) by (assumption || lia).
      unfold UNDERSCORE at 1. rewrite (decimal_not_mark c 95) by (assumption || lia).
      rewrite (scan_digits_run _ D2).
      destruct (Nat.ltb_spec MAX_STR_DIGITS (List.length (c :: d))); [reflexivity | lia]. }
    rewrite I. discriminate.
Qed.

Lemma parse_success_sound_witness :
  exists d,
    strip_text (text_of "https://a.example/v2/page/7")
    = (text_of "https://a.example/v2/page/" ++ d ++ [])%list
    /\ d <> [] /\ forallb is_decimal d = true.
Proof.
  destruct (parse_success_sound (text_of "https://a.example/v2/page/7")
              (pattern_of (text_of "https://a.example/v2/page/") [55%N] []))
    as (d & H1 & _ & H3 & H4 & _); [vm_compute; reflexivity|].
  exists d. exact (conj H1 (conj H3 H4)).
Defined.

(** For the inputs whose decimal digits are all ASCII digits, the
    no-numeric-sequence error is returned exactly when the input is not
    blank and its trimmed form either holds no digit or has a line feed
    before its last digit run. *)
Theorem parse_rejects_exactly (raw : text) :
  ascii_digits_only (strip_text raw) = true ->
  (parse raw = ParseError "No numeric sequence found in the URL"
   <-> strip_text raw <> []
       /\ (existsb ascii_digit (strip_text raw) = false
           \/ line_feed_before_last_run (strip_text raw) = true)).
Proof.
  intros Au. split.
  - intros H. assert (N : strip_text raw <> []).
    { intros E. apply strip_text_empty, parse_blank in E. congruence. }
    split; [exact N|].
    destruct (existsb ascii_digit (strip_text raw)) eqn:D; [right | now left].
    destruct (line_feed_before_last_run (strip_text raw)) eqn:L; [reflexivity|].
    exfalso.
    destruct (last_digit_run_exists _ D) as (p & d & s & E).
    unfold line_feed_before_last_run in L. rewrite E in L.
    destruct (last_digit_run_spec _ _ _ _ E) as (Eu & Nd & Hd & Hs & Hp).
    assert (S : re_search_pattern (strip_text raw) = Some (p, d, s)).
    { rewrite Eu at 1. rewrite Eu in Au.
      exact (re_search_last_run p d s Au (dot_no_line_feed _ L) Hp Nd Hd Hs). }
    unfold parse in H. destruct (strip_text raw) as [|c0 u0]; [congruence|].
    rewrite S in H. destruct (int d); try discriminate H.
    unfold jsonify in H. destruct (fits _ && fits _ && fits _); discriminate H.
  - intros [N [D | L]].
    + apply parse_digitless; [exact N | now apply no_ascii_digit_no_decimal].
    + unfold parse. destruct (strip_text raw) as [|c0 u0] eqn:U; [contradiction|].
      rewrite <- U in *.
      destruct (re_search_pattern (strip_text raw)) as [[[g1 g2] g3]|] eqn:S; [|reflexivity].
      destruct (re_search_pattern_sound _ _ _ _ Au S) as (L' & Lf).
      unfold line_feed_before_last_run in L. rewrite L' in L. congruence.
Qed.

Lemma parse_rejects_exactly_witness :
  parse [97; 10; 49]%N = ParseError "No numeric sequence found in the URL"
  <-> strip_text [97; 10; 49]%N <> []
      /\ (existsb ascii_digit (strip_text [97; 10; 49]%N) = false
          \/ line_feed_before_last_run (strip_text [97; 10; 49]%N) = true).
Proof.
  apply (parse_rejects_exactly [97; 10; 49]%N). vm_compute. reflexivity.
Defined.

#[local] Open Scope string_scope.
#[local] Open Scope Z_scope.

(* ------------------------------------------------------------------ *)
(** ** The generator monad                                             *)
(* ------------------------------------------------------------------ *)

Section GenFacts.
Context {A B : Type}.
Implicit Types (m : Gen A) (f : A -> Gen B) (r : Resources).

Lemma events_bind m f r :
  events (bind m f r)
  = (events (m r)
     ++ match outcome (m r) with
        | Returned a => events (f a (final (m r)))
        | Raised _ => []
        end)%list.
Proof.
  unfold bind, events, outcome, final.
  destruct (m r) as [[e1 r1] [a|x]]; cbn.
  - now destruct (f a r1) as [[e2 r2] o].
  - now rewrite List.app_nil_r.
Qed.

Lemma outcome_bind m f r :
  outcome (bind m f r)
  = match outcome (m r) with
    | Returned a => outcome (f a (final (m r)))
    | Raised x => Raised x
    end.
Proof.
  unfold bind, outcome, final.
  destruct (m r) as [[e1 r1] [a|x]]; cbn; [|reflexivity].
  now destruct (f a r1) as [[e2 r2] o].
Qed.

Lemma final_bind m f r :
  final (bind m f r)
  = match outcome (m r) with
    | Returned a => final (f a (final (m r)))
    | Raised _ => final (m r)
    end.
Proof.
  unfold bind, outcome, final.
  destruct (m r) as [[e1 r1] [a|x]]; cbn; [|reflexivity].
  now destruct (f a r1) as [[e2 r2] o].
Qed.

Lemma events_try m (h : Exn -> Gen A) r :
  events (try_except m h r)
  = (events (m r)
     ++ match outcome (m r) with
        | Returned _ => []
        | Raised x => events (h x (final (m r)))
        end)%list.
Proof.
  unfold try_except, events, outcome, final.
  destruct (m r) as [[e1 r1] [a|x]]; cbn.
  - now rewrite List.app_nil_r.
  - now destruct (h x r1) as [[e2 r2] o].
Qed.

Lemma outcome_try m (h : Exn -> Gen A) r :
  outcome (try_except m h r)
  = match outcome (m r) with
    | Returned a => Returned a
    | Raised x => outcome (h x (final (m r)))
    end.
Proof.
  unfold try_except, outcome, final.
  destruct (m r) as [[e1 r1] [a|x]]; cbn; [reflexivity|].
  now destruct (h x r1) as [[e2 r2] o].
Qed.

Lemma final_try m (h : Exn -> Gen A) r :
  final (try_except m h r)
  = match outcome (m r) with
    | Returned _ => final (m r)
    | Raised x => final (h x (final (m r)))
    end.
Proof.
  unfold try_except, outcome, final.
  destruct (m r) as [[e1 r1] [a|x]]; cbn; [reflexivity|].
  now destruct (h x r1) as [[e2 r2] o].
Qed.
End GenFacts.

Lemma log_if_run c msg r :
  visible (events (log_if c msg r)) = [] /\ final (log_if c msg r) = r
  /\ outcome (log_if c msg r) = Returned tt.
Proof. now destruct c. Qed.

Lemma visible_app a b : visible (a ++ b)%list = (visible a ++ visible b)%list.
Proof. apply filter_app. Qed.

Lemma count_app p a b : count p (a ++ b)%list = (count p a + count p b)%nat.
Proof. unfold count. now rewrite filter_app, List.length_app. Qed.

Lemma count_visible p evs :
  (forall e, p e = true -> is_log e = false) -> count p (visible evs) = count p evs.
Proof.
  intros H. unfold count, visible. induction evs as [|e evs IH]; [reflexivity|].
  cbn. destruct (p e) eqn:Pe.
  - rewrite (H e Pe). cbn. rewrite Pe. cbn. now rewrite IH.
  - destruct (is_log e); cbn; [|rewrite Pe]; exact IH.
Qed.

(** Splitting a stream at an event that is not a log splits its visible
    part at the same event. *)
Lemma visible_split evs pre e post :
  evs = (pre ++ e :: post)%list -> is_log e = false ->
  visible evs = (visible pre ++ e :: visible post)%list.
Proof. intros -> H. rewrite visible_app. cbn. now rewrite H. Qed.

(* ------------------------------------------------------------------ *)
(** ** One probe                                                       *)
(* ------------------------------------------------------------------ *)

(** Reduction restricted to the primitives of the monad and to the
    projections of the resources, so that the text of the messages and of
    the tables is never unfolded. *)
Ltac gen_cbn :=
  cbn [events outcome final fst snd yield ret raise modify call log_if lift
       app visible filter negb is_log].

Ltac res_cbn :=
  cbn [agent_cycle requests pw_running browser_open context_user_agent
       set_pw_running set_browser_open set_context_user_agent add_request
       stop_driver final fst snd raise ret].

Ltac gen_simpl :=
  repeat (rewrite ?events_bind, ?outcome_bind, ?final_bind,
            ?events_try, ?outcome_try, ?final_try; gen_cbn).

Lemma same_identity_refl r : same_identity r r.
Proof.
  repeat split. exists []. split; [now rewrite List.app_nil_r | constructor].
Qed.

Lemma same_identity_trans r1 r2 r3 :
  same_identity r1 r2 -> same_identity r2 r3 -> same_identity r1 r3.
Proof.
  intros (U1 & C1 & x1 & E1 & F1) (U2 & C2 & x2 & E2 & F2).
  repeat split; try congruence.
  exists (x1 ++ x2)%list. split.
  - now rewrite E2, E1, List.app_assoc.
  - apply Forall_app. split; [exact F1|]. now rewrite <- U1.
Qed.

Lemma same_identity_add_request url r : same_identity r (add_request url r).
Proof.
  repeat split. exists [mkRequest url (context_user_agent r)].
  split; [reflexivity|]. now repeat constructor.
Qed.

Lemma try_selectors_run cfg i buttons selectors r :
  visible (events (try_selectors cfg i buttons selectors r)) = []
  /\ final (try_selectors cfg i buttons selectors r) = r
  /\ outcome (try_selectors cfg i buttons selectors r)
     = Returned (existsb (fun sel => is_activated (buttons sel)) selectors).
Proof.
  induction selectors as [|sel l IH]; [now cbn|].
  cbn [try_selectors existsb].
  destruct (buttons sel) as [|e|e|fname]; cbn [is_activated orb]; try exact IH.
  - destruct (i <? 3)%nat; gen_simpl; exact IH.
  - destruct (i <? 3)%nat; gen_simpl; exact IH.
  - destruct (i <? 3)%nat, (auto_download cfg); now cbn.
Qed.

Lemma fits_bounded n : Z.abs n < 1000 -> fits n = true.
Proof.
  intros H. unfold fits. apply Z.ltb_lt.
  assert (L : 1000 <= STR_LIMIT).
  { unfold STR_LIMIT. change 1000 with (10 ^ 3).
    apply Z.pow_le_mono_r; [lia|]. unfold MAX_STR_DIGITS. lia. }
  generalize dependent STR_LIMIT. intros. lia.
Qed.

(** A status that is classified as a hit has a text. *)
Lemma hit_status_renders status ct cl :
  classify status ct cl = IsHit -> exists s, str status = Some s.
Proof.
  unfold classify, str.
  destruct (Z.eqb_spec status 200) as [->|]; [intros _; now rewrite fits_bounded; eauto|].
  destruct (Z.eqb_spec status 206) as [->|]; [intros _; now rewrite fits_bounded; eauto|].
  cbn [orb]. destruct (status =? 403); [discriminate|].
  destruct (status =? 429); discriminate.
Qed.

(** The [try] statement of a probe never raises: it yields a hit event
    exactly when the probe hits, and otherwise leaves [found] and
    [hit_this] as they were. *)
Lemma probe_attempt_run cfg w i j pad ext url found hit_this r :
  let x := probe_attempt cfg w i j pad ext url found hit_this r in
  visible (events x) = (if probe_hits cfg w i j then [Hit url (S found)] else [])
  /\ outcome x = Returned (if probe_hits cfg w i j then (S found, true)
                          else (found, hit_this))
  /\ same_identity r (final x).
Proof.
  unfold probe_attempt, probe_hits.
  destruct (click_mode cfg).
  - unfold click_probe. destruct (click w i) as [e|buttons].
    + destruct (i <? 3)%nat; gen_simpl; auto using same_identity_refl.
    + gen_simpl.
      destruct (try_selectors_run cfg i buttons CLICK_SELECTORS r) as (V & F & O).
      rewrite O, F. rewrite !visible_app, V.
      destruct (existsb _ CLICK_SELECTORS); gen_simpl.
      * auto using same_identity_refl.
      * destruct (i <? 3)%nat; gen_simpl; auto using same_identity_refl.
  - unfold direct_fetch. gen_simpl.
    destruct (fetch w i j) as [status headers|e].
    + pose proof (hit_status_renders status (content_type_of headers)
                    (dict_get headers "content-length")) as Hr.
      destruct (i <? 3)%nat; [unfold py_str; destruct (str status) as [st|]|];
        gen_simpl;
        destruct (classify status (content_type_of headers)
                    (dict_get headers "content-length"));
        try (destruct (Hr eq_refl) as [? Hx]; discriminate Hx);
        (destruct (auto_download cfg); [destruct (save_body w i j)|]);
        gen_simpl; auto using same_identity_add_request.
    + destruct (i <? 3)%nat; gen_simpl; auto using same_identity_add_request.
Qed.

Lemma call_run (reply : option Exn) r :
  events (call reply r) = [] /\ final (call reply r) = r
  /\ outcome (call reply r)
     = match reply with None => Returned tt | Some e => Raised e end.
Proof. now destruct reply. Qed.

(** One round of the loop over the extensions. *)
Lemma probe_run cfg w i j pad ext found hit_this r :
  let x := probe cfg w i j pad ext found hit_this r in
  let url := probe_url cfg pad ext in
  visible (events x)
  = (if probe_hits cfg w i j
     then [Checking url found i (max_n cfg); Hit url (S found)]
     else [Checking url found i (max_n cfg)])
  /\ outcome x
     = match sleep w i j with
       | Some e => Raised e
       | None => Returned (if probe_hits cfg w i j then (S found, true)
                           else (found, hit_this))
       end
  /\ same_identity r (final x).
Proof.
  unfold probe. fold (probe_url cfg pad ext). set (url := probe_url cfg pad ext).
  cbn zeta. gen_simpl.
  destruct (probe_attempt_run cfg w i j pad ext url found hit_this r) as (V & O & Sid).
  rewrite O. gen_simpl. rewrite !visible_app, V.
  destruct (call_run (sleep w i j) (final (probe_attempt cfg w i j pad ext url found hit_this r)))
    as (Ec & Fc & Oc).
  rewrite Oc, Ec, Fc.
  destruct (sleep w i j); gen_cbn; rewrite ?List.app_nil_r;
    (split; [now destruct (probe_hits cfg w i j) | split; [reflexivity | exact Sid]]).
Qed.

(* ------------------------------------------------------------------ *)
(** ** The text of the identifiers                                     *)
(* ------------------------------------------------------------------ *)

Lemma zero_pad_cases n width :
  zero_pad n width
  = if fits n then
      if fits_ssize width then Returned (padded n width)
      else Raised (OtherError SSIZE_ERROR)
    else Raised (OtherError STR_ERROR).
Proof. unfold zero_pad, str, padded. now destruct (fits n). Qed.

Lemma zero_pad_returned n width pad :
  zero_pad n width = Returned pad -> pad = padded n width.
Proof.
  rewrite zero_pad_cases. destruct (fits n); [|discriminate].
  destruct (fits_ssize width); [|discriminate]. now intros [= <-].
Qed.

Lemma range_preview_shape cfg preview :
  range_preview cfg = Returned preview -> exists a b, preview = Range a b.
Proof.
  unfold range_preview.
  destruct (zero_pad (start_num cfg) (scan_num_width cfg)); [|discriminate].
  destruct (zero_pad (start_num cfg + max_n cfg - 1) (scan_num_width cfg)); [|discriminate].
  intros [= <-]. unfold range_event. eauto.
Qed.




(* ------------------------------------------------------------------ *)
(** ** The loops and their outlines                                    *)
(* ------------------------------------------------------------------ *)

Lemma scan_exts_run cfg w i pad ext_list :
  forall j found hit_this r,
    let x := scan_exts cfg w i pad j ext_list found hit_this r in
    let o := exts_outline cfg (probe_hits cfg w i) (sleep w i) i pad j ext_list
               found hit_this in
    visible (events x) = fst o /\ outcome x = snd o /\ same_identity r (final x).
Proof.
  induction ext_list as [|ext l IH]; intros j found hit_this r.
  - cbn. auto using same_identity_refl.
  - cbn [scan_exts exts_outline]. cbn zeta. gen_simpl.
    destruct (probe_run cfg w i j pad ext found hit_this r) as (V & O & Sid).
    cbn zeta in V. rewrite O, !visible_app, V.
    destruct (sleep w i j) as [e|].
    + gen_cbn. rewrite List.app_nil_r.
      split; [now destruct (probe_hits cfg w i j) | auto].
    + cbn [fst snd].
      specialize (IH (S j) (if probe_hits cfg w i j then S found else found)
                    (hit_this || probe_hits cfg w i j)%bool
                    (final (probe cfg w i j pad ext found hit_this r))).
      cbn zeta in IH. destruct IH as (V' & O' & S').
      destruct (probe_hits cfg w i j); cbn [fst snd] in *;
        rewrite ?orb_true_r, ?orb_false_r in *;
        rewrite V', O'; (split; [reflexivity | split; [reflexivity|]]);
        eapply same_identity_trans; eassumption.
Qed.

Lemma scan_loop_run cfg w remaining :
  forall i found consecutive r,
    let x := scan_loop cfg w remaining i found consecutive r in
    let o := loop_outline cfg (probe_hits cfg w) (sleep w) remaining i found consecutive in
    visible (events x) = fst o /\ outcome x = snd o /\ same_identity r (final x).
Proof.
  induction remaining as [|n IH]; intros i found consecutive r.
  - cbn. auto using same_identity_refl.
  - cbn [scan_loop loop_outline]. cbn zeta. gen_simpl.
    destruct (zero_pad (start_num cfg + Z.of_nat i) (scan_num_width cfg)) as [pad|e];
      [|gen_simpl; cbn; auto using same_identity_refl].
    gen_simpl. set (l := ext_list_to_scan cfg).
    destruct (scan_exts_run cfg w i pad l 0%nat found false r) as (V & O & Sid).
    cbn zeta in V, O.
    destruct (exts_outline cfg (probe_hits cfg w i) (sleep w i) i pad 0 l found false)
      as [evs [[found' hit_this]|e]]; cbn [fst snd] in V, O; rewrite O, !visible_app, V.
    + cbn [fst snd].
      destruct (after_candidate (max_mis cfg) hit_this consecutive) as [c [|]].
      * cbn. auto.
      * specialize (IH (S i) found' c (final (scan_exts cfg w i pad 0 l found false r))).
        cbn zeta in IH. destruct IH as (V' & O' & S').
        rewrite V', O'. cbn [fst snd].
        split; [reflexivity | split; [reflexivity|]].
        eapply same_identity_trans; eassumption.
    + cbn. rewrite List.app_nil_r. auto.
Qed.

(* ------------------------------------------------------------------ *)
(** ** The whole scan                                                  *)
(* ------------------------------------------------------------------ *)

Lemma yield_logs_run msgs r :
  visible (events (yield_logs msgs r)) = [] /\ final (yield_logs msgs r) = r
  /\ outcome (yield_logs msgs r) = Returned tt.
Proof.
  induction msgs as [|m l IH]; [now cbn|].
  cbn [yield_logs]. gen_simpl. exact IH.
Qed.

Lemma gate_check_run cfg w r :
  visible (events (gate_check cfg w r)) = [] /\ final (gate_check cfg w r) = r
  /\ outcome (gate_check cfg w r) = Returned tt.
Proof.
  unfold gate_check.
  destruct (String.eqb (cookie_str cfg) "" && negb (click_mode cfg))%bool.
  - gen_simpl. destruct (yield_logs_run (gate_messages (gate w)) r) as (V & F & O).
    rewrite O, F, !visible_app, V.
    destruct (gate_raised (gate w)) as [[?|?|?]|]; now cbn.
  - apply log_if_run.
Qed.

Lemma launch_browser_run w r :
  let x := launch_browser w r in
  visible (events x) = []
  /\ same_requests r (final x)
  /\ context_user_agent (final x) = context_user_agent r
  /\ if launch_succeeds w then outcome x = Returned tt
     else exists e, outcome x = Raised e.
Proof.
  unfold launch_browser, launch_succeeds. fold (missing_browser).
  destruct (first_launch w) as [e|]; [|now cbn].
  change (contains "executable doesn't exist" (lower (exn_msg e))
          || contains "playwright install" (lower (exn_msg e))
          || contains "not found" (lower (exn_msg e)))%bool
    with (missing_browser e).
  destruct (missing_browser e); [|cbn; repeat split; eauto].
  destruct (install w) as [ie|]; [cbn; repeat split; eauto|].
  destruct (second_launch w) as [le|]; cbn; repeat split; eauto.
Qed.

Lemma open_page_run w r :
  let x := open_page w r in
  events x = [] /\ same_requests r (final x)
  /\ match new_page w with
     | None => outcome x = Returned tt
               /\ context_user_agent (final x) = hd EmptyString USER_AGENTS
     | Some e => outcome x = Raised e
     end.
Proof. unfold open_page. destruct (new_page w); cbn; repeat split. Qed.

Lemma browser_close_run w r :
  let x := browser_close w r in
  events x = [] /\ same_identity r (final x)
  /\ outcome x = match close w with None => Returned tt | Some e => Raised e end.
Proof.
  unfold browser_close. destruct (close w); cbn; repeat split;
    exists []; (split; [now rewrite List.app_nil_r | constructor]).
Qed.

(** Lines 183 to 430 against their outline. *)
Lemma scan_session_run cfg w r :
  let x := scan_session cfg w r in
  visible (events x) = fst (session_outline cfg w)
  /\ outcome x = snd (session_outline cfg w)
  /\ same_identity r (final x).
Proof.
  unfold scan_session, session_outline. gen_simpl.
  destruct (gate_check_run cfg w r) as (Vg & Fg & Og).
  rewrite Og, Fg, !visible_app, Vg. gen_simpl.
  unfold range_preview.
  destruct (zero_pad (start_num cfg) (scan_num_width cfg)) as [first_pad|e];
    [|gen_simpl; auto using same_identity_refl].
  destruct (zero_pad (start_num cfg + max_n cfg - 1) (scan_num_width cfg)) as [last_pad|e];
    [|gen_simpl; auto using same_identity_refl].
  unfold range_event. gen_simpl.
  destruct (scan_loop_run cfg w (Z.to_nat (max_n cfg)) 0%nat 0%nat 0%nat r) as (V & O & Sid).
  cbn zeta in V, O.
  rewrite O, !visible_app, V.
  destruct (snd (loop_outline cfg (probe_hits cfg w) (sleep w)
                   (Z.to_nat (max_n cfg)) 0 0 0)) as [found|e].
  - gen_simpl.
    destruct (browser_close_run w (final (scan_loop cfg w (Z.to_nat (max_n cfg)) 0 0 0 r)))
      as (Ec & Sc & Oc).
    rewrite Oc, Ec. destruct (close w) as [e|]; gen_cbn.
    + rewrite List.app_nil_r. split; [reflexivity|]. split; [reflexivity|].
      eapply same_identity_trans; eassumption.
    + gen_simpl. split; [reflexivity|]. split; [reflexivity|].
      eapply same_identity_trans; eassumption.
  - gen_cbn. rewrite List.app_nil_r. auto.
Qed.

(** Lines 142 to 430 against the outline of the session. *)
Lemma run_playwright_logic_run cfg w r :
  let x := run_playwright_logic cfg w r in
  visible (events x) = (if browser_ready w then fst (session_outline cfg w) else [])
  /\ if browser_ready w then outcome x = snd (session_outline cfg w)
     else exists e, outcome x = Raised e.
Proof.
  unfold run_playwright_logic, browser_ready.
  destruct (playwright_installed w); [|cbn; eauto].
  cbn [andb]. unfold with_sync_playwright.
  set (r0 := set_pw_running true r).
  change (visible (events (let (p, o) := (launch_browser w;; open_page w;; scan_session cfg w) r0 in
                           let (e, r') := p in (e, stop_driver r', o))))
    with (visible (events (match (launch_browser w;; open_page w;; scan_session cfg w) r0 with
                           | (e, r', o) => (e, stop_driver r', o) end))).
  assert (E : forall (y : list ScanEvent * Resources * Outcome unit),
             events (match y with (e, r', o) => (e, stop_driver r', o) end) = events y
             /\ outcome (match y with (e, r', o) => (e, stop_driver r', o) end) = outcome y)
    by (intros [[? ?] ?]; now cbn).
  destruct (E ((launch_browser w;; open_page w;; scan_session cfg w) r0)) as [-> ->].
  clear E. gen_simpl.
  destruct (launch_browser_run w r0) as (Vl & _ & _ & Ol). cbn zeta in Vl, Ol.
  rewrite !visible_app, Vl.
  destruct (launch_succeeds w); cbn [andb].
  - rewrite Ol. gen_simpl.
    destruct (open_page_run w (final (launch_browser w r0))) as (Eo & _ & Oo).
    cbn zeta in Eo, Oo. rewrite Eo.
    destruct (new_page w) as [e|]; cbn [succeeded].
    + rewrite Oo. gen_cbn. eauto.
    + destruct Oo as [Oo _]. rewrite Oo. cbn [app].
      destruct (scan_session_run cfg w (final (open_page w (final (launch_browser w r0)))))
        as (V & O & _).
      rewrite ?visible_app. gen_cbn. auto.
  - destruct Ol as [e Ol]. rewrite Ol. gen_cbn. eauto.
Qed.

Lemma generate_run cfg w r :
  visible (events (generate cfg w r))
  = (if starts cfg w then visible (events (run_playwright_logic cfg w r)) else [])
  /\ if starts cfg w then outcome (generate cfg w r) = Returned tt
     else exists e, outcome (generate cfg w r) = Raised e.
Proof.
  unfold generate, starts.
  destruct (String.eqb (cookie_str cfg) ""); cbn [orb].
  - rewrite events_bind, outcome_bind, events_try, outcome_try. gen_cbn.
    destruct (outcome (run_playwright_logic cfg w r)) as [[]|[?|?|?]];
      gen_cbn; rewrite ?visible_app; gen_cbn; rewrite ?List.app_nil_r; auto.
  - destruct (urlparse w (scan_base_url cfg)) as [e|]; cbn [succeeded].
    + gen_simpl. eauto.
    + gen_simpl. rewrite ?events_try, ?outcome_try.
      destruct (outcome (run_playwright_logic cfg w r)) as [[]|[?|?|?]];
        gen_cbn; rewrite ?visible_app; gen_cbn; rewrite ?List.app_nil_r; auto.
Qed.

(** The events other than logs of a whole scan. *)
Lemma scan_visible cfg w :
  visible (events (scan cfg w))
  = if starts cfg w && browser_ready w then fst (session_outline cfg w) else [].
Proof.
  unfold scan. destruct (generate_run cfg w initial) as [-> _].
  destruct (starts cfg w); [|reflexivity]. cbn [andb].
  apply run_playwright_logic_run.
Qed.

(* ------------------------------------------------------------------ *)
(** ** Resources of a scan                                             *)
(* ------------------------------------------------------------------ *)

Lemma run_playwright_logic_final cfg w r :
  let r' := final (run_playwright_logic cfg w r) in
  (if playwright_installed w
   then pw_running r' = false /\ browser_open r' = false
   else r' = r)
  /\ agent_cycle r' = agent_cycle r
  /\ exists extra,
       requests r' = (requests r ++ extra)%list
       /\ Forall (fun q => req_user_agent q = hd EmptyString USER_AGENTS) extra.
Proof.
  unfold run_playwright_logic.
  destruct (playwright_installed w).
  2:{ res_cbn. repeat split. exists []. now rewrite List.app_nil_r. }
  unfold with_sync_playwright. set (r0 := set_pw_running true r).
  set (body := launch_browser w;; open_page w;; scan_session cfg w).
  assert (E : forall (y : list ScanEvent * Resources * Outcome unit),
             final (match y with (e, r', o) => (e, stop_driver r', o) end)
             = stop_driver (final y)) by (intros [[? ?] ?]; reflexivity).
  change (final (let (p, o) := body r0 in let (e, r') := p in (e, stop_driver r', o)))
    with (final (match body r0 with (e, r', o) => (e, stop_driver r', o) end)).
  rewrite E. clear E. cbn zeta.
  split; [now res_cbn|].
  assert (G : agent_cycle (final (body r0)) = agent_cycle r
              /\ exists extra,
                   requests (final (body r0)) = (requests r ++ extra)%list
                   /\ Forall (fun q => req_user_agent q = hd EmptyString USER_AGENTS) extra).
  { subst body. rewrite final_bind.
    destruct (launch_browser_run w r0) as (_ & [Cl Rl] & _ & _). cbn zeta in Cl, Rl.
    destruct (outcome (launch_browser w r0)) as [[]|e].
    2:{ rewrite Cl, Rl. unfold r0. res_cbn. split; [reflexivity|]. exists []. now rewrite List.app_nil_r. }
    rewrite final_bind.
    destruct (open_page_run w (final (launch_browser w r0))) as (_ & [Co Ro] & Oo).
    cbn zeta in Co, Ro, Oo.
    destruct (new_page w) as [e|].
    - rewrite Oo, Co, Ro, Cl, Rl. unfold r0. res_cbn. split; [reflexivity|].
      exists []. now rewrite List.app_nil_r.
    - destruct Oo as [Oo Uo]. rewrite Oo.
      destruct (scan_session_run cfg w (final (open_page w (final (launch_browser w r0)))))
        as (_ & _ & (U & C & extra & Rq & F)).
      rewrite C, Co, Cl, Rq, Ro, Rl. unfold r0. res_cbn. split; [reflexivity|].
      exists extra. split; [reflexivity|]. now rewrite <- Uo. }
  destruct G as (C & extra & Rq & F). res_cbn. rewrite C, Rq. eauto.
Qed.

Lemma generate_final cfg w r :
  final (generate cfg w r)
  = if starts cfg w then final (run_playwright_logic cfg w r) else r.
Proof.
  unfold generate, starts.
  destruct (String.eqb (cookie_str cfg) ""); cbn [orb].
  - gen_simpl.
    destruct (outcome (run_playwright_logic cfg w r)) as [[]|[?|?|?]]; reflexivity.
  - destruct (urlparse w (scan_base_url cfg)) as [e|]; cbn [succeeded]; gen_simpl;
      [reflexivity|].
    destruct (outcome (run_playwright_logic cfg w r)) as [[]|[?|?|?]]; reflexivity.
Qed.

(** C9.  After a scan ends, on any path, no browser session is active:
    the Playwright driver is stopped and its browser is closed, whether
    the scan completed, stopped early or was ended by an exception. *)
Theorem session_released (cfg : ScanConfig) (w : World) :
  session_active (final (scan cfg w)) = false
  /\ pw_running (final (scan cfg w)) = false
  /\ browser_open (final (scan cfg w)) = false.
Proof.
  unfold scan, session_active. rewrite generate_final.
  destruct (starts cfg w); [|now cbn].
  destruct (run_playwright_logic_final cfg w initial) as (H & _).
  cbn zeta in H. destruct (playwright_installed w).
  - destruct H as [-> ->]. auto.
  - rewrite H. auto.
Qed.

(** C8, counterexample.  In a direct-fetch scan of two identifiers the
    second probe presents the same identity as the first, the first entry
    of the pool, and not the second entry that a round robin would give;
    nothing was drawn from the cycle over the pool. *)
Lemma identity_rotation_counterexample :
  map req_user_agent (requests (final (scan (sample_config 2 5) (sample_world (fun _ => false)))))
  = [round_robin_identity 0; round_robin_identity 0]
  /\ round_robin_identity 1 <> round_robin_identity 0
  /\ agent_cycle (final (scan (sample_config 2 5) (sample_world (fun _ => false)))) = 0%nat.
Proof. repeat split. vm_compute. discriminate. Qed.

(** C8, amended.  In every scan, each GET of a direct-fetch probe is
    issued through the request client of the browser context and presents
    the identity of that context, which is the first entry of the pool for
    all probes; the round robin over the pool is created but nothing is
    ever drawn from it. *)
Theorem probes_present_first_identity (cfg : ScanConfig) (w : World) :
  Forall (fun q => req_user_agent q = hd EmptyString USER_AGENTS)
         (requests (final (scan cfg w)))
  /\ agent_cycle (final (scan cfg w)) = 0%nat.
Proof.
  unfold scan. rewrite generate_final.
  destruct (starts cfg w); [|split; [constructor | reflexivity]].
  destruct (run_playwright_logic_final cfg w initial) as (_ & C & extra & R & F).
  cbn zeta in C, R. rewrite C, R. auto.
Qed.

(** C6.  When the automation engine is missing, or the browser binary is
    missing and cannot be installed (in general: whenever the scan does
    not get as far as an open page), the stream consists of log events
    only: no range is announced, no identifier is probed and no terminal
    event is emitted, although the last log says that the scan goes on. *)
Theorem no_fallback_scan (cfg : ScanConfig) (w : World) :
  browser_ready w = false ->
  visible (events (scan cfg w)) = []
  /\ requests (final (scan cfg w)) = [].
Proof.
  intros H. split; [now rewrite scan_visible, H, andb_false_r|].
  unfold scan. rewrite generate_final.
  destruct (starts cfg w); [|reflexivity].
  unfold run_playwright_logic, browser_ready in *.
  destruct (playwright_installed w); [|reflexivity].
  cbn [andb] in H. unfold with_sync_playwright.
  set (r0 := set_pw_running true initial).
  destruct (launch_browser_run w r0) as (_ & [_ Rl] & _ & Ol). cbn zeta in Rl, Ol.
  destruct (open_page_run w (final (launch_browser w r0))) as (_ & [_ Ro] & Oo).
  cbn zeta in Ro, Oo.
  assert (G : requests (final ((launch_browser w;; open_page w;; scan_session cfg w) r0)) = []).
  { rewrite final_bind. destruct (launch_succeeds w); cbn [andb] in H.
    - rewrite Ol, final_bind. destruct (new_page w); [|discriminate].
      now rewrite Oo, Ro, Rl.
    - destruct Ol as [e ->]. exact Rl. }
  destruct ((launch_browser w;; open_page w;; scan_session cfg w) r0) as [[? ?] ?].
  exact G.
Qed.

Lemma no_fallback_scan_witness :
  events (scan (sample_config 500 50) missing_binary_world)
  = [Log "🌐 Chromium missing at /opt/app/browsers. Attempting install...";
     Log "⚠ Browser auto-install failed: Command returned non-zero exit status 1";
     Log "⚠ Browser error: Command returned non-zero exit status 1 — continuing anyway."]
  /\ events (scan (sample_config 500 50) missing_engine_world)
     = [Log "⚠ Playwright not installed — scanning without gate bypass."]
  /\ visible (events (scan (sample_config 500 50) missing_binary_world)) = []
  /\ requests (final (scan (sample_config 500 50) missing_binary_world)) = [].
Proof.
  split; [reflexivity|]. split; [reflexivity|].
  apply (no_fallback_scan (sample_config 500 50) missing_binary_world). reflexivity.
Defined.

(* ------------------------------------------------------------------ *)
(** ** Classification of a direct-fetch response                       *)
(* ------------------------------------------------------------------ *)

Lemma hit_not_log e : is_hit e = true -> is_log e = false.
Proof. now destruct e. Qed.

(** A probe yields one hit event when it hits and none otherwise. *)
Lemma probe_hit_events cfg w i j pad ext found hit_this r :
  count is_hit (events (probe cfg w i j pad ext found hit_this r))
  = if probe_hits cfg w i j then 1%nat else 0%nat.
Proof.
  rewrite <- (count_visible is_hit) by apply hit_not_log.
  destruct (probe_run cfg w i j pad ext found hit_this r) as (V & _).
  cbn zeta in V. rewrite V. now destruct (probe_hits cfg w i j).
Qed.

(* ------------------------------------------------------------------ *)
(** ** The classification of a response                            *)
(* ------------------------------------------------------------------ *)

Lemma dict_get_in headers k v :
  is_dict headers -> In (k, v) headers -> dict_get headers k = Some v.
Proof.
  unfold is_dict. induction headers as [|[k0 v0] l IH]; cbn [map fst In dict_get];
    [contradiction|].
  intros D H. inversion D as [|? ? Hn D']; subst.
  destruct H as [[= -> ->] | H].
  - now rewrite String.eqb_refl.
  - destruct (String.eqb_spec k0 k) as [->|_]; [|now apply IH].
    exfalso. apply Hn. apply (in_map fst) in H. exact H.
Qed.

Lemma dict_get_some headers k v : dict_get headers k = Some v -> In (k, v) headers.
Proof.
  induction headers as [|[k0 v0] l IH]; cbn [dict_get In]; [discriminate|].
  destruct (String.eqb_spec k0 k) as [->|_]; [intros [= ->]; now left|].
  intros H. right. now apply IH.
Qed.

Lemma dict_get_none headers k :
  (forall v, ~ In (k, v) headers) -> dict_get headers k = None.
Proof.
  intros H. destruct (dict_get headers k) as [v|] eqn:E; [|reflexivity].
  now apply dict_get_some, H in E.
Qed.

Lemma split_char_head s : hd "" (split_char ";" s) = before_semicolon s.
Proof.
  induction s as [|c s IH]; [reflexivity|]. cbn [split_char before_semicolon].
  destruct (Ascii.eqb c ";"); [reflexivity|].
  destruct (split_char ";" s) as [|h t]; cbn [hd] in *; now rewrite <- IH.
Qed.

Lemma lower_char_semicolon c : Ascii.eqb (lower_char c) ";" = Ascii.eqb c ";".
Proof. destruct c as [[|] [|] [|] [|] [|] [|] [|] [|]]; reflexivity. Qed.

Lemma before_semicolon_lower s : before_semicolon (lower s) = lower (before_semicolon s).
Proof.
  induction s as [|c s IH]; [reflexivity|]. cbn [lower before_semicolon].
  rewrite lower_char_semicolon. destruct (Ascii.eqb c ";"); [reflexivity|].
  cbn [lower]. now rewrite IH.
Qed.

(** The content type that the probe reads is the media type of the
    header, in lower case and trimmed. *)
Lemma content_type_of_header headers raw :
  is_dict headers -> In ("content-type", raw) headers ->
  content_type_of headers = strip (lower (before_semicolon raw)).
Proof.
  intros D H. unfold content_type_of. rewrite (dict_get_in _ _ _ D H).
  now rewrite split_char_head, before_semicolon_lower.
Qed.

Lemma content_type_not_html headers :
  not_html headers -> in_strings (content_type_of headers) HTML_CTYPES = false.
Proof.
  intros H. unfold content_type_of.
  destruct (dict_get headers "content-type") as [raw|] eqn:E; [|reflexivity].
  rewrite split_char_head, before_semicolon_lower.
  apply dict_get_some in E. exact (H raw E).
Qed.

(** *** The numeral of a content length *)

Lemma digits_of_uint u : forall_chars is_digit (NilEmpty.string_of_uint u) = true.
Proof. induction u; cbn [NilEmpty.string_of_uint forall_chars]; rewrite ?IHu; reflexivity. Qed.

Lemma text_of_cons c s : text_of (String c s) = N_of_ascii c :: text_of s.
Proof. reflexivity. Qed.

Lemma length_text_of s : List.length (text_of s) = String.length s.
Proof.
  induction s as [|c s IH]; [reflexivity|]. rewrite text_of_cons. cbn [List.length String.length].
  now rewrite IH.
Qed.

Lemma text_of_uint u :
  forallb ascii_digit (text_of (NilEmpty.string_of_uint u)) = true
  /\ uint_of_digits (text_of (NilEmpty.string_of_uint u)) = u.
Proof.
  induction u as [|u [IH1 IH2]|u [IH1 IH2]|u [IH1 IH2]|u [IH1 IH2]|u [IH1 IH2]
                  |u [IH1 IH2]|u [IH1 IH2]|u [IH1 IH2]|u [IH1 IH2]|u [IH1 IH2]];
    [split; reflexivity|..];
    cbn [NilEmpty.string_of_uint]; rewrite text_of_cons;
    cbn [forallb uint_of_digits]; rewrite IH1, IH2; split; reflexivity.
Qed.

Lemma string_of_uint_nonempty u : u <> Decimal.Nil -> NilEmpty.string_of_uint u <> "".
Proof. destruct u; [congruence | discriminate..]. Qed.

Lemma pos_to_uint_nonnil p : Pos.to_uint p <> Decimal.Nil.
Proof.
  intros E. pose proof (DecimalPos.Unsigned.of_to p) as H.
  rewrite E in H. discriminate H.
Qed.

(** The numeral of an integer that is not negative is made of digits and
    reads as the integer. *)
Lemma decimal_nonneg n :
  0 <= n ->
  exists u, decimal n = NilEmpty.string_of_uint u /\ u <> Decimal.Nil /\ Z.of_uint u = n.
Proof.
  intros H. unfold decimal. destruct n as [|p|p]; [| |lia].
  - exists (Decimal.D0 Decimal.Nil). repeat split. discriminate.
  - exists (Pos.to_uint p). pose proof (pos_to_uint_nonnil p) as Np.
    split; [|split; [exact Np|]].
    + change (NilZero.string_of_int (Z.to_int (Z.pos p)))
        with (NilZero.string_of_uint (Pos.to_uint p)).
      destruct (Pos.to_uint p); [congruence | reflexivity..].
    + change (Z.of_uint (Pos.to_uint p)) with (Z.of_int (Z.to_int (Z.pos p))).
      apply DecimalZ.of_to.
Qed.

(** [int] reads the numeral of an integer that is not negative and has
    at most 4300 digits as that integer. *)
Lemma py_int_decimal n :
  0 <= n -> (String.length (decimal n) <= MAX_STR_DIGITS)%nat ->
  py_int (decimal n) = Some n.
Proof.
  intros H L. destruct (decimal_nonneg n H) as (u & E & Nu & V).
  unfold py_int. rewrite E in *.
  destruct (text_of_uint u) as [D U].
  rewrite int_digits.
  - unfold digits_value. now rewrite U, V.
  - now apply ascii_run_is_decimal.
  - pose proof (string_of_uint_nonempty u Nu) as Ne.
    destruct (NilEmpty.string_of_uint u); [congruence | discriminate].
  - now rewrite length_text_of.
Qed.

Lemma decimal_small n :
  0 <= n < 10000 -> (String.length (decimal n) <= MAX_STR_DIGITS)%nat.
Proof.
  intros H.
  assert (T : forallb (fun k => (String.length (decimal (Z.of_nat k)) <=? 4)%nat)
                (seq 0 (Z.to_nat 10000)) = true) by (vm_compute; reflexivity).
  rewrite forallb_forall in T. specialize (T (Z.to_nat n)).
  rewrite Z2Nat.id in T by lia.
  assert (I : In (Z.to_nat n) (seq 0 (Z.to_nat 10000))) by (apply in_seq; lia).
  apply T, Nat.leb_le in I. unfold MAX_STR_DIGITS. lia.
Qed.

(** C3.  In direct-fetch mode, for a probe answered with status 200 or
    206 and the headers of the response: a content-type header that is
    HTML-like (text/html, text/plain, text/xml or application/xhtml+xml,
    in any letter case, with or without parameters) makes the probe a
    miss whatever the size; without such a header, a content-length
    header that is the numeral of a length below 10000 makes it a miss;
    without such a header, a content-length of 10000 or more, or no
    content-length header, makes it a hit, which yields its hit event
    unless saving the body was asked for and fails.  In particular a
    content length of 9999 is never a hit, and 10000 with video/mp4 is a
    hit. *)
Theorem classification_boundary (cfg : ScanConfig) (w : World) (i j : nat)
    (pad ext : string) (found : nat) (hit_this : bool) (r : Resources)
    (status : Z) (headers : list (string * string)) :
  click_mode cfg = false ->
  fetch w i j = Response status headers ->
  status = 200 \/ status = 206 ->
  is_dict headers ->
  let attempt := probe_attempt cfg w i j pad ext (probe_url cfg pad ext) found hit_this r in
  let hit_events := count is_hit (events (probe cfg w i j pad ext found hit_this r)) in
  (forall raw, In ("content-type", raw) headers -> html_like raw = true ->
     hit_events = 0%nat /\ outcome attempt = Returned (found, hit_this))
  /\ (not_html headers ->
      forall n, In ("content-length", decimal n) headers -> 0 <= n < 10000 ->
      hit_events = 0%nat /\ outcome attempt = Returned (found, hit_this))
  /\ (not_html headers ->
      (forall v, ~ In ("content-length", v) headers)
      \/ (exists n, In ("content-length", decimal n) headers /\ 10000 <= n
                    /\ (String.length (decimal n) <= MAX_STR_DIGITS)%nat) ->
      auto_download cfg = false \/ save_body w i j = None ->
      hit_events = 1%nat /\ outcome attempt = Returned (S found, true))
  /\ (In ("content-length", "9999") headers -> hit_events = 0%nat)
  /\ (In ("content-type", "video/mp4") headers ->
      In ("content-length", "10000") headers ->
      auto_download cfg = false \/ save_body w i j = None -> hit_events = 1%nat).
Proof.
  intros Hm Hf Hs Hd attempt hit_events.
  set (ct := content_type_of headers). set (cl := dict_get headers "content-length").
  assert (St : ((status =? 200) || (status =? 206))%bool = true)
    by (destruct Hs as [-> | ->]; reflexivity).
  assert (P : probe_hits cfg w i j
              = match classify status ct cl with
                | IsHit => if auto_download cfg
                           then match save_body w i j with None => true | Some _ => false end
                           else true
                | _ => false
                end) by (unfold probe_hits; now rewrite Hm, Hf).
  assert (E : hit_events = if probe_hits cfg w i j then 1%nat else 0%nat)
    by apply probe_hit_events.
  assert (O : outcome attempt = Returned (if probe_hits cfg w i j then (S found, true)
                                          else (found, hit_this))).
  { destruct (probe_attempt_run cfg w i j pad ext (probe_url cfg pad ext) found hit_this r)
      as (_ & O & _). exact O. }
  assert (Html : forall raw, In ("content-type", raw) headers -> html_like raw = true ->
                 probe_hits cfg w i j = false).
  { intros raw Hin Hh. rewrite P. unfold classify. rewrite St. subst ct.
    rewrite (content_type_of_header headers raw Hd Hin). unfold html_like in Hh.
    now rewrite Hh. }
  assert (Small : forall n, not_html headers -> In ("content-length", decimal n) headers ->
                  0 <= n < 10000 -> probe_hits cfg w i j = false).
  { intros n Hn Hin Hb. rewrite P. unfold classify. rewrite St. subst ct cl.
    rewrite (content_type_not_html headers Hn), (dict_get_in _ _ _ Hd Hin).
    rewrite (py_int_decimal n) by (try apply decimal_small; lia).
    destruct (Z.ltb_spec n 10000); [reflexivity | lia]. }
  assert (Large : not_html headers ->
                  (forall v, ~ In ("content-length", v) headers)
                  \/ (exists n, In ("content-length", decimal n) headers /\ 10000 <= n
                                /\ (String.length (decimal n) <= MAX_STR_DIGITS)%nat) ->
                  auto_download cfg = false \/ save_body w i j = None ->
                  probe_hits cfg w i j = true).
  { intros Hn Hl Hsave. rewrite P. unfold classify. rewrite St. subst ct cl.
    rewrite (content_type_not_html headers Hn).
    assert (C : match dict_get headers "content-length" with
                | None => IsHit
                | Some v => match py_int v with
                            | None => LengthError
                            | Some n => if n <? 10000 then SkipSmall else IsHit
                            end
                end = IsHit).
    { destruct Hl as [Ha | (n & Hin & Hb & Hlen)].
      - now rewrite (dict_get_none _ _ Ha).
      - rewrite (dict_get_in _ _ _ Hd Hin), (py_int_decimal n) by (assumption || lia).
        destruct (Z.ltb_spec n 10000); [lia | reflexivity]. }
    rewrite C. destruct Hsave as [-> | ->]; [reflexivity|].
    now destruct (auto_download cfg). }
  split; [intros raw Hin Hh; now rewrite E, O, (Html raw Hin Hh)|].
  split; [intros Hn n Hin Hb; now rewrite E, O, (Small n Hn Hin Hb)|].
  split; [intros Hn Hl Hsave; now rewrite E, O, (Large Hn Hl Hsave)|].
  split.
  - intros Hin. rewrite E.
    destruct (dict_get headers "content-type") as [raw|] eqn:G.
    + apply dict_get_some in G. destruct (html_like raw) eqn:Hh.
      * now rewrite (Html raw G Hh).
      * rewrite (Small 9999); [reflexivity | | exact Hin | lia].
        intros raw' Hin'. pose proof (dict_get_in _ _ _ Hd G) as G1.
        pose proof (dict_get_in _ _ _ Hd Hin') as G2. congruence.
    + rewrite (Small 9999); [reflexivity | | exact Hin | lia].
      intros raw' Hin'. pose proof (dict_get_in _ _ _ Hd Hin') as G2. congruence.
  - intros Ht Hl Hsave. rewrite E, Large; [reflexivity | | | exact Hsave].
    + intros raw Hin. pose proof (dict_get_in _ _ _ Hd Ht) as G1.
      pose proof (dict_get_in _ _ _ Hd Hin) as G2.
      assert (raw = "video/mp4") by congruence. subst raw. reflexivity.
    + right. exists 10000. split; [exact Hl|]. split; [lia|].
      apply Nat.leb_le. reflexivity.
Qed.

Lemma classification_boundary_witness :
  count is_hit
    (events (probe (sample_config 10 10)
               (answering 200 [("content-type", "Text/HTML; charset=utf-8");
                               ("content-length", "123456")])
               0 0 "00042" ".mp4" 0 false initial)) = 0%nat
  /\ count is_hit
       (events (probe (sample_config 10 10)
                  (answering 206 [("content-type", "video/mp4"); ("content-length", "9999")])
                  0 0 "00042" ".mp4" 0 false initial)) = 0%nat
  /\ count is_hit
       (events (probe (sample_config 10 10)
                  (answering 200 [("content-type", "video/mp4"); ("content-length", "10000")])
                  0 0 "00042" ".mp4" 0 false initial)) = 1%nat.
Proof.
  assert (D : forall a b, is_dict [("content-type", a); ("content-length", b)]).
  { intros a b. unfold is_dict. cbn [map fst]. repeat constructor; cbn [In].
    - intros [H | []]. discriminate H.
    - intros []. }
  split; [|split].
  - pose proof (classification_boundary (sample_config 10 10)
                  (answering 200 [("content-type", "Text/HTML; charset=utf-8");
                                  ("content-length", "123456")])
                  0 0 "00042" ".mp4" 0 false initial 200 _
                  eq_refl eq_refl (or_introl eq_refl) (D _ _)) as H.
    cbn zeta in H. destruct H as (H1 & _).
    apply (H1 "Text/HTML; charset=utf-8"); [now left | reflexivity].
  - pose proof (classification_boundary (sample_config 10 10)
                  (answering 206 [("content-type", "video/mp4"); ("content-length", "9999")])
                  0 0 "00042" ".mp4" 0 false initial 206 _
                  eq_refl eq_refl (or_intror eq_refl) (D _ _)) as H.
    cbn zeta in H. destruct H as (_ & _ & _ & H4 & _).
    apply H4. right. now left.
  - pose proof (classification_boundary (sample_config 10 10)
                  (answering 200 [("content-type", "video/mp4"); ("content-length", "10000")])
                  0 0 "00042" ".mp4" 0 false initial 200 _
                  eq_refl eq_refl (or_introl eq_refl) (D _ _)) as H.
    cbn zeta in H. destruct H as (_ & _ & _ & _ & H5).
    apply H5; [now left | right; now left | left; reflexivity].
Defined.

(* ------------------------------------------------------------------ *)
(** ** The hit counter                                                 *)
(* ------------------------------------------------------------------ *)

Lemma count_cons p e evs :
  count p (e :: evs) = ((if p e then 1 else 0) + count p evs)%nat.
Proof. unfold count. cbn [filter]. now destruct (p e). Qed.

Lemma counted_app k a b :
  counted k a -> count is_done a = 0%nat ->
  counted (k + count is_hit a) b -> counted k (a ++ b)%list.
Proof.
  revert k. induction a as [|e a IH]; intros k Ha Hd Hb.
  - cbn [app]. change (count is_hit []) with 0%nat in Hb.
    now rewrite Nat.add_0_r in Hb.
  - rewrite count_cons in Hd, Hb.
    destruct e; cbn [counted app is_hit is_done Nat.add] in Ha, Hd, Hb |- *;
      try discriminate Hd.
    + now apply IH.
    + now apply IH.
    + destruct Ha as [-> Ha]. split; [reflexivity|]. now apply IH.
    + destruct Ha as [-> Ha]. split; [reflexivity|].
      apply IH; [assumption..|]. now rewrite Nat.add_succ_r in Hb.
    + now apply IH.
Qed.

Lemma counted_split_hit k evs pre url f post :
  counted k evs -> evs = (pre ++ Hit url f :: post)%list ->
  f = S (k + count is_hit pre).
Proof.
  intros H ->. revert k H. induction pre as [|e pre IH]; intros k H.
  - cbn [app counted] in H. destruct H as [-> _].
    change (count is_hit []) with 0%nat. now rewrite Nat.add_0_r.
  - rewrite count_cons.
    destruct e; cbn [counted app is_hit Nat.add] in H |- *.
    + now apply IH.
    + now apply IH.
    + destruct H as [_ H]. now apply IH.
    + destruct H as [_ H]. rewrite (IH _ H). now rewrite Nat.add_succ_r.
    + now apply IH.
    + destruct H as (_ & _ & H). now apply IH.
Qed.

Lemma counted_split_checking k evs pre url f i t post :
  counted k evs -> evs = (pre ++ Checking url f i t :: post)%list ->
  f = (k + count is_hit pre)%nat.
Proof.
  intros H ->. revert k H. induction pre as [|e pre IH]; intros k H.
  - cbn [app counted] in H. destruct H as [-> _].
    change (count is_hit []) with 0%nat. now rewrite Nat.add_0_r.
  - rewrite count_cons.
    destruct e; cbn [counted app is_hit Nat.add] in H |- *.
    + now apply IH.
    + now apply IH.
    + destruct H as [_ H]. now apply IH.
    + destruct H as [_ H]. rewrite (IH _ H). now rewrite Nat.add_succ_r.
    + now apply IH.
    + destruct H as (_ & _ & H). now apply IH.
Qed.

Lemma counted_split_done k evs pre f post :
  counted k evs -> evs = (pre ++ Done f :: post)%list ->
  f = (k + count is_hit pre)%nat /\ count is_hit post = 0%nat.
Proof.
  intros H ->. revert k H. induction pre as [|e pre IH]; intros k H.
  - cbn [app counted] in H. destruct H as (-> & Hp & _).
    change (count is_hit []) with 0%nat. now rewrite Nat.add_0_r.
  - rewrite count_cons.
    destruct e; cbn [counted app is_hit Nat.add] in H |- *.
    + now apply IH.
    + now apply IH.
    + destruct H as [_ H]. now apply IH.
    + destruct H as [_ H]. destruct (IH _ H) as [-> Hp].
      now rewrite Nat.add_succ_r.
    + now apply IH.
    + destruct H as (_ & _ & H). now apply IH.
Qed.

Lemma exts_outline_counted cfg hits naps i pad ext_list :
  forall j found hit_this,
    let o := exts_outline cfg hits naps i pad j ext_list found hit_this in
    counted found (fst o) /\ count is_terminal (fst o) = 0%nat
    /\ forall f h, snd o = Returned (f, h) -> f = (found + count is_hit (fst o))%nat.
Proof.
  induction ext_list as [|ext l IH]; intros j found hit_this.
  - cbn [exts_outline fst snd counted]. repeat split.
    intros f h [= <- _]. change (count is_hit []) with 0%nat. now rewrite Nat.add_0_r.
  - cbn [exts_outline]. cbn zeta.
    destruct (naps j) as [e|].
    + destruct (hits j); cbn [fst snd counted]; rewrite !count_cons;
        cbn [is_terminal is_stopped is_done orb Nat.add];
        (split; [auto|]); (split; [reflexivity | discriminate]).
    + destruct (hits j).
      * destruct (IH (S j) (S found) (hit_this || true)%bool) as (C & T & F).
        cbn zeta in C, T, F. cbn [fst snd app counted]. rewrite !count_cons.
        cbn [is_terminal is_stopped is_done is_hit orb Nat.add].
        split; [auto|]. split; [exact T|]. intros f h E. rewrite (F f h E). lia.
      * destruct (IH (S j) found (hit_this || false)%bool) as (C & T & F).
        cbn zeta in C, T, F. cbn [fst snd app counted]. rewrite !count_cons.
        cbn [is_terminal is_stopped is_done is_hit orb Nat.add].
        split; [auto|]. split; [exact T|]. intros f h E. now rewrite (F f h E).
Qed.

Lemma terminal_zero_done evs : count is_terminal evs = 0%nat -> count is_done evs = 0%nat.
Proof.
  induction evs as [|e evs IH]; [reflexivity|].
  rewrite !count_cons. unfold is_terminal.
  destruct e; cbn [is_stopped is_done orb Nat.add]; try discriminate; exact IH.
Qed.

Lemma terminal_zero_stopped evs :
  count is_terminal evs = 0%nat -> count is_stopped evs = 0%nat.
Proof.
  induction evs as [|e evs IH]; [reflexivity|].
  rewrite !count_cons. unfold is_terminal.
  destruct e; cbn [is_stopped is_done orb Nat.add]; try discriminate; exact IH.
Qed.

(** The loop over the identifiers keeps the counter, yields no done
    event, and yields at most one stopped event, as its last event. *)
Lemma loop_outline_counted cfg hits naps remaining :
  forall i found consecutive,
    let o := loop_outline cfg hits naps remaining i found consecutive in
    counted found (fst o) /\ count is_done (fst o) = 0%nat
    /\ (forall f, snd o = Returned f -> f = (found + count is_hit (fst o))%nat)
    /\ (count is_terminal (fst o) = 0%nat
        \/ exists body f,
             fst o = (body ++ [Stopped (stop_reason (max_mis cfg))])%list
             /\ count is_terminal body = 0%nat /\ snd o = Returned f).
Proof.
  induction remaining as [|n IH]; intros i found consecutive.
  - cbn. repeat split; auto. intros f [= <-]. now rewrite Nat.add_0_r.
  - cbn [loop_outline]. cbn zeta.
    destruct (zero_pad (start_num cfg + Z.of_nat i) (scan_num_width cfg)) as [pad|e0];
      [|cbn; repeat split; auto; discriminate].
    destruct (exts_outline_counted cfg (hits i) (naps i) i pad (ext_list_to_scan cfg)
                0%nat found false) as (C & T & F). cbn zeta in C, T, F.
    destruct (exts_outline cfg (hits i) (naps i) i pad 0 (ext_list_to_scan cfg) found false)
      as [evs [[found' hit_this]|e]]; cbn [fst snd] in *.
    2:{ repeat split; auto using terminal_zero_done. discriminate. }
    specialize (F _ _ eq_refl).
    destruct (after_candidate (max_mis cfg) hit_this consecutive) as [c [|]]; cbn [fst snd].
    + split; [|split; [|split]].
      * apply counted_app; auto using terminal_zero_done. now cbn.
      * rewrite count_app, (terminal_zero_done _ T). reflexivity.
      * intros f [= <-]. rewrite count_app. cbn. lia.
      * right. exists evs, found'. auto.
    + destruct (IH (S i) found' c) as (C' & D' & F' & S'). cbn zeta in C', D', F', S'.
      split; [|split; [|split]].
      * apply counted_app; auto using terminal_zero_done. now rewrite <- F.
      * rewrite count_app, (terminal_zero_done _ T), D'. reflexivity.
      * intros f E. rewrite (F' f E), count_app. lia.
      * destruct S' as [S' | (body & f & Eb & Tb & Ob)].
        -- left. rewrite count_app, T, S'. reflexivity.
        -- right. exists (evs ++ body)%list, f. rewrite Eb, List.app_assoc.
           split; [reflexivity|]. split; [|exact Ob].
           rewrite count_app, T, Tb. reflexivity.
Qed.

Lemma session_outline_counted cfg w : counted 0 (fst (session_outline cfg w)).
Proof.
  unfold session_outline.
  destruct (range_preview cfg) as [preview|e] eqn:P; [|exact I].
  destruct (range_preview_shape _ _ P) as (a & b & ->). cbn zeta.
  destruct (loop_outline_counted cfg (probe_hits cfg w) (sleep w)
              (Z.to_nat (max_n cfg)) 0%nat 0%nat 0%nat) as (C & D & F & _).
  cbn zeta in C, D, F.
  destruct (snd (loop_outline cfg (probe_hits cfg w) (sleep w) (Z.to_nat (max_n cfg)) 0 0 0))
    as [found|e]; [|exact C].
  destruct (close w); [exact C|].
  cbn [fst counted]. apply counted_app; [exact C | exact D |].
  cbn. rewrite (F found eq_refl). auto.
Qed.

Lemma scan_counted cfg w : counted 0 (visible (events (scan cfg w))).
Proof.
  rewrite scan_visible. destruct (starts cfg w && browser_ready w); [|exact I].
  apply session_outline_counted.
Qed.

(** C10.  In the event stream of every scan the hit counter is
    consistent: the n-th hit event carries found = n, every checking event
    carries the number of hit events emitted before it, and a done event
    carries the total number of hit events of the stream. *)
Theorem hit_counter_consistent (cfg : ScanConfig) (w : World)
    (pre post : list ScanEvent) :
  (forall url f,
     events (scan cfg w) = (pre ++ Hit url f :: post)%list ->
     f = S (count is_hit pre))
  /\ (forall url f i total,
        events (scan cfg w) = (pre ++ Checking url f i total :: post)%list ->
        f = count is_hit pre)
  /\ (forall f,
        events (scan cfg w) = (pre ++ Done f :: post)%list ->
        f = count is_hit (events (scan cfg w))).
Proof.
  pose proof (scan_counted cfg w) as C.
  repeat split.
  - intros url f E.
    rewrite (counted_split_hit 0 _ _ url f _ C (visible_split _ _ _ _ E eq_refl)).
    now rewrite (count_visible is_hit) by apply hit_not_log.
  - intros url f i total E.
    rewrite (counted_split_checking 0 _ _ url f i total _ C (visible_split _ _ _ _ E eq_refl)).
    now rewrite (count_visible is_hit) by apply hit_not_log.
  - intros f E.
    destruct (counted_split_done 0 _ _ f _ C (visible_split _ _ _ _ E eq_refl)) as [-> P].
    rewrite (count_visible is_hit) in P by apply hit_not_log.
    rewrite (count_visible is_hit) by apply hit_not_log.
    rewrite E, count_app, count_cons, P. cbn. lia.
Qed.

Lemma hit_counter_consistent_witness :
  exists pre url post,
    events (scan (sample_config 10 10) (sample_world (fun i => Nat.eqb i 2 || Nat.eqb i 3)))
    = (pre ++ Hit url 2 :: post)%list
    /\ 2%nat = S (count is_hit pre).
Proof.
  set (evs := events (scan (sample_config 10 10)
                        (sample_world (fun i => Nat.eqb i 2 || Nat.eqb i 3)))).
  exists (firstn 11 evs), "https://a.example/clip00045.mp4", (skipn 12 evs).
  assert (E : evs = (firstn 11 evs ++ Hit "https://a.example/clip00045.mp4" 2 :: skipn 12 evs)%list)
    by (vm_compute; reflexivity).
  split; [exact E|].
  destruct (hit_counter_consistent (sample_config 10 10)
              (sample_world (fun i => Nat.eqb i 2 || Nat.eqb i 3))
              (firstn 11 evs) (skipn 12 evs)) as (H & _).
  exact (H _ _ E).
Defined.

(* ------------------------------------------------------------------ *)
(** ** The stopping rule                                               *)
(* ------------------------------------------------------------------ *)

Lemma checked_indices_app a b :
  checked_indices (a ++ b) = (checked_indices a ++ checked_indices b)%list.
Proof.
  induction a as [|e a IH]; [reflexivity|].
  destruct e; cbn [app checked_indices]; now rewrite IH.
Qed.


(** The loop over the extensions of one identifier, when no sleep
    raises: it announces the identifier once per extension, emits no
    terminal event, and reports a hit when one of the probes hits. *)
Lemma exts_outline_returned cfg hits naps i pad ext_list :
  forall j found hit_this found' h,
    snd (exts_outline cfg hits naps i pad j ext_list found hit_this) = Returned (found', h) ->
    h = (hit_this || existsb hits (seq j (List.length ext_list)))%bool
    /\ count is_terminal (fst (exts_outline cfg hits naps i pad j ext_list found hit_this))
       = 0%nat
    /\ checked_indices (fst (exts_outline cfg hits naps i pad j ext_list found hit_this))
       = repeat i (List.length ext_list).
Proof.
  induction ext_list as [|ext l IH]; intros j found hit_this found' h.
  - cbn. intros [= <- <-]. now rewrite orb_false_r.
  - cbn [exts_outline]. destruct (naps j); [discriminate|]. cbn [fst snd].
    intros H. destruct (IH _ _ _ _ _ H) as (-> & T & C).
    cbn [List.length seq existsb repeat]. rewrite count_app, T, checked_indices_app, C.
    split; [now rewrite orb_assoc|].
    destruct (hits j); split; reflexivity.
Qed.

(** The loop over the identifiers against the rule: when it returns, it
    has probed the identifiers in order, each with every extension, up to
    the first one at which the run of consecutive misses reaches
    maxMisses, where it emits the stopped event; and all of them when
    there is no such identifier. *)
Lemma loop_outline_rule cfg w n :
  forall i found c f,
    miss_run (identifier_hits cfg w) i
    = (if identifier_hits cfg w i then 0 else S c)%nat ->
    snd (loop_outline cfg (probe_hits cfg w) (sleep w) n i found c) = Returned f ->
    exists body,
      count is_terminal body = 0%nat
      /\ match find (stops_after cfg w) (seq i n) with
         | Some i0 =>
             fst (loop_outline cfg (probe_hits cfg w) (sleep w) n i found c)
             = (body ++ [Stopped (stop_reason (max_mis cfg))])%list
             /\ checked_indices body
                = flat_map (fun k => repeat k (List.length (ext_list_to_scan cfg)))
                    (seq i (S i0 - i))
         | None =>
             fst (loop_outline cfg (probe_hits cfg w) (sleep w) n i found c) = body
             /\ checked_indices body
                = flat_map (fun k => repeat k (List.length (ext_list_to_scan cfg)))
                    (seq i n)
         end.
Proof.
  induction n as [|n IH]; intros i found c f Hc.
  - intros _. exists []. repeat split.
  - cbn [loop_outline seq find].
    destruct (zero_pad (start_num cfg + Z.of_nat i) (scan_num_width cfg)) as [pad|e0];
      [|discriminate].
    pose proof (exts_outline_returned cfg (probe_hits cfg w i) (sleep w i) i pad
                  (ext_list_to_scan cfg) 0%nat found false) as X.
    destruct (exts_outline cfg (probe_hits cfg w i) (sleep w i) i pad 0
                (ext_list_to_scan cfg) found false) as [evs [[found' h]|e]];
      [|discriminate].
    destruct (X found' h eq_refl) as (Eh & T & C). cbn [orb fst] in Eh, T, C.
    fold (identifier_hits cfg w i) in Eh.
    unfold stops_after at 1. rewrite Hc, <- Eh. unfold after_candidate.
    destruct h; cbn [negb andb].
    + cbn [fst snd]. intros H.
      assert (Hc' : miss_run (identifier_hits cfg w) (S i)
                    = (if identifier_hits cfg w (S i) then 0 else 1)%nat)
        by (cbn [miss_run]; now rewrite Hc, <- Eh).
      destruct (IH (S i) found' 0%nat f Hc' H) as (body & Tb & R).
      exists (evs ++ body)%list. split; [now rewrite count_app, T, Tb|].
      destruct (find (stops_after cfg w) (seq (S i) n)) as [i0|] eqn:F.
      * destruct R as [-> Cb]. split; [now rewrite List.app_assoc|].
        apply find_some in F as [Hin _]. apply in_seq in Hin.
        replace (S i0 - i)%nat with (S (S i0 - S i)) by lia.
        cbn [seq flat_map]. now rewrite checked_indices_app, C, Cb.
      * destruct R as [-> Cb]. split; [reflexivity|].
        cbn [flat_map]. now rewrite checked_indices_app, C, Cb.
    + destruct (max_mis cfg <=? Z.of_nat (S c)); cbn [fst snd].
      * intros _. exists evs. split; [exact T|]. split; [reflexivity|].
        replace (S i - i)%nat with 1%nat by lia. cbn [seq flat_map].
        now rewrite List.app_nil_r.
      * intros H.
        assert (Hc' : miss_run (identifier_hits cfg w) (S i)
                      = (if identifier_hits cfg w (S i) then 0 else S (S c))%nat)
          by (cbn [miss_run]; now rewrite Hc, <- Eh).
        destruct (IH (S i) found' (S c) f Hc' H) as (body & Tb & R).
        exists (evs ++ body)%list. split; [now rewrite count_app, T, Tb|].
        destruct (find (stops_after cfg w) (seq (S i) n)) as [i0|] eqn:F.
        -- destruct R as [-> Cb]. split; [now rewrite List.app_assoc|].
           apply find_some in F as [Hin _]. apply in_seq in Hin.
           replace (S i0 - i)%nat with (S (S i0 - S i)) by lia.
           cbn [seq flat_map]. now rewrite checked_indices_app, C, Cb.
        -- destruct R as [-> Cb]. split; [reflexivity|].
           cbn [flat_map]. now rewrite checked_indices_app, C, Cb.
Qed.

Lemma miss_run_start hit : miss_run hit 0 = (if hit 0%nat then 0 else 1)%nat.
Proof. reflexivity. Qed.

(** The session that returns: its range event, the events of its loop
    and its done event. *)
Lemma session_outline_returned cfg w :
  snd (session_outline cfg w) = Returned tt ->
  exists a b found,
    range_preview cfg = Returned (Range a b)
    /\ snd (loop_outline cfg (probe_hits cfg w) (sleep w) (Z.to_nat (max_n cfg)) 0 0 0)
       = Returned found
    /\ fst (session_outline cfg w)
       = (Range a b
          :: fst (loop_outline cfg (probe_hits cfg w) (sleep w) (Z.to_nat (max_n cfg)) 0 0 0)
          ++ [Done found])%list.
Proof.
  unfold session_outline.
  destruct (range_preview cfg) as [preview|e] eqn:P; [|discriminate].
  destruct (range_preview_shape _ _ P) as (a & b & ->). cbn zeta.
  destruct (snd (loop_outline cfg (probe_hits cfg w) (sleep w) (Z.to_nat (max_n cfg)) 0 0 0))
    as [found|e]; [|discriminate].
  destruct (close w); [discriminate|]. intros _. exists a, b, found. auto.
Qed.

(** The events other than logs of a scan whose browser phase returns. *)
Lemma returned_scan cfg w :
  starts cfg w = true ->
  outcome (run_playwright_logic cfg w initial) = Returned tt ->
  exists a b body found,
    count is_terminal body = 0%nat
    /\ checked_indices body
       = flat_map (fun k => repeat k (List.length (ext_list_to_scan cfg)))
           (seq 0 (scanned cfg w))
    /\ visible (events (scan cfg w))
       = (Range a b :: body
          ++ match early_stop cfg w with
             | Some _ => [Stopped (stop_reason (max_mis cfg))]
             | None => []
             end
          ++ [Done found])%list.
Proof.
  intros Hs H.
  destruct (run_playwright_logic_run cfg w initial) as (_ & O). cbn zeta in O.
  pose proof (scan_visible cfg w) as V. rewrite Hs in V. cbn [andb] in V.
  destruct (browser_ready w).
  2:{ destruct O as [e O]. rewrite O in H. discriminate. }
  rewrite H in O. symmetry in O.
  destruct (session_outline_returned cfg w O) as (a & b & found & _ & L & E).
  destruct (loop_outline_rule cfg w (Z.to_nat (max_n cfg)) 0%nat 0%nat 0%nat found
              (miss_run_start _) L) as (body & T & R).
  exists a, b, body, found. split; [exact T|].
  rewrite V, E. unfold scanned, early_stop.
  destruct (find (stops_after cfg w) (seq 0 (Z.to_nat (max_n cfg)))) as [i0|].
  - destruct R as [-> C]. rewrite Nat.sub_0_r in C. split; [exact C|].
    now rewrite <- List.app_assoc.
  - destruct R as [-> C]. split; [exact C | reflexivity].
Qed.

(* ------------------------------------------------------------------ *)
(** ** Terminal events                                                 *)
(* ------------------------------------------------------------------ *)

Lemma with_sync_playwright_run {A} (body : Gen A) r :
  events (with_sync_playwright body r) = events (body (set_pw_running true r))
  /\ outcome (with_sync_playwright body r) = outcome (body (set_pw_running true r))
  /\ final (with_sync_playwright body r) = stop_driver (final (body (set_pw_running true r))).
Proof.
  unfold with_sync_playwright. now destruct (body (set_pw_running true r)) as [[? ?] ?].
Qed.

Lemma ends_with_done_app f a b : ends_with_done f b -> ends_with_done f (a ++ b)%list.
Proof. intros [front ->]. exists (a ++ front)%list. now rewrite List.app_assoc. Qed.

Lemma ends_with_done_cons f e b : ends_with_done f b -> ends_with_done f (e :: b).
Proof. intros [front ->]. now exists (e :: front). Qed.

Lemma ends_with_done_last f : ends_with_done f [Done f].
Proof. now exists []. Qed.

Lemma scan_session_ends cfg w r :
  outcome (scan_session cfg w r) = Returned tt ->
  exists f, ends_with_done f (events (scan_session cfg w r)).
Proof.
  unfold scan_session. gen_simpl.
  destruct (gate_check_run cfg w r) as (_ & Fg & Og). rewrite Og, Fg. gen_simpl.
  destruct (range_preview cfg) as [preview|e]; [|discriminate]. gen_simpl.
  destruct (outcome (scan_loop cfg w (Z.to_nat (max_n cfg)) 0 0 0 r)) as [found|e];
    [|discriminate].
  gen_simpl.
  destruct (browser_close_run w (final (scan_loop cfg w (Z.to_nat (max_n cfg)) 0 0 0 r)))
    as (_ & _ & Oc).
  rewrite Oc. destruct (close w); [discriminate|]. intros _. exists found.
  apply ends_with_done_app. do 2 apply ends_with_done_cons.
  do 2 apply ends_with_done_app. cbn. apply ends_with_done_cons, ends_with_done_last.
Qed.

Lemma run_playwright_logic_ends cfg w r :
  outcome (run_playwright_logic cfg w r) = Returned tt ->
  exists f, ends_with_done f (events (run_playwright_logic cfg w r)).
Proof.
  unfold run_playwright_logic. destruct (playwright_installed w); [|discriminate].
  destruct (with_sync_playwright_run
              (launch_browser w;; open_page w;; scan_session cfg w) r) as (-> & -> & _).
  set (r0 := set_pw_running true r). gen_simpl.
  destruct (outcome (launch_browser w r0)) as [[]|e]; [|discriminate].
  gen_simpl.
  destruct (outcome (open_page w (final (launch_browser w r0)))) as [[]|e]; [|discriminate].
  intros H. destruct (scan_session_ends _ _ _ H) as [f E]. exists f.
  now do 2 apply ends_with_done_app.
Qed.

Lemma scan_ends cfg w :
  starts cfg w = true ->
  outcome (run_playwright_logic cfg w initial) = Returned tt ->
  exists f, ends_with_done f (events (scan cfg w)).
Proof.
  intros Hs H. destruct (run_playwright_logic_ends _ _ _ H) as [f E]. exists f.
  unfold scan, generate. unfold starts in Hs.
  destruct (String.eqb (cookie_str cfg) ""); cbn [orb] in Hs.
  - gen_simpl. rewrite H, List.app_nil_r. exact E.
  - destruct (urlparse w (scan_base_url cfg)); [discriminate Hs|].
    gen_simpl. rewrite H, List.app_nil_r. now apply ends_with_done_cons.
Qed.

Lemma done_not_log e : is_done e = true -> is_log e = false.
Proof. now destruct e. Qed.

Lemma stopped_not_log e : is_stopped e = true -> is_log e = false.
Proof. now destruct e. Qed.

Lemma checking_not_log e : is_checking e = true -> is_log e = false.
Proof. now destruct e. Qed.

Lemma terminal_zero_both evs :
  count is_terminal evs = 0%nat ->
  count is_stopped evs = 0%nat /\ count is_done evs = 0%nat.
Proof.
  induction evs as [|e evs IH]; [now split|].
  rewrite !count_cons. destruct e; cbn [is_terminal is_stopped is_done orb];
    try discriminate; intros H; exact (IH H).
Qed.

(** C1, counterexample.  A scan that stops early on consecutive misses
    emits both terminal events, stopped and then done; a scan whose
    browser cannot be launched emits none. *)
Lemma terminal_events_counterexample :
  count is_terminal (events (scan (sample_config 500 5) (sample_world (fun _ => false))))
  = 2%nat
  /\ visible (events (scan (sample_config 500 5) (sample_world (fun _ => false))))
     = [Range "https://a.example/clip00042.mp4" "https://a.example/clip00541.mp4";
        Checking "https://a.example/clip00042.mp4" 0 0 500;
        Checking "https://a.example/clip00043.mp4" 0 1 500;
        Checking "https://a.example/clip00044.mp4" 0 2 500;
        Checking "https://a.example/clip00045.mp4" 0 3 500;
        Checking "https://a.example/clip00046.mp4" 0 4 500;
        Stopped "5 consecutive misses"; Done 0]
  /\ count is_terminal (events (scan (sample_config 500 50) missing_binary_world)) = 0%nat.
Proof. repeat split; vm_compute; reflexivity. Qed.

(** C1, amended.  Every scan that reaches its browser phase and whose
    browser phase returns without an exception ends its event stream
    with exactly one done event, the last event of the stream.  It emits
    a stopped event exactly when the loop stops early, that is when some
    identifier of the range is missed while the count of consecutive
    misses has reached maxMisses; the stopped event then carries the
    reason built from maxMisses and is the last event other than a log
    before the done event, so that an early-stopped scan emits both
    terminal events, stopped and then done, and a scan that reaches maxN
    emits done only. *)
Theorem terminal_events (cfg : ScanConfig) (w : World) :
  starts cfg w = true ->
  outcome (run_playwright_logic cfg w initial) = Returned tt ->
  exists body f,
    count is_terminal body = 0%nat
    /\ visible (events (scan cfg w))
       = (body
          ++ match early_stop cfg w with
             | Some _ => [Stopped (stop_reason (max_mis cfg))]
             | None => []
             end
          ++ [Done f])%list
    /\ ends_with_done f (events (scan cfg w))
    /\ count is_done (events (scan cfg w)) = 1%nat
    /\ count is_stopped (events (scan cfg w))
       = match early_stop cfg w with Some _ => 1%nat | None => 0%nat end.
Proof.
  intros Hs H.
  destruct (returned_scan cfg w Hs H) as (a & b & body & found & T & _ & V).
  destruct (scan_ends cfg w Hs H) as (f' & front & E).
  destruct (terminal_zero_both _ T) as [Ts Td].
  assert (F : f' = found).
  { assert (V' : visible (events (scan cfg w)) = (visible front ++ [Done f'])%list)
      by (rewrite E, visible_app; reflexivity).
    rewrite V in V'.
    change (Range a b :: body ++ ?x ++ [Done found])%list
      with ((Range a b :: body) ++ x ++ [Done found])%list in V'.
    rewrite !List.app_assoc in V'. apply app_inj_tail in V' as [_ [= ->]]. reflexivity. }
  subst f'. exists (Range a b :: body), found.
  split; [now rewrite count_cons, T|]. split; [exact V|].
  split; [now exists front|].
  rewrite <- (count_visible is_done) by apply done_not_log.
  rewrite <- (count_visible is_stopped) by apply stopped_not_log.
  rewrite V, !count_cons, !count_app, Ts, Td.
  destruct (early_stop cfg w); split; reflexivity.
Qed.

Lemma terminal_events_witness :
  exists body f,
    count is_terminal body = 0%nat
    /\ visible (events (scan (sample_config 500 5) (sample_world (fun _ => false))))
       = (body ++ [Stopped (stop_reason 5)] ++ [Done f])%list
    /\ ends_with_done f (events (scan (sample_config 500 5) (sample_world (fun _ => false))))
    /\ count is_done (events (scan (sample_config 500 5) (sample_world (fun _ => false))))
       = 1%nat
    /\ count is_stopped (events (scan (sample_config 500 5) (sample_world (fun _ => false))))
       = 1%nat.
Proof.
  apply (terminal_events (sample_config 500 5) (sample_world (fun _ => false)));
    vm_compute; reflexivity.
Defined.

(* ------------------------------------------------------------------ *)
(** ** The loop with a single extension                                *)
(* ------------------------------------------------------------------ *)

Section SingleExtension.
Variables (cfg : ScanConfig) (hits : nat -> nat -> bool)
          (naps : nat -> nat -> option Exn) (e : string) (bound : nat).
Hypothesis single : ext_list_to_scan cfg = [e].
Hypothesis awake : forall i j, naps i j = None.
Hypothesis rendered :
  forall i, (i < bound)%nat ->
    zero_pad (start_num cfg + Z.of_nat i) (scan_num_width cfg)
    = Returned (padded (start_num cfg + Z.of_nat i) (scan_num_width cfg)).




End SingleExtension.







(* ------------------------------------------------------------------ *)
(** ** Early stop and completion                                       *)
(* ------------------------------------------------------------------ *)


Lemma count_map_zero p (f : nat -> ScanEvent) l :
  (forall k, p (f k) = false) -> count p (map f l) = 0%nat.
Proof.
  intros H. induction l as [|k l IH]; [reflexivity|].
  cbn [map]. rewrite count_cons, H, IH. reflexivity.
Qed.







(* ------------------------------------------------------------------ *)
(** ** Fault isolation of a probe                                      *)
(* ------------------------------------------------------------------ *)




(* ------------------------------------------------------------------ *)
(** ** Further properties of a probe                                   *)
(* ------------------------------------------------------------------ *)

(** A response whose status is neither 200 nor 206 is never a hit: the
    probe yields no hit event and leaves the counters as they were. *)
Theorem other_status_is_miss (cfg : ScanConfig) (w : World) (i j : nat)
    (pad ext : string) (found : nat) (hit_this : bool) (r : Resources)
    (status : Z) (headers : list (string * string)) :
  click_mode cfg = false ->
  fetch w i j = Response status headers ->
  status <> 200 -> status <> 206 ->
  count is_hit (events (probe cfg w i j pad ext found hit_this r)) = 0%nat
  /\ outcome (probe_attempt cfg w i j pad ext (probe_url cfg pad ext) found hit_this r)
     = Returned (found, hit_this).
Proof.
  intros Hm Hf H1 H2.
  assert (P : probe_hits cfg w i j = false).
  { unfold probe_hits. rewrite Hm, Hf. unfold classify.
    destruct (Z.eqb_spec status 200); [contradiction|].
    destruct (Z.eqb_spec status 206); [contradiction|]. cbn [orb].
    destruct (status =? 403); [reflexivity|]. destruct (status =? 429); reflexivity. }
  split.
  - now rewrite probe_hit_events, P.
  - destruct (probe_attempt_run cfg w i j pad ext (probe_url cfg pad ext) found hit_this r)
      as (_ & O & _). cbn zeta in O. now rewrite O, P.
Qed.

Lemma other_status_is_miss_witness :
  count is_hit (events (probe (sample_config 10 10) (sample_world (fun _ => false)) 0 0
                          "00042" ".mp4" 0 false initial)) = 0%nat
  /\ outcome (probe_attempt (sample_config 10 10) (sample_world (fun _ => false)) 0 0
                "00042" ".mp4" (probe_url (sample_config 10 10) "00042" ".mp4")
                0 false initial)
     = Returned (0%nat, false).
Proof.
  apply (other_status_is_miss (sample_config 10 10) (sample_world (fun _ => false)) 0 0
           "00042" ".mp4" 0 false initial 404 []); try reflexivity; discriminate.
Defined.

(** A 200 or 206 response that is not HTML-like and whose content-length
    header is not an integer literal is a miss: the conversion error is
    handled by the probe, which yields no hit event and does not raise. *)
Theorem malformed_length_is_miss (cfg : ScanConfig) (w : World) (i j : nat)
    (pad ext : string) (found : nat) (hit_this : bool) (r : Resources)
    (status : Z) (headers : list (string * string)) (v : string) :
  click_mode cfg = false ->
  fetch w i j = Response status headers ->
  status = 200 \/ status = 206 ->
  in_strings (content_type_of headers) HTML_CTYPES = false ->
  dict_get headers "content-length" = Some v ->
  py_int v = None ->
  classify status (content_type_of headers) (Some v) = LengthError
  /\ count is_hit (events (probe cfg w i j pad ext found hit_this r)) = 0%nat
  /\ outcome (probe_attempt cfg w i j pad ext (probe_url cfg pad ext) found hit_this r)
     = Returned (found, hit_this).
Proof.
  intros Hm Hf Hs Hc Hl Hv.
  assert (C : classify status (content_type_of headers) (Some v) = LengthError).
  { unfold classify. rewrite Hc, Hv.
    destruct Hs as [-> | ->]; reflexivity. }
  assert (P : probe_hits cfg w i j = false)
    by (unfold probe_hits; now rewrite Hm, Hf, Hl, C).
  split; [exact C|]. split.
  - now rewrite probe_hit_events, P.
  - destruct (probe_attempt_run cfg w i j pad ext (probe_url cfg pad ext) found hit_this r)
      as (_ & O & _). cbn zeta in O. now rewrite O, P.
Qed.

Lemma malformed_length_is_miss_witness :
  classify 200 "video/mp4" (Some "10 MB") = LengthError.
Proof.
  pose (w := answering 200 [("content-type", "video/mp4"); ("content-length", "10 MB")]).
  destruct (malformed_length_is_miss (sample_config 10 10) w 0 0 "00042" ".mp4" 0 false
              initial 200 [("content-type", "video/mp4"); ("content-length", "10 MB")]
              "10 MB" eq_refl eq_refl (or_introl eq_refl) eq_refl eq_refl eq_refl)
    as (C & _).
  exact C.
Defined.

(** The events other than logs of the session: none, or the range event
    followed by the events of the loop and, when the loop returns and the
    browser closes, by the done event. *)
Lemma session_outline_shape cfg w :
  let o := loop_outline cfg (probe_hits cfg w) (sleep w) (Z.to_nat (max_n cfg)) 0 0 0 in
  fst (session_outline cfg w) = []
  \/ exists a b,
       fst (session_outline cfg w) = Range a b :: fst o
       \/ exists found,
            snd o = Returned found
            /\ fst (session_outline cfg w) = (Range a b :: fst o ++ [Done found])%list.
Proof.
  cbn zeta. unfold session_outline.
  destruct (range_preview cfg) as [preview|e] eqn:P; [|now left].
  destruct (range_preview_shape _ _ P) as (a & b & ->). right. exists a, b.
  destruct (snd (loop_outline cfg (probe_hits cfg w) (sleep w) (Z.to_nat (max_n cfg)) 0 0 0))
    as [found|e]; [|now left].
  destruct (close w); [now left|]. right. now exists found.
Qed.

(* ------------------------------------------------------------------ *)
(** ** Further properties of the loop                                  *)
(* ------------------------------------------------------------------ *)

Lemma Forall_visible (P : ScanEvent -> Prop) evs :
  (forall e, is_log e = true -> P e) -> Forall P (visible evs) -> Forall P evs.
Proof.
  intros HL. induction evs as [|e evs IH]; [constructor|].
  unfold visible. cbn [filter]. fold (visible evs).
  destruct (is_log e) eqn:L; cbn [negb].
  - intros H. constructor; auto.
  - intros H. inversion H; subst. constructor; auto.
Qed.

Lemma exts_outline_bounded cfg hits naps i pad ext_list :
  (i < Z.to_nat (max_n cfg))%nat ->
  forall j found hit_this,
    let o := exts_outline cfg hits naps i pad j ext_list found hit_this in
    (count is_checking (fst o) <= List.length ext_list)%nat
    /\ Forall (checking_in_range cfg) (fst o).
Proof.
  intros Hi. induction ext_list as [|ext l IH]; intros j found hit_this.
  - cbn [exts_outline fst]. split; [apply Nat.le_refl | constructor].
  - cbn [exts_outline List.length]. cbn zeta.
    destruct (naps j) as [e|].
    + destruct (hits j); cbn [fst]; rewrite !count_cons;
        cbn [is_checking Nat.add]; change (count is_checking []) with 0%nat;
        (split; [lia|]); repeat constructor; assumption.
    + destruct (hits j).
      * destruct (IH (S j) (S found) (hit_this || true)%bool) as (C & F).
        cbn zeta in C, F. cbn [fst app]. rewrite !count_cons.
        cbn [is_checking Nat.add]. split; [lia|].
        repeat constructor; assumption.
      * destruct (IH (S j) found (hit_this || false)%bool) as (C & F).
        cbn zeta in C, F. cbn [fst app]. rewrite !count_cons.
        cbn [is_checking Nat.add]. split; [lia|].
        repeat constructor; assumption.
Qed.

Lemma loop_outline_bounded cfg hits naps remaining :
  forall i found consecutive,
    (i + remaining <= Z.to_nat (max_n cfg))%nat ->
    let o := loop_outline cfg hits naps remaining i found consecutive in
    (count is_checking (fst o) <= remaining * List.length (ext_list_to_scan cfg))%nat
    /\ Forall (checking_in_range cfg) (fst o).
Proof.
  induction remaining as [|n IH]; intros i found consecutive Hi.
  - cbn [loop_outline fst]. split; [apply Nat.le_refl | constructor].
  - cbn [loop_outline]. cbn zeta.
    destruct (zero_pad (start_num cfg + Z.of_nat i) (scan_num_width cfg)) as [pad|e0];
      [|cbn [fst]; split; [apply Nat.le_0_l | constructor]].
    destruct (exts_outline_bounded cfg (hits i) (naps i) i pad
                (ext_list_to_scan cfg) ltac:(lia) 0%nat found false) as (C & F).
    cbn zeta in C, F.
    destruct (exts_outline cfg (hits i) (naps i) i _ 0 (ext_list_to_scan cfg) found false)
      as [evs [[found' hit_this]|e]]; cbn [fst snd] in *.
    2:{ split; [lia | exact F]. }
    destruct (after_candidate (max_mis cfg) hit_this consecutive) as [c [|]]; cbn [fst].
    + rewrite count_app, count_cons. cbn [is_checking Nat.add].
      change (count is_checking []) with 0%nat. split; [lia|].
      apply Forall_app. split; [exact F | repeat constructor].
    + destruct (IH (S i) found' c ltac:(lia)) as (C' & F'). cbn zeta in C', F'.
      rewrite count_app. split; [lia|]. apply Forall_app. auto.
Qed.

(** A scan announces at most maxN identifiers, each at most once per
    extension scanned: the number of checking events is at most maxN
    times the number of extensions (one in click mode), every checking
    event carries an index below maxN and the total maxN, and a scan with
    maxN <= 0 checks nothing. *)
Theorem scan_is_bounded (cfg : ScanConfig) (w : World) :
  (count is_checking (events (scan cfg w))
   <= Z.to_nat (max_n cfg) * List.length (ext_list_to_scan cfg))%nat
  /\ Forall (checking_in_range cfg) (events (scan cfg w))
  /\ (max_n cfg <= 0 -> count is_checking (events (scan cfg w)) = 0%nat)
  /\ (click_mode cfg = true ->
      (count is_checking (events (scan cfg w)) <= Z.to_nat (max_n cfg))%nat).
Proof.
  assert (B : (count is_checking (events (scan cfg w))
               <= Z.to_nat (max_n cfg) * List.length (ext_list_to_scan cfg))%nat
              /\ Forall (checking_in_range cfg) (events (scan cfg w))).
  { rewrite <- (count_visible is_checking) by apply checking_not_log.
    assert (V : (count is_checking (visible (events (scan cfg w)))
                 <= Z.to_nat (max_n cfg) * List.length (ext_list_to_scan cfg))%nat
                /\ Forall (checking_in_range cfg) (visible (events (scan cfg w)))).
    { rewrite scan_visible. destruct (starts cfg w && browser_ready w).
      2:{ split; [apply Nat.le_0_l | constructor]. }
      destruct (loop_outline_bounded cfg (probe_hits cfg w) (sleep w)
                  (Z.to_nat (max_n cfg)) 0%nat 0%nat 0%nat ltac:(lia)) as (C & F).
      cbn zeta in C, F.
      destruct (session_outline_shape cfg w) as [-> | (a & b & [-> | (found & _ & ->)])].
      - split; [apply Nat.le_0_l | constructor].
      - rewrite count_cons. cbn [is_checking Nat.add].
        split; [exact C | constructor; [exact I | exact F]].
      - rewrite count_cons, count_app, count_cons. cbn [is_checking Nat.add].
        change (count is_checking []) with 0%nat. split; [lia|].
        constructor; [exact I|]. apply Forall_app. split; [exact F | repeat constructor]. }
    destruct V as [C F]. split; [exact C|].
    apply Forall_visible; [|exact F]. intros e L. now destruct e. }
  destruct B as [C F]. split; [exact C|]. split; [exact F|]. split.
  - intros H. replace (Z.to_nat (max_n cfg)) with 0%nat in C by lia. lia.
  - intros H. unfold ext_list_to_scan in C. rewrite H in C. cbn [List.length] in C. lia.
Qed.

Lemma scan_is_bounded_witness :
  count is_checking (events (scan (sample_config 0 5) (sample_world (fun _ => true)))) = 0%nat.
Proof.
  destruct (scan_is_bounded (sample_config 0 5) (sample_world (fun _ => true)))
    as (_ & _ & H & _).
  apply H. cbn. lia.
Defined.

Lemma loop_outline_never_stops cfg hits naps remaining :
  forall i found consecutive,
    Z.of_nat (consecutive + remaining) < max_mis cfg ->
    count is_stopped (fst (loop_outline cfg hits naps remaining i found consecutive))
    = 0%nat.
Proof.
  induction remaining as [|n IH]; intros i found consecutive H; [reflexivity|].
  cbn [loop_outline].
  destruct (zero_pad (start_num cfg + Z.of_nat i) (scan_num_width cfg)) as [pad|e0];
    [|reflexivity].
  destruct (exts_outline_counted cfg (hits i) (naps i) i pad
              (ext_list_to_scan cfg) 0%nat found false) as (_ & T & _).
  cbn zeta in T. apply terminal_zero_stopped in T.
  destruct (exts_outline cfg (hits i) (naps i) i _ 0 (ext_list_to_scan cfg) found false)
    as [evs [[found' hit_this]|e]]; cbn [fst snd] in *; [|exact T].
  unfold after_candidate. destruct hit_this.
  - cbn [fst]. rewrite count_app, T. apply IH. lia.
  - destruct (Z.leb_spec (max_mis cfg) (Z.of_nat (S consecutive))); [lia|].
    cbn [fst]. rewrite count_app, T. apply IH. lia.
Qed.

(** When maxMisses exceeds maxN the scan never stops early: no stopped
    event is emitted, whatever the probes answer. *)
Theorem no_early_stop_beyond_range (cfg : ScanConfig) (w : World) :
  max_n cfg < max_mis cfg ->
  count is_stopped (events (scan cfg w)) = 0%nat.
Proof.
  intros H.
  rewrite <- (count_visible is_stopped) by apply stopped_not_log.
  rewrite scan_visible. destruct (starts cfg w && browser_ready w); [|reflexivity].
  assert (S : count is_stopped
                (fst (loop_outline cfg (probe_hits cfg w) (sleep w)
                        (Z.to_nat (max_n cfg)) 0 0 0)) = 0%nat).
  { destruct (Z.to_nat (max_n cfg)) as [|k] eqn:E; [reflexivity|].
    apply loop_outline_never_stops. lia. }
  destruct (session_outline_shape cfg w) as [-> | (a & b & [-> | (found & _ & ->)])];
    [reflexivity | |]; rewrite count_cons; cbn [is_stopped Nat.add]; [exact S|].
  rewrite count_app, S. reflexivity.
Qed.

Lemma no_early_stop_beyond_range_witness :
  count is_stopped (events (scan (sample_config 3 4) (sample_world (fun _ => false))))
  = 0%nat.
Proof.
  apply (no_early_stop_beyond_range (sample_config 3 4) (sample_world (fun _ => false)));
    cbn; lia.
Defined.

(** When the first launch fails for a missing browser and the managed
    install and the second launch succeed, the scan goes on as if the
    browser had been launched at once: apart from logs, the stream is the
    same. *)
Theorem install_recovers_scan (cfg : ScanConfig) (w : World) :
  launch_succeeds w = true ->
  visible (events (scan cfg w)) = visible (events (scan cfg (launched_at_once w))).
Proof.
  intros H. rewrite !scan_visible.
  unfold browser_ready. rewrite H.
  change (starts cfg (launched_at_once w)) with (starts cfg w).
  destruct (starts cfg w); reflexivity.
Qed.

Lemma install_recovers_scan_witness :
  let w := mkWorld "/opt/app/browsers" true
             (Some (OtherError "Executable doesn't exist at /opt/app/browsers/chromium"))
             None None None (mkGateRun [] None)
             (fun _ _ => Response 404 []) (fun _ _ => None)
             (fun _ => GotoFailed (OtherError "net::ERR_ABORTED")) (fun _ _ => None) None
             (fun _ => None) in
  visible (events (scan (sample_config 2 5) w))
  = visible (events (scan (sample_config 2 5) (launched_at_once w))).
Proof.
  intros w. apply (install_recovers_scan (sample_config 2 5) w). reflexivity.
Defined.

Lemma hits_follow_checks_weaken prev evs :
  hits_follow_checks None evs -> hits_follow_checks prev evs.
Proof. destruct evs as [|[] t]; cbn [hits_follow_checks]; tauto. Qed.

Lemma hits_follow_checks_app prev a b :
  hits_follow_checks prev a -> hits_follow_checks None b ->
  hits_follow_checks prev (a ++ b)%list.
Proof.
  revert prev. induction a as [|e a IH]; intros prev Ha Hb.
  - now apply hits_follow_checks_weaken.
  - destruct e; cbn [hits_follow_checks app] in *; try (apply IH; assumption).
    destruct Ha as [Hp Ha]. split; [exact Hp|]. now apply IH.
Qed.

Lemma exts_outline_hits_follow cfg hits naps i pad ext_list :
  forall j found hit_this,
    hits_follow_checks None
      (fst (exts_outline cfg hits naps i pad j ext_list found hit_this)).
Proof.
  induction ext_list as [|ext l IH]; intros j found hit_this; [exact I|].
  cbn [exts_outline]. cbn zeta.
  destruct (naps j) as [e|].
  - destruct (hits j); cbn [fst hits_follow_checks]; auto.
  - destruct (hits j); cbn [fst app hits_follow_checks]; auto.
    apply hits_follow_checks_weaken, IH.
Qed.

Lemma loop_outline_hits_follow cfg hits naps remaining :
  forall i found consecutive,
    hits_follow_checks None
      (fst (loop_outline cfg hits naps remaining i found consecutive)).
Proof.
  induction remaining as [|n IH]; intros i found consecutive; [exact I|].
  cbn [loop_outline].
  destruct (zero_pad (start_num cfg + Z.of_nat i) (scan_num_width cfg)) as [pad|e0];
    [|exact I].
  pose proof (exts_outline_hits_follow cfg (hits i) (naps i) i pad
                (ext_list_to_scan cfg) 0%nat found false) as F.
  destruct (exts_outline cfg (hits i) (naps i) i _ 0 (ext_list_to_scan cfg) found false)
    as [evs [[found' hit_this]|e]]; cbn [fst snd] in *; [|exact F].
  destruct (after_candidate (max_mis cfg) hit_this consecutive) as [c [|]]; cbn [fst];
    apply hits_follow_checks_app; auto. exact I.
Qed.

(** Apart from logs, every hit event of a scan comes immediately after
    the checking event of the same URL and carries that event's counter
    plus one: nothing is reported as found that was not announced as
    checked just before. *)
Theorem hits_follow_their_checks (cfg : ScanConfig) (w : World) :
  hits_follow_checks None (visible (events (scan cfg w))).
Proof.
  rewrite scan_visible. destruct (starts cfg w && browser_ready w); [|exact I].
  pose proof (loop_outline_hits_follow cfg (probe_hits cfg w) (sleep w)
                (Z.to_nat (max_n cfg)) 0%nat 0%nat 0%nat) as F.
  destruct (session_outline_shape cfg w) as [-> | (a & b & [-> | (found & _ & ->)])];
    [exact I | |]; cbn [hits_follow_checks]; [exact F|].
  apply hits_follow_checks_app; [exact F | exact I].
Qed.

(* ------------------------------------------------------------------ *)
(** ** The GETs of a scan                                              *)
(* ------------------------------------------------------------------ *)

Lemma checked_urls_app a b :
  checked_urls (a ++ b) = (checked_urls a ++ checked_urls b)%list.
Proof.
  induction a as [|e a IH]; [reflexivity|].
  destruct e; cbn [app checked_urls]; rewrite IH; reflexivity.
Qed.

Lemma checked_urls_visible evs : checked_urls (visible evs) = checked_urls evs.
Proof.
  induction evs as [|e evs IH]; [reflexivity|].
  destruct e; unfold visible; cbn [filter is_log negb checked_urls];
    fold (visible evs); now rewrite IH.
Qed.

Lemma no_visible_no_checked evs : visible evs = [] -> checked_urls evs = [].
Proof. intros H. now rewrite <- checked_urls_visible, H. Qed.

Section Traces.
Variable cfg : ScanConfig.

Lemma traces_quiet {A} (m : Gen A) :
  (forall r, requests (final (m r)) = requests r /\ checked_urls (events (m r)) = []) ->
  traces cfg m.
Proof.
  intros H r. destruct (H r) as [-> ->].
  destruct (click_mode cfg); now rewrite List.app_nil_r.
Qed.

Lemma traces_bind {A B} (m : Gen A) (f : A -> Gen B) :
  traces cfg m -> (forall a, traces cfg (f a)) -> traces cfg (bind m f).
Proof.
  intros Hm Hf r. rewrite final_bind, events_bind.
  destruct (outcome (m r)) as [a|x].
  - rewrite (Hf a), (Hm r), checked_urls_app.
    destruct (click_mode cfg); now rewrite <- ?List.app_assoc.
  - now rewrite (Hm r), List.app_nil_r.
Qed.

Lemma traces_try {A} (m : Gen A) (h : Exn -> Gen A) :
  traces cfg m -> (forall x, traces cfg (h x)) -> traces cfg (try_except m h).
Proof.
  intros Hm Hh r. rewrite final_try, events_try.
  destruct (outcome (m r)) as [a|x].
  - now rewrite (Hm r), List.app_nil_r.
  - rewrite (Hh x), (Hm r), checked_urls_app.
    destruct (click_mode cfg); now rewrite <- ?List.app_assoc.
Qed.

Lemma traces_ret {A} (a : A) : traces cfg (ret a).
Proof. apply traces_quiet. now intros r. Qed.

Lemma traces_raise {A} (x : Exn) : traces cfg (@raise A x).
Proof. apply traces_quiet. now intros r. Qed.

Lemma traces_log msg : traces cfg (yield (Log msg)).
Proof. apply traces_quiet. now intros r. Qed.

Lemma traces_log_if c msg : traces cfg (log_if c msg).
Proof. destruct c; [apply traces_log | apply traces_ret]. Qed.

Lemma traces_call reply : traces cfg (call reply).
Proof. destruct reply; [apply traces_raise | apply traces_ret]. Qed.

Lemma traces_lift_bind {A B} (o : Outcome A) (f : A -> Gen B) :
  (forall a, o = Returned a -> traces cfg (f a)) -> traces cfg (bind (lift o) f).
Proof.
  intros H r. rewrite final_bind, events_bind. gen_cbn.
  destruct o as [a|x]; [exact (H a eq_refl r)|].
  destruct (click_mode cfg); now rewrite List.app_nil_r.
Qed.

Lemma traces_try_selectors i buttons selectors :
  traces cfg (try_selectors cfg i buttons selectors).
Proof.
  apply traces_quiet. intros r.
  destruct (try_selectors_run cfg i buttons selectors r) as (V & -> & _).
  auto using no_visible_no_checked.
Qed.
End Traces.

(** The [try] statement of a probe issues one GET of its URL in direct
    mode and none in click mode, and announces nothing as checked. *)
Lemma probe_attempt_requests cfg w i j pad ext url found hit_this r :
  let x := probe_attempt cfg w i j pad ext url found hit_this r in
  requests (final x)
  = (requests r
     ++ if click_mode cfg then [] else [mkRequest url (context_user_agent r)])%list
  /\ checked_urls (events x) = [].
Proof.
  cbn zeta. split.
  2:{ rewrite <- checked_urls_visible.
      destruct (probe_attempt_run cfg w i j pad ext url found hit_this r) as (V & _).
      cbn zeta in V. rewrite V. now destruct (probe_hits cfg w i j). }
  unfold probe_attempt. destruct (click_mode cfg).
  - unfold click_probe. destruct (click w i) as [e|buttons].
    + destruct (i <? 3)%nat; gen_simpl; now rewrite List.app_nil_r.
    + gen_simpl.
      destruct (try_selectors_run cfg i buttons CLICK_SELECTORS r) as (_ & F & O).
      rewrite O, F.
      destruct (existsb _ CLICK_SELECTORS); gen_simpl; [now rewrite List.app_nil_r|].
      destruct (i <? 3)%nat; gen_simpl; now rewrite List.app_nil_r.
  - unfold direct_fetch. gen_simpl.
    destruct (fetch w i j) as [status headers|e].
    + destruct (i <? 3)%nat; [unfold py_str; destruct (str status) as [st|]|];
        gen_simpl;
        destruct (classify status (content_type_of headers)
                    (dict_get headers "content-length"));
        (destruct (auto_download cfg); [destruct (save_body w i j)|]);
        gen_simpl; reflexivity.
    + destruct (i <? 3)%nat; gen_simpl; reflexivity.
Qed.

Lemma traces_probe cfg w i j pad ext found hit_this :
  traces cfg (probe cfg w i j pad ext found hit_this).
Proof.
  intros r. set (url := probe_url cfg pad ext).
  destruct (probe_attempt_requests cfg w i j pad ext url found hit_this r) as (R & _).
  cbn zeta in R.
  destruct (probe_attempt_run cfg w i j pad ext url found hit_this r) as (_ & O & _).
  cbn zeta in O.
  assert (F : final (probe cfg w i j pad ext found hit_this r)
              = final (probe_attempt cfg w i j pad ext url found hit_this r)).
  { unfold probe. fold (probe_url cfg pad ext). fold url. cbn zeta.
    rewrite final_bind. gen_cbn. rewrite final_bind, O, final_bind.
    destruct (call_run (sleep w i j)
                (final (probe_attempt cfg w i j pad ext url found hit_this r)))
      as (_ & Fc & Oc).
    rewrite Oc, Fc. destruct (sleep w i j); reflexivity. }
  assert (C : checked_urls (events (probe cfg w i j pad ext found hit_this r)) = [url]).
  { rewrite <- checked_urls_visible.
    destruct (probe_run cfg w i j pad ext found hit_this r) as (V & _).
    cbn zeta in V. rewrite V. now destruct (probe_hits cfg w i j). }
  rewrite F, R, C, map_app. destruct (click_mode cfg); reflexivity.
Qed.

Lemma traces_scan_exts cfg w i pad ext_list :
  forall j found hit_this, traces cfg (scan_exts cfg w i pad j ext_list found hit_this).
Proof.
  induction ext_list as [|ext l IH]; intros j found hit_this.
  - apply traces_ret.
  - cbn [scan_exts]. apply traces_bind; [apply traces_probe | intros a; apply IH].
Qed.

Lemma traces_scan_loop cfg w remaining :
  forall i found consecutive, traces cfg (scan_loop cfg w remaining i found consecutive).
Proof.
  induction remaining as [|n IH]; intros i found consecutive.
  - apply traces_ret.
  - cbn [scan_loop]. cbn zeta. apply traces_lift_bind. intros pad _.
    apply traces_bind; [apply traces_scan_exts|].
    intros [found' hit_this].
    destruct (after_candidate (max_mis cfg) (snd (found', hit_this)) consecutive)
      as [c [|]].
    + apply traces_bind; [|intros; apply traces_ret].
      apply traces_quiet. now intros r.
    + apply IH.
Qed.

Lemma traces_yield_logs cfg msgs : traces cfg (yield_logs msgs).
Proof.
  induction msgs as [|m l IH]; [apply traces_ret|].
  cbn [yield_logs]. apply traces_bind; [apply traces_log | intros; exact IH].
Qed.

Lemma traces_gate_check cfg w : traces cfg (gate_check cfg w).
Proof.
  unfold gate_check.
  destruct (String.eqb (cookie_str cfg) "" && negb (click_mode cfg))%bool.
  - apply traces_bind; [apply traces_log | intros _].
    apply traces_bind; [apply traces_yield_logs | intros _].
    destruct (gate_raised (gate w)) as [[?|?|?]|];
      (apply traces_log || apply traces_ret).
  - apply traces_log_if.
Qed.

Lemma traces_modify_browser cfg b : traces cfg (modify (set_browser_open b)).
Proof. apply traces_quiet. now intros r. Qed.

Lemma traces_launch_browser cfg w : traces cfg (launch_browser w).
Proof.
  unfold launch_browser. destruct (first_launch w) as [e|];
    [|apply traces_modify_browser].
  destruct (contains "executable doesn't exist" (lower (exn_msg e))
            || contains "playwright install" (lower (exn_msg e))
            || contains "not found" (lower (exn_msg e)))%bool; [|apply traces_raise].
  apply traces_bind; [apply traces_log | intros _].
  apply traces_try.
  - apply traces_bind; [apply traces_call | intros _].
    apply traces_bind; [apply traces_log | intros _].
    apply traces_bind; [apply traces_call | intros _].
    apply traces_modify_browser.
  - intros x. apply traces_bind; [apply traces_log | intros _; apply traces_raise].
Qed.

Lemma traces_open_page cfg w : traces cfg (open_page w).
Proof.
  unfold open_page. apply traces_bind; [apply traces_call | intros _].
  apply traces_quiet. now intros r.
Qed.

Lemma traces_scan_session cfg w : traces cfg (scan_session cfg w).
Proof.
  unfold scan_session.
  apply traces_bind; [apply traces_gate_check | intros _].
  apply traces_lift_bind. intros preview P.
  destruct (range_preview_shape _ _ P) as (a & b & ->).
  apply traces_bind; [apply traces_quiet; now intros r | intros _].
  apply traces_bind; [apply traces_log | intros _].
  apply traces_bind; [apply traces_scan_loop | intros found].
  apply traces_bind.
  - unfold browser_close. apply traces_bind; [apply traces_call | intros _].
    apply traces_modify_browser.
  - intros _. apply traces_bind; [apply traces_log | intros _].
    apply traces_quiet. now intros r.
Qed.

Lemma traces_run_playwright_logic cfg w : traces cfg (run_playwright_logic cfg w).
Proof.
  unfold run_playwright_logic. destruct (playwright_installed w); [|apply traces_raise].
  intros r.
  destruct (with_sync_playwright_run
              (bind (launch_browser w) (fun _ => bind (open_page w) (fun _ => scan_session cfg w))) r)
    as (-> & _ & ->).
  assert (T : traces cfg (bind (launch_browser w)
                            (fun _ => bind (open_page w) (fun _ => scan_session cfg w)))).
  { apply traces_bind; [apply traces_launch_browser | intros _].
    apply traces_bind; [apply traces_open_page | intros _; apply traces_scan_session]. }
  specialize (T (set_pw_running true r)). exact T.
Qed.

Lemma traces_generate cfg w : traces cfg (generate cfg w).
Proof.
  unfold generate. apply traces_bind.
  { destruct (String.eqb (cookie_str cfg) ""); [apply traces_ret|].
    apply traces_bind; [apply traces_call | intros _; apply traces_log]. }
  intros _. apply traces_try; [apply traces_run_playwright_logic|].
  intros [?|?|?]; apply traces_log.
Qed.

(** In direct-fetch mode a scan issues exactly one GET for each URL
    that it announces in a checking event, in the order of the
    announcements, and no other GET; in click mode it issues no GET. *)
Theorem requests_match_checks (cfg : ScanConfig) (w : World) :
  map req_url (requests (final (scan cfg w)))
  = if click_mode cfg then [] else checked_urls (events (scan cfg w)).
Proof. exact (traces_generate cfg w initial). Qed.

(* ------------------------------------------------------------------ *)
(** ** Candidate identifiers                                           *)
(* ------------------------------------------------------------------ *)

Lemma zeros_are_digits k : forall_chars is_digit (zeros k) = true.
Proof. induction k as [|k IH]; [reflexivity|]. cbn [zeros forall_chars]. now rewrite IH. Qed.

Lemma uint_of_zeros k ds u :
  NilEmpty.uint_of_string ds = Some u ->
  NilEmpty.uint_of_string (zeros k ++ ds) = Some (Nat.iter k Decimal.D0 u).
Proof.
  intros H. induction k as [|k IH]; [exact H|].
  cbn [zeros append NilEmpty.uint_of_string Nat.iter]. now rewrite IH.
Qed.

Lemma of_uint_leading_zeros k u :
  Z.of_uint (Nat.iter k Decimal.D0 u) = Z.of_uint u.
Proof. induction k as [|k IH]; [reflexivity|]. cbn [Nat.iter]. exact IH. Qed.

Lemma zfill_digits ds w :
  ds <> "" -> forall_chars is_digit ds = true ->
  exists k, zfill ds w = zeros k ++ ds.
Proof.
  intros N D. unfold zfill.
  destruct (w <=? Z.of_nat (String.length ds)); [now exists 0%nat|].
  destruct ds as [|c ds]; [congruence|].
  cbn [forall_chars] in D. apply andb_true_iff in D as [Dc _].
  rewrite (digit_not_sign c Dc). eauto.
Qed.

Lemma zeros_digits_head k ds :
  ds <> "" -> forall_chars is_digit ds = true ->
  exists c b, zeros k ++ ds = String c b /\ Ascii.eqb c "-" = false.
Proof.
  intros N D. destruct k as [|k].
  - destruct ds as [|c b]; [congruence|]. exists c, b. split; [reflexivity|].
    cbn [forall_chars] in D. apply andb_true_iff in D as [Dc _].
    pose proof (digit_not_sign c Dc) as S. now apply orb_false_iff in S as [_ S].
  - cbn [zeros append]. eauto.
Qed.

(** The text of a padded identifier determines its number: the numeral
    read back from [str(n).zfill(width)] is [n], whatever the width. *)
Lemma read_numeral_padded (n width : Z) : read_numeral (padded n width) = Some n.
Proof.
  unfold padded, decimal. destruct n as [|p|p].
  - change (NilZero.string_of_int (Z.to_int 0)) with "0".
    destruct (zfill_digits "0" width ltac:(discriminate) eq_refl) as [k ->].
    destruct (zeros_digits_head k "0" ltac:(discriminate) eq_refl) as (c & b & E & Nc).
    unfold read_numeral. rewrite E, Nc, <- E.
    rewrite (uint_of_zeros k "0" (Decimal.D0 Decimal.Nil) eq_refl).
    cbn [option_map]. now rewrite of_uint_leading_zeros.
  - change (NilZero.string_of_int (Z.to_int (Z.pos p)))
      with (NilZero.string_of_uint (Pos.to_uint p)).
    pose proof (pos_to_uint_nonnil p) as Np.
    assert (S : NilZero.string_of_uint (Pos.to_uint p)
                = NilEmpty.string_of_uint (Pos.to_uint p))
      by (destruct (Pos.to_uint p); [congruence | reflexivity..]).
    rewrite S. set (ds := NilEmpty.string_of_uint (Pos.to_uint p)).
    assert (Nd : ds <> "") by (apply string_of_uint_nonempty; exact Np).
    assert (D : forall_chars is_digit ds = true) by apply digits_of_uint.
    destruct (zfill_digits ds width Nd D) as [k ->].
    destruct (zeros_digits_head k ds Nd D) as (c & b & E & Nc).
    unfold read_numeral. rewrite E, Nc, <- E.
    rewrite (uint_of_zeros k ds (Pos.to_uint p) (NilEmpty.usu _)).
    cbn [option_map]. rewrite of_uint_leading_zeros. f_equal.
    change (Z.of_uint (Pos.to_uint p)) with (Z.of_int (Z.to_int (Z.pos p))).
    apply DecimalZ.of_to.
  - change (NilZero.string_of_int (Z.to_int (Z.neg p)))
      with (String "-" (NilZero.string_of_uint (Pos.to_uint p))).
    pose proof (pos_to_uint_nonnil p) as Np.
    assert (S : NilZero.string_of_uint (Pos.to_uint p)
                = NilEmpty.string_of_uint (Pos.to_uint p))
      by (destruct (Pos.to_uint p); [congruence | reflexivity..]).
    rewrite S. set (ds := NilEmpty.string_of_uint (Pos.to_uint p)).
    assert (Z : exists k, zfill (String "-" ds) width = String "-" (zeros k ++ ds)).
    { unfold zfill. destruct (width <=? Z.of_nat (String.length (String "-" ds)));
        [now exists 0%nat|]. cbn [Ascii.eqb Bool.eqb orb]. eauto. }
    destruct Z as [k ->].
    unfold read_numeral. cbn [Ascii.eqb Bool.eqb].
    rewrite (uint_of_zeros k ds (Pos.to_uint p) (NilEmpty.usu _)).
    cbn [option_map]. rewrite of_uint_leading_zeros. f_equal.
    change (- Z.of_uint (Pos.to_uint p)) with (Z.of_int (Z.to_int (Z.neg p))).
    apply DecimalZ.of_to.
Qed.


Lemma app_inv_head_str a x y : a ++ x = a ++ y -> x = y.
Proof. induction a as [|c a IH]; cbn [append]; [trivial|]. intros [= H]. auto. Qed.

Lemma app_inv_tail_str e x : forall y, x ++ e = y ++ e -> x = y.
Proof.
  induction x as [|c x IH]; intros [|d y] H; cbn [append] in H.
  - reflexivity.
  - exfalso. apply (f_equal String.length) in H.
    cbn [String.length] in H. rewrite length_app_str in H. lia.
  - exfalso. apply (f_equal String.length) in H.
    cbn [String.length] in H. rewrite length_app_str in H. lia.
  - injection H as -> H. now rewrite (IH y H).
Qed.

(** Two identifiers of a scan never give the same URL for the same
    extension: within one scan no URL is announced for two different
    indices. *)
Theorem candidate_urls_distinct (cfg : ScanConfig) (e : string) (i i' : nat) :
  candidate_url cfg i e = candidate_url cfg i' e -> i = i'.
Proof.
  unfold candidate_url, probe_url. intros H.
  assert (P : padded (start_num cfg + Z.of_nat i) (scan_num_width cfg)
              = padded (start_num cfg + Z.of_nat i') (scan_num_width cfg)).
  { destruct (click_mode cfg).
    - exact (app_inv_head_str _ _ _ H).
    - apply app_inv_head_str, app_inv_head_str in H.
      exact (app_inv_tail_str _ _ _ H). }
  apply (f_equal read_numeral) in P. rewrite !read_numeral_padded in P.
  injection P as P. lia.
Qed.

Lemma candidate_urls_distinct_witness :
  candidate_url (sample_config 10 10) 3 ".mp4" = "https://a.example/clip00045.mp4"
  /\ 3%nat = 3%nat.
Proof.
  split; [reflexivity|].
  apply (candidate_urls_distinct (sample_config 10 10) ".mp4" 3 3). reflexivity.
Defined.

(* ------------------------------------------------------------------ *)
(** ** The name of a saved file                                        *)
(* ------------------------------------------------------------------ *)

Lemma replace_char_removes a b s :
  Ascii.eqb b a = false -> exists_char (Ascii.eqb a) (replace_char a b s) = false.
Proof.
  intros H. induction s as [|c s IH]; [reflexivity|].
  cbn [replace_char exists_char]. rewrite IH, orb_false_r.
  destruct (Ascii.eqb_spec c a) as [->|N].
  - now rewrite Ascii.eqb_sym.
  - rewrite Ascii.eqb_sym. now apply Ascii.eqb_neq.
Qed.

Lemma replace_char_keeps_absent a b x s :
  Ascii.eqb x b = false ->
  exists_char (Ascii.eqb x) s = false ->
  exists_char (Ascii.eqb x) (replace_char a b s) = false.
Proof.
  intros Hb. induction s as [|c s IH]; [reflexivity|].
  cbn [replace_char exists_char]. intros H. apply orb_false_iff in H as [Hc H].
  rewrite (IH H), orb_false_r. now destruct (Ascii.eqb c a).
Qed.

Lemma contains_app_r needle s t : contains needle t = true -> contains needle (s ++ t) = true.
Proof.
  intros H. induction s as [|c s IH]; [exact H|].
  cbn [append contains]. rewrite IH. apply orb_true_r.
Qed.

(** The name under which a body is saved holds neither a slash nor a
    colon, whatever the prefix and the extension, and always holds a
    dot. *)
Theorem save_name_is_sanitized (cfg : ScanConfig) (num_str_pad ext : string) :
  exists_char (Ascii.eqb "/") (save_name cfg num_str_pad ext) = false
  /\ exists_char (Ascii.eqb ":") (save_name cfg num_str_pad ext) = false
  /\ contains "." (save_name cfg num_str_pad ext) = true.
Proof.
  unfold save_name.
  set (f := replace_char "/" "_" (replace_char ":" "_" (scan_prefix cfg ++ num_str_pad ++ ext))).
  assert (S : exists_char (Ascii.eqb "/") f = false)
    by (apply replace_char_removes; reflexivity).
  assert (C : exists_char (Ascii.eqb ":") f = false).
  { apply replace_char_keeps_absent; [reflexivity|].
    apply replace_char_removes. reflexivity. }
  destruct (contains "." f) eqn:D.
  - auto.
  - rewrite !exists_char_app, S, C. repeat split.
    exact (contains_app_r "." f ".bin" eq_refl).
Qed.

(* ------------------------------------------------------------------ *)
(** ** The range announced                                             *)
(* ------------------------------------------------------------------ *)



